(** * gong-cloud: speaker resolution, directory cache and transcript formatting

    A shallow embedding of the three services of the adapter
    ([UserService], [TranscriptService], [CallService]) and of the paginated
    fetch of its API client, together with the properties of their
    specification and further properties of the code.

    Modelling conventions.
    - JavaScript numbers that the services manipulate (millisecond offsets,
      durations, limits, the clock) are integers and are modelled in [Z];
      the few places where the source can produce [NaN] or an infinity are
      spelled out where they arise.
    - Strings are Rocq strings; [toLowerCase] and [trim] are the ASCII
      restrictions of the JavaScript functions.
    - An optional field of a JSON object is an [option]; [a || b] on strings
      treats the empty string as absent, as JavaScript does.
    - A plain object used as a dictionary ([SpeakerMap]) is a [gmap]; keys
      are taken not to collide with members of [Object.prototype].  The
      [Map] of the directory cache and the topic dictionary are association
      lists, because their iteration order is observable.
    - [async] methods are computations in a state-and-exception monad over
      the service state; the accessor, the clock, the collation and the date
      parser form the [World] the code runs in. *)

From Stdlib Require Import ZArith String Ascii List Lia Permutation Sorted.
From Stdlib Require OrderedTypeEx.
From stdpp Require Import base option list strings gmap pretty.

Local Open Scope Z_scope.
Local Open Scope string_scope.

(** ** JavaScript primitives *)

Module JS.

(** Truthiness of an optional string: present and non-empty. *)
Definition truthy (o : option string) : bool :=
  match o with
  | Some s => negb (String.eqb s "")
  | None => false
  end.

(** [a || b] where [a] is an optional string and [b] a string. *)
Definition or_else (a : option string) (b : string) : string :=
  match a with
  | Some s => if String.eqb s "" then b else s
  | None => b
  end.

(** [a || b] where both sides are optional strings. *)
Definition or_opt (a b : option string) : option string :=
  if truthy a then a else b.

(** [s || b] on plain strings. *)
Definition or_str (s b : string) : string :=
  if String.eqb s "" then b else s.

(** The string held by an optional string that has passed a truthiness
    test. *)
Definition get (o : option string) : string := default "" o.

(** [s.substring(0, n)]. *)
Definition substring0 (n : nat) (s : string) : string :=
  String.substring 0 n s.

Definition lower_ascii (c : ascii) : ascii :=
  let n := nat_of_ascii c in
  if (65 <=? n)%nat && (n <=? 90)%nat then ascii_of_nat (n + 32) else c.

Fixpoint toLowerCase (s : string) : string :=
  match s with
  | EmptyString => EmptyString
  | String c r => String (lower_ascii c) (toLowerCase r)
  end.

(** [hay.includes(needle)]. *)
Fixpoint includes (hay needle : string) : bool :=
  String.prefix needle hay ||
  match hay with
  | EmptyString => false
  | String _ r => includes r needle
  end.

(** [s.split(sep)] for a one-character separator: the result is never
    empty, and adjacent separators give empty pieces. *)
Fixpoint split (sep : ascii) (s : string) : list string :=
  match s with
  | EmptyString => [EmptyString]
  | String c r =>
      if Ascii.eqb c sep then EmptyString :: split sep r
      else match split sep r with
           | p :: ps => String c p :: ps
           | [] => [String c EmptyString]
           end
  end.

(** [s.split(sep)[0]] for a separator string: the part of [s] before the
    first occurrence of [sep], all of [s] when there is none. *)
Fixpoint before (sep s : string) : string :=
  if String.prefix sep s then EmptyString
  else match s with
       | EmptyString => EmptyString
       | String c r => String c (before sep r)
       end.

Definition is_space (c : ascii) : bool :=
  let n := nat_of_ascii c in
  (n =? 32)%nat || ((9 <=? n)%nat && (n <=? 13)%nat).

Fixpoint trimStart (s : string) : string :=
  match s with
  | EmptyString => EmptyString
  | String c r => if is_space c then trimStart r else s
  end.

(** Drops trailing white space. *)
Fixpoint trimEnd (s : string) : string :=
  match s with
  | EmptyString => EmptyString
  | String c r =>
      match trimEnd r with
      | EmptyString => if is_space c then EmptyString else String c EmptyString
      | r' => String c r'
      end
  end.

Definition trim (s : string) : string := trimEnd (trimStart s).

(** [l.join(sep)]. *)
Fixpoint join (sep : string) (l : list string) : string :=
  match l with
  | [] => EmptyString
  | [x] => x
  | x :: r => x ++ sep ++ join sep r
  end.

(** [n.toString()] for an integer. *)
Definition toString (n : Z) : string := pretty n.

(** [s.padStart(2, '0')]. *)
Definition padStart2 (s : string) : string :=
  match String.length s with
  | O => "00"
  | S O => "0" ++ s
  | _ => s
  end.

End JS.

(** ** Data model (models/types) *)

Record GongParticipant := {
  p_id : option string;
  p_name : option string;
  p_firstName : option string;
  p_lastName : option string;
  p_email : option string;
  p_role : option string;
  p_company : option string
}.

Record GongUser := {
  u_id : string;
  u_firstName : string;
  u_lastName : string;
  u_emailAddress : string;
  u_title : string;
  u_active : bool;
  u_created : string
}.

Record Sentence := { start : Z; text : string }.

Record GongTranscriptSegment := {
  speakerId : string;
  topic : option string;
  sentences : list Sentence
}.

Record GongSpeaker := {
  s_id : string;
  s_name : string;
  s_email : option string;
  s_role : option string;
  s_company : option string
}.

Abbreviation SpeakerMap := (gmap string GongSpeaker).

(** ** Records as the accessor delivers them *)

(** A user record of the directory endpoint, before normalisation. *)
Record RawUser := {
  ru_id : string;
  ru_firstName : option string;
  ru_lastName : option string;
  ru_emailAddress : option string;
  ru_email : option string;
  ru_title : option string;
  ru_role : option string;
  ru_active : option bool;
  ru_created : option string
}.

(** A call record of the calls endpoint.  [rc_transcript] is the truthiness
    of the record's [transcript] field. *)
Record RawCall := {
  rc_id : string;
  rc_title : option string;
  rc_scheduled : option string;
  rc_started : option string;
  rc_startTime : option string;
  rc_duration : option Z;
  rc_direction : option string;
  rc_system : option string;
  rc_scope : option string;
  rc_media : option string;
  rc_language : option string;
  rc_url : option string;
  rc_transcript : bool;
  rc_participants : option (list GongParticipant)
}.

Record CallResponse := { cr_call : option RawCall }.

Record CallTranscript := { ct_transcript : option (list GongTranscriptSegment) }.

(** The body of the transcript endpoint's answer, with the two fields the
    services read from it. *)
Record TranscriptResponse := {
  tr_transcripts : option (list GongTranscriptSegment);
  tr_callTranscripts : option (list CallTranscript)
}.

(** ** Exceptions, the world and the service monad *)

Inductive Error :=
| TypeError
| RangeError
| UpstreamError (msg : string).

Inductive Result (A : Type) :=
| Ok (a : A)
| Throw (e : Error).
Arguments Ok {A} a.
Arguments Throw {A} e.

(** What the services ask of their environment, in the order they ask. *)
Inductive Event :=
| EvNow
| EvGetCall (callId : string)
| EvGetTranscripts (callIds : list string)
| EvGetAllUsers.

(** The environment: the accessor and the clock answer as a function of
    what was asked before; the collation behind [localeCompare] and the
    parser behind [new Date(s).toISOString()] are fixed ([None] is an
    invalid date, on which [toISOString] throws a [RangeError]). *)
Record World := {
  w_now : list Event -> Z;
  w_getCall : list Event -> string -> Result CallResponse;
  w_getTranscripts : list Event -> list string -> Result TranscriptResponse;
  w_getAllUsers : list Event -> Result (list RawUser);
  w_localeCompare : string -> string -> Z;
  w_toISOString : string -> option string
}.

(** The mutable state: the two fields of [UserService] and the history of
    requests to the environment. *)
Record State := {
  userCache : list (string * GongUser);
  lastCacheUpdate : Z;
  history : list Event
}.

Definition M (A : Type) : Type := State -> Result A * State.

#[global] Instance M_ret : MRet M := fun A a st => (Ok a, st).

#[global] Instance M_bind : MBind M := fun A B f m st =>
  match m st with
  | (Ok a, st') => f a st'
  | (Throw e, st') => (Throw e, st')
  end.

Definition throw {A} (e : Error) : M A := fun st => (Throw e, st).

(** [try { body } catch (error) { handler }]. *)
Definition try_catch {A} (body : M A) (handler : Error -> M A) : M A :=
  fun st =>
    match body st with
    | (Ok a, st') => (Ok a, st')
    | (Throw e, st') => handler e st'
    end.

Definition record (ev : Event) (st : State) : State :=
  {| userCache := userCache st;
     lastCacheUpdate := lastCacheUpdate st;
     history := history st ++ [ev] |}.

(** A request to the environment: the answer depends on the history, and
    the request is appended to it. *)
Definition ask {A} (ev : Event) (answer : list Event -> Result A) : M A :=
  fun st => (answer (history st), record ev st).

Definition gets {A} (f : State -> A) : M A := fun st => (Ok (f st), st).

Definition modify (f : State -> State) : M unit := fun st => (Ok tt, f st).

Definition is_fetch (ev : Event) : bool :=
  match ev with EvGetAllUsers => true | _ => false end.

(** The number of directory fetches made so far. *)
Definition fetches (st : State) : nat :=
  length (List.filter is_fetch (history st)).

(** ** The insertion-ordered [Map] of the directory cache *)

Module JSMap.
Section Ops.
Context {V : Type}.

Fixpoint get (k : string) (m : list (string * V)) : option V :=
  match m with
  | [] => None
  | (k', v) :: r => if String.eqb k' k then Some v else get k r
  end.

(** [m.set(k, v)]: an existing key keeps its place, a new one goes last. *)
Fixpoint set (k : string) (v : V) (m : list (string * V)) : list (string * V) :=
  match m with
  | [] => [(k, v)]
  | (k', v') :: r =>
      if String.eqb k' k then (k', v) :: r else (k', v') :: set k v r
  end.

Definition values (m : list (string * V)) : list V := map snd m.

Definition size (m : list (string * V)) : Z := Z.of_nat (length m).
End Ops.
End JSMap.

(** ** services/user-service *)

Module UserService.

Definition cacheExpiryMs : Z := 1000 * 60 * 60.

Definition processUser (user : RawUser) : GongUser :=
  {| u_id := ru_id user;
     u_firstName := JS.or_else (ru_firstName user) "";
     u_lastName := JS.or_else (ru_lastName user) "";
     u_emailAddress :=
       JS.or_else (JS.or_opt (ru_emailAddress user) (ru_email user)) "";
     u_title := JS.or_else (JS.or_opt (ru_title user) (ru_role user)) "";
     u_active :=
       match ru_active user with
       | Some false => false
       | _ => true
       end;
     u_created := JS.or_else (ru_created user) "" |}.

(** The cache after [clear()] followed by one [set] per user. *)
Definition refill (allUsers : list GongUser) : list (string * GongUser) :=
  foldl (fun m user => JSMap.set (u_id user) user m) [] allUsers.

Definition getAllUsers (w : World) (forceRefresh : bool) : M (list GongUser) :=
  now ← ask EvNow (fun h => Ok (w_now w h));
  cache ← gets userCache;
  last ← gets lastCacheUpdate;
  if negb forceRefresh && (0 <? JSMap.size cache)%Z &&
     (now - last <? cacheExpiryMs)%Z
  then mret (JSMap.values cache)
  else
    rawUsers ← ask EvGetAllUsers (w_getAllUsers w);
    let allUsers := map processUser rawUsers in
    modify (fun st => {| userCache := refill allUsers;
                         lastCacheUpdate := now;
                         history := history st |});;
    mret allUsers.

(** The name test of the filter in [findUsers]. *)
Definition nameMatches (name : string) (user : GongUser) : bool :=
  let fullName := JS.toLowerCase (u_firstName user ++ " " ++ u_lastName user) in
  let searchName := JS.toLowerCase name in
  if JS.includes fullName searchName then true
  else
    let nameParts := JS.split " " searchName in
    existsb (fun part =>
               JS.includes (JS.toLowerCase (u_firstName user)) part ||
               JS.includes (JS.toLowerCase (u_lastName user)) part)
            nameParts.

(** The callback of the filter in [findUsers]. *)
Definition matchesUser (name email id : option string) (user : GongUser) : bool :=
  if JS.truthy id && String.eqb (u_id user) (JS.get id) then true
  else if JS.truthy name then nameMatches (JS.get name) user
  else if JS.truthy email && negb (String.eqb (u_emailAddress user) "") &&
          JS.includes (JS.toLowerCase (u_emailAddress user))
                      (JS.toLowerCase (JS.get email))
  then true
  else false.

Definition findUsers (w : World) (name email id : option string)
  : M (list GongUser) :=
  allUsers ← getAllUsers w false;
  cache ← gets userCache;
  match (if JS.truthy id then JSMap.get (JS.get id) cache else None) with
  | Some user => mret [user]
  | None => mret (List.filter (matchesUser name email id) allUsers)
  end.

(** The speaker that step 2 of [getSpeakerMap] builds for a participant
    whose id is [id]. *)
Definition participantSpeaker (id : string) (participant : GongParticipant)
  : GongSpeaker :=
  {| s_id := id;
     s_name :=
       JS.or_str
         (JS.or_else (p_name participant)
            (JS.trim (JS.or_else (p_firstName participant) "" ++ " " ++
                      JS.or_else (p_lastName participant) "")))
         ("Person " ++ JS.substring0 4 id);
     s_email := p_email participant;
     s_role := p_role participant;
     s_company := p_company participant |}.

Definition seedParticipants (participants : list GongParticipant) : SpeakerMap :=
  foldl (fun (speakerMap : SpeakerMap) participant =>
           if JS.truthy (p_id participant)
           then <[JS.get (p_id participant) :=
                    participantSpeaker (JS.get (p_id participant)) participant]>
                  speakerMap
           else speakerMap)
        ∅ participants.

(** [speakerIds.add(segment.speakerId)] under its guard; the [Set] is the
    list of its members in insertion order. *)
Definition addSpeakerId (speakerIds : list string)
    (segment : GongTranscriptSegment) : list string :=
  if negb (String.eqb (speakerId segment) "")
  then if existsb (String.eqb (speakerId segment)) speakerIds
       then speakerIds
       else (speakerIds ++ [speakerId segment])%list
  else speakerIds.

(** The speaker ids of step 3. *)
Definition collectSpeakerIds (transcripts : list GongTranscriptSegment)
  : list string :=
  foldl addSpeakerId [] transcripts.

(** The speaker that steps 4 and 5 build for a directory user. *)
Definition userSpeaker (user : GongUser) : GongSpeaker :=
  {| s_id := u_id user;
     s_name :=
       JS.or_str
         (JS.or_str (JS.trim (u_firstName user ++ " " ++ u_lastName user))
                    (u_emailAddress user))
         ("User " ++ JS.substring0 4 (u_id user));
     s_email := Some (u_emailAddress user);
     s_role := Some (u_title user);
     s_company := Some "Unknown" |}.

Definition buildUserMap (allUsers : list GongUser) : SpeakerMap :=
  foldl (fun (userMap : SpeakerMap) user => <[u_id user := userSpeaker user]> userMap)
        ∅ allUsers.

(** Step 5: the ids missing from the participants are looked up in the
    cache, then in the user map. *)
Definition fillFromDirectory (cache : list (string * GongUser)) (userMap : SpeakerMap)
    (missingIds : list string) (speakerMap : SpeakerMap) : SpeakerMap :=
  foldl (fun (speakerMap : SpeakerMap) id =>
           match JSMap.get id cache with
           | Some user => <[id := userSpeaker user]> speakerMap
           | None =>
               match userMap !! id with
               | Some speaker => <[id := speaker]> speakerMap
               | None => speakerMap
               end
           end)
        speakerMap missingIds.

Definition placeholder (id : string) : GongSpeaker :=
  {| s_id := id;
     s_name := "Person " ++ JS.substring0 4 id;
     s_email := None;
     s_role := None;
     s_company := Some "Unknown" |}.

(** Step 6. *)
Definition addPlaceholders (speakerIds : list string) (speakerMap : SpeakerMap)
  : SpeakerMap :=
  foldl (fun (speakerMap : SpeakerMap) id =>
           match speakerMap !! id with
           | Some _ => speakerMap
           | None => <[id := placeholder id]> speakerMap
           end)
        speakerMap speakerIds.

(** Step 1: the call details, fetched when the caller gave none. *)
Definition fetchCallDetails (w : World) (callId : string)
    (callDetails : option RawCall) : M (option RawCall) :=
  match callDetails with
  | Some c => mret (Some c)
  | None =>
      callResponse ← ask (EvGetCall callId) (fun h => w_getCall w h callId);
      mret (cr_call callResponse)
  end.

(** [callDetails?.participants || []]. *)
Definition participantsOf (callDetails : option RawCall) : list GongParticipant :=
  match callDetails with
  | Some c => default [] (rc_participants c)
  | None => []
  end.

(** Steps 5 and 6 on the data gathered by steps 2 to 4. *)
Definition mergeSpeakers (speakerMap : SpeakerMap) (speakerIds : list string)
    (cache : list (string * GongUser)) (allUsers : list GongUser) : SpeakerMap :=
  let userMap := buildUserMap allUsers in
  let missingIds :=
    List.filter (fun id => negb (bool_decide (is_Some (speakerMap !! id))))
                speakerIds in
  let speakerMap := fillFromDirectory cache userMap missingIds speakerMap in
  addPlaceholders speakerIds speakerMap.

(** Steps 2 to 6. *)
Definition resolveSpeakers (w : World) (callId : string)
    (callDetails : option RawCall) : M SpeakerMap :=
  let participants := participantsOf callDetails in
  let speakerMap := seedParticipants participants in
  transcriptResponse ←
    ask (EvGetTranscripts [callId]) (fun h => w_getTranscripts w h [callId]);
  let transcripts := default [] (tr_transcripts transcriptResponse) in
  let speakerIds := collectSpeakerIds transcripts in
  allUsers ← getAllUsers w false;
  cache ← gets userCache;
  mret (mergeSpeakers speakerMap speakerIds cache allUsers).

(** The [try] block of [getSpeakerMap]. *)
Definition getSpeakerMap_body (w : World) (callId : string)
    (callDetails : option RawCall) : M SpeakerMap :=
  callDetails ← fetchCallDetails w callId callDetails;
  resolveSpeakers w callId callDetails.

Definition getSpeakerMap (w : World) (callId : string)
    (callDetails : option RawCall) : M SpeakerMap :=
  try_catch (getSpeakerMap_body w callId callDetails) (fun _ => mret ∅).

End UserService.

(** ** A plain object used as an ordered dictionary *)

Module JSObject.

Definition digit (c : ascii) : option N :=
  let n := N_of_ascii c in
  if (48 <=? n)%N && (n <=? 57)%N then Some (n - 48)%N else None.

Fixpoint digits (acc : N) (s : string) : option N :=
  match s with
  | EmptyString => Some acc
  | String c r =>
      match digit c with
      | Some d => digits (10 * acc + d)%N r
      | None => None
      end
  end.

(** The array index a property name denotes, if any: a canonical decimal
    numeral below [2^32 - 1]. *)
Definition arrayIndex (key : string) : option N :=
  match key with
  | EmptyString => None
  | String c r =>
      if Ascii.eqb c "0" && negb (String.eqb r "") then None
      else if (10 <? String.length key)%nat then None
      else match digits 0 key with
           | Some n => if (n <? 4294967295)%N then Some n else None
           | None => None
           end
  end.

Section Entries.
Context {V : Type}.

Fixpoint insertIndexed (n : N) (e : string * V) (l : list (N * (string * V)))
  : list (N * (string * V)) :=
  match l with
  | [] => [(n, e)]
  | (m, e') :: r =>
      if (n <? m)%N then (n, e) :: (m, e') :: r
      else (m, e') :: insertIndexed n e r
  end.

(** The own properties named by array indices, in ascending order. *)
Fixpoint indexed (obj : list (string * V)) : list (N * (string * V)) :=
  match obj with
  | [] => []
  | e :: r =>
      match arrayIndex (fst e) with
      | Some n => insertIndexed n e (indexed r)
      | None => indexed r
      end
  end.

(** The other own properties, in insertion order. *)
Fixpoint named (obj : list (string * V)) : list (string * V) :=
  match obj with
  | [] => []
  | e :: r =>
      match arrayIndex (fst e) with
      | Some _ => named r
      | None => e :: named r
      end
  end.

(** [Object.entries(obj)]. *)
Definition entries (obj : list (string * V)) : list (string * V) :=
  (map snd (indexed obj) ++ named obj)%list.
End Entries.

End JSObject.

(** ** [Array.prototype.sort] with a comparison function *)

Module JSArray.
Section Sort.
Context {A : Type} (compareFn : A -> A -> Z).

Fixpoint insertSorted (x : A) (l : list A) : list A :=
  match l with
  | [] => [x]
  | y :: r =>
      if (compareFn x y <? 0)%Z then x :: y :: r
      else y :: insertSorted x r
  end.

(** The stable sort: each element goes after the elements already
    placed that do not compare greater. *)
Definition sort (l : list A) : list A :=
  foldl (fun sorted x => insertSorted x sorted) [] l.
End Sort.

(** [l.slice(0, n)] when [n > 0] and [l] is longer than [n], else [l]. *)
Definition limit {A} (n : Z) (l : list A) : list A :=
  if (0 <? n)%Z && (n <? Z.of_nat (length l))%Z
  then firstn (Z.to_nat n) l
  else l.
End JSArray.

(** ** services/transcript-service *)

Inductive Format := concise | full | raw.

Record SpeakerView := {
  sv_name : string;
  sv_company : option string;
  sv_role : option string
}.

Record ProcessedSentence := {
  ps_start : Z;
  ps_text : string;
  ps_timestamp : string
}.

Record ProcessedSegment := {
  pseg_speakerId : string;
  pseg_speaker : SpeakerView;
  pseg_topic : string;
  pseg_sentences : list ProcessedSentence
}.

Record Exchange := {
  ex_speaker : SpeakerView;
  ex_text : string;
  ex_timestamp : option string
}.

Record TopicSection := {
  sec_topic : string;
  sec_timeRange : string;
  sec_exchanges : list Exchange
}.

Record FormattedCall := {
  fc_id : string;
  fc_title : option string;
  fc_date : string;
  fc_duration : option string;
  fc_participants : option (list SpeakerView)
}.

Record FormattedTranscript := {
  ft_call : FormattedCall;
  ft_sections : list TopicSection
}.

Record RawTranscriptCall := {
  rtc_id : string;
  rtc_title : option string;
  rtc_date : string;
  rtc_duration : string
}.

Record RawTranscript := {
  rt_call : RawTranscriptCall;
  rt_transcript : list ProcessedSegment
}.

Inductive TranscriptResult :=
| Formatted (t : FormattedTranscript)
| Raw (t : RawTranscript).

Module TranscriptService.

Definition formatMilliseconds (ms : Z) : string :=
  let minutes := (ms / 60000)%Z in
  let seconds := (Z.rem ms 60000 / 1000)%Z in
  JS.toString minutes ++ ":" ++ JS.padStart2 (JS.toString seconds).

(** The placeholder of [processSegment], as the caller sees it. *)
Definition unknownSpeaker (id : string) : SpeakerView :=
  {| sv_name := "Speaker " ++ JS.substring0 8 id;
     sv_company := Some "Unknown";
     sv_role := Some "Unknown" |}.

Definition processSegment (segment : GongTranscriptSegment)
    (speakerMap : SpeakerMap) : ProcessedSegment :=
  let speaker :=
    match speakerMap !! speakerId segment with
    | Some speaker =>
        {| sv_name := s_name speaker;
           sv_company := s_company speaker;
           sv_role := s_role speaker |}
    | None => unknownSpeaker (speakerId segment)
    end in
  {| pseg_speakerId := speakerId segment;
     pseg_speaker := speaker;
     pseg_topic := JS.or_else (topic segment) "";
     pseg_sentences :=
       map (fun s => {| ps_start := start s;
                        ps_text := text s;
                        ps_timestamp := formatMilliseconds (start s) |})
           (sentences segment) |}.

(** The segment list that [getRawTranscript] and [getFormattedTranscript]
    read from the accessor's answer. *)
Definition transcriptOf (response : TranscriptResponse)
  : list GongTranscriptSegment :=
  match tr_callTranscripts response with
  | Some (first :: _) => default [] (ct_transcript first)
  | _ => []
  end.

Definition getRawTranscript (w : World) (callId : string)
  : M (list GongTranscriptSegment) :=
  try_catch
    (response ←
       ask (EvGetTranscripts [callId]) (fun h => w_getTranscripts w h [callId]);
     mret (transcriptOf response))
    (fun error => throw error).

Definition topicOf (segment : GongTranscriptSegment) : string :=
  JS.or_else (topic segment) "Untitled Topic".

(** One round of the grouping loop: the topic gets an empty group if it
    has none, then the segment is pushed onto the topic's group. *)
Definition pushSegment (topicGroups : list (string * list GongTranscriptSegment))
    (segment : GongTranscriptSegment)
  : list (string * list GongTranscriptSegment) :=
  let topic := topicOf segment in
  let topicGroups :=
    match JSMap.get topic topicGroups with
    | Some _ => topicGroups
    | None => JSMap.set topic [] topicGroups
    end in
  JSMap.set topic
    (default [] (JSMap.get topic topicGroups) ++ [segment])%list
    topicGroups.

(** The dictionary [topicGroups] after the grouping loop. *)
Definition groupByTopic (segments : list GongTranscriptSegment)
  : list (string * list GongTranscriptSegment) :=
  foldl pushSegment [] segments.

(** The segments of one topic, in their original order. *)
Definition topicSegments (topic : string)
    (segments : list GongTranscriptSegment) : list GongTranscriptSegment :=
  List.filter (fun segment => String.eqb (topicOf segment) topic) segments.

Definition sentenceStarts (topicSegments : list GongTranscriptSegment) : list Z :=
  flat_map (fun s => map start (sentences s)) topicSegments.

(** [Math.min] and [Math.max] of no argument are the infinities, which
    [formatMilliseconds] renders with [NaN] seconds. *)
Definition timeRangeOf (starts : list Z) : string :=
  match starts with
  | [] => "Infinity:NaN - -Infinity:NaN"
  | first :: others =>
      formatMilliseconds (foldl Z.min first others) ++ " - " ++
      formatMilliseconds (foldl Z.max first others)
  end.

Definition makeExchange (speakerMap : SpeakerMap) (maxSentences : Z)
    (segment : GongTranscriptSegment) : Exchange :=
  let processedSegment := processSegment segment speakerMap in
  let sentences := JSArray.limit maxSentences (pseg_sentences processedSegment) in
  {| ex_speaker := pseg_speaker processedSegment;
     ex_text := JS.join " " (map ps_text sentences);
     ex_timestamp :=
       match sentences with
       | first :: _ => Some (ps_timestamp first)
       | [] => None
       end |}.

Definition makeSection (speakerMap : SpeakerMap) (maxSentences : Z)
    (entry : string * list GongTranscriptSegment) : TopicSection :=
  {| sec_topic := fst entry;
     sec_timeRange := timeRangeOf (sentenceStarts (snd entry));
     sec_exchanges := map (makeExchange speakerMap maxSentences) (snd entry) |}.

Definition sectionStart (s : TopicSection) : string :=
  JS.or_str (JS.before " - " (sec_timeRange s)) "".

(** The sections of the grouped output, from the segment list. *)
Definition buildSections (w : World) (speakerMap : SpeakerMap)
    (maxSegments maxSentences : Z) (transcripts : list GongTranscriptSegment)
  : list TopicSection :=
  let segments := JSArray.limit maxSegments transcripts in
  let topicGroups := groupByTopic segments in
  let sections :=
    map (makeSection speakerMap maxSentences) (JSObject.entries topicGroups) in
  JSArray.sort (fun a b => w_localeCompare w (sectionStart a) (sectionStart b))
               sections.

Definition participantView (p : GongParticipant) : SpeakerView :=
  {| sv_name :=
       JS.or_str
         (JS.or_else (p_name p)
            (JS.trim (JS.or_else (p_firstName p) "" ++ " " ++
                      JS.or_else (p_lastName p) "")))
         "Unknown";
     sv_company := Some (JS.or_else (p_company p) "Unknown");
     sv_role := Some (JS.or_else (p_role p) "Unknown") |}.

(** Reading a property of [call] when the response carried no call is a
    [TypeError]. *)
Definition defined {A} (o : option A) : M A :=
  match o with
  | Some a => mret a
  | None => throw TypeError
  end.

(** [new Date(call.startTime || call.scheduled || '').toISOString()]. *)
Definition callDate (w : World) (call : RawCall) : M string :=
  match w_toISOString w
          (JS.or_else (JS.or_opt (rc_startTime call) (rc_scheduled call)) "") with
  | Some iso => mret iso
  | None => throw RangeError
  end.

(** The object returned for the raw format. *)
Definition rawTranscript (call : RawCall) (date : string)
    (speakerMap : SpeakerMap) (transcripts : list GongTranscriptSegment)
  : RawTranscript :=
  {| rt_call :=
       {| rtc_id := rc_id call;
          rtc_title := rc_title call;
          rtc_date := date;
          rtc_duration :=
            match rc_duration call with
            | Some d => formatMilliseconds (d * 1000)
            | None => "NaN:NaN"
            end |};
     rt_transcript :=
       map (fun segment => processSegment segment speakerMap) transcripts |}.

(** The object returned for the other formats. *)
Definition formattedTranscript (w : World) (call : RawCall) (date : string)
    (speakerMap : SpeakerMap) (maxSegments maxSentences : Z)
    (transcripts : list GongTranscriptSegment) : FormattedTranscript :=
  {| ft_call :=
       {| fc_id := rc_id call;
          fc_title := rc_title call;
          fc_date := JS.before "T" date;
          fc_duration :=
            match rc_duration call with
            | Some d =>
                if (d =? 0)%Z then None
                else Some (JS.toString (d / 60) ++ "m " ++
                           JS.toString (Z.rem d 60) ++ "s")
            | None => None
            end;
          fc_participants :=
            option_map (map participantView) (rc_participants call) |};
     ft_sections :=
       buildSections w speakerMap maxSegments maxSentences transcripts |}.

Definition getFormattedTranscript (w : World) (callId : string)
    (format : Format) (maxSegments maxSentences : Z) : M TranscriptResult :=
  try_catch
    (callResponse ← ask (EvGetCall callId) (fun h => w_getCall w h callId);
     let call := cr_call callResponse in
     transcriptResponse ←
       ask (EvGetTranscripts [callId]) (fun h => w_getTranscripts w h [callId]);
     let transcripts := transcriptOf transcriptResponse in
     speakerMap ← UserService.getSpeakerMap w callId call;
     match format with
     | raw =>
         call ← defined call;
         date ← callDate w call;
         mret (Raw (rawTranscript call date speakerMap transcripts))
     | _ =>
         call ← defined call;
         date ← callDate w call;
         mret (Formatted
                 (formattedTranscript w call date speakerMap maxSegments
                    maxSentences transcripts))
     end)
    (fun error => throw error).

End TranscriptService.

(** ** api/client: pagination *)

(** A query parameter or cursor as JSON holds it. *)
Inductive Value :=
| VStr (s : string)
| VNum (n : Z).

Module GongApiClient.

Definition truthy (v : option Value) : bool :=
  match v with
  | Some (VStr s) => negb (String.eqb s "")
  | Some (VNum n) => negb (n =? 0)%Z
  | None => false
  end.

(** [a || b || ...] ending in [undefined]. *)
Fixpoint firstTruthy (vs : list (option Value)) : option Value :=
  match vs with
  | [] => None
  | v :: rest => if truthy v then v else firstTruthy rest
  end.

(** The body of an answer: an array, or an object with its array fields
    and its [records] and [pagination] objects. *)
Inductive Response (T : Type) :=
| RArray (items : list T)
| RObject (fields : gmap string (list T))
          (records pagination : option (gmap string Value)).
Arguments RArray {T} items.
Arguments RObject {T} fields records pagination.

Section Paginated.
Context {T : Type}.

(** The transport: [request(method, path, params)], which throws on a
    failed exchange. *)
Context (request : string -> string -> gmap string Value -> Result (Response T)).

(** [dataKey ? response[dataKey] || [] : response], as the argument of
    [results.push(...dataArray)]: without a [dataKey] the answer itself is
    spread, which is a [TypeError] when it is an object; with a [dataKey]
    (taken not to name an index or a member of [Array.prototype]) an array
    answer has no such field. *)
Definition dataArray (dataKey : string) (response : Response T)
  : Result (list T) :=
  match response with
  | RArray items => if String.eqb dataKey "" then Ok items else Ok []
  | RObject fields _ _ =>
      if String.eqb dataKey ""
      then Throw TypeError
      else Ok (default [] (fields !! dataKey))
  end.

(** [response.records || response.pagination || {}]. *)
Definition recordsOf (response : Response T) : gmap string Value :=
  match response with
  | RArray _ => ∅
  | RObject _ (Some records) _ => records
  | RObject _ None (Some pagination) => pagination
  | RObject _ None None => ∅
  end.

(** [records[cursorKey] || records.nextPageToken || records.nextCursor ||
    undefined]. *)
Definition nextCursor (cursorKey : string) (response : Response T) : option Value :=
  let records := recordsOf response in
  firstTruthy [records !! cursorKey; records !! "nextPageToken";
               records !! "nextCursor"].

(** [initialParams.limit || 100]. *)
Definition pageLimit (initialParams : gmap string Value) : Value :=
  match firstTruthy [initialParams !! "limit"] with
  | Some v => v
  | None => VNum 100
  end.

(** The parameters of one request. *)
Definition pageParams (initialParams : gmap string Value) (cursorKey : string)
    (cursor : option Value) : gmap string Value :=
  let params := <["limit" := pageLimit initialParams]> initialParams in
  match cursor with
  | Some c => if truthy cursor then <[cursorKey := c]> params else params
  | None => params
  end.

(** The [do ... while (cursor)] loop, one round per unit of fuel; the log
    holds the parameters of the requests made. *)
Fixpoint pageLoop (method path : string) (initialParams : gmap string Value)
    (cursorKey dataKey : string) (fuel : nat) (cursor : option Value)
    (results : list T) (log : list (gmap string Value))
  : option (Result (list T) * list (gmap string Value)) :=
  match fuel with
  | O => None
  | S fuel =>
      let params := pageParams initialParams cursorKey cursor in
      match request method path params with
      | Throw e => Some (Throw e, (log ++ [params])%list)
      | Ok response =>
          match dataArray dataKey response with
          | Throw e => Some (Throw e, (log ++ [params])%list)
          | Ok items =>
              let results := (results ++ items)%list in
              let cursor := nextCursor cursorKey response in
              if truthy cursor
              then pageLoop method path initialParams cursorKey dataKey fuel
                            cursor results (log ++ [params])%list
              else Some (Ok results, (log ++ [params])%list)
          end
      end
  end.

(** [getAllPaginated]; [None] when the fuel runs out before the server stops
    handing out cursors. *)
Definition getAllPaginated (method path : string)
    (initialParams : gmap string Value) (cursorKey dataKey : string) (fuel : nat)
  : option (Result (list T) * list (gmap string Value)) :=
  pageLoop method path initialParams cursorKey dataKey fuel None [] [].

End Paginated.

Definition getAllUsers (request : string -> string -> gmap string Value ->
                                  Result (Response RawUser)) (fuel : nat)
  : option (Result (list RawUser) * list (gmap string Value)) :=
  getAllPaginated request "GET" "/v2/users" ∅ "cursor" "users" fuel.

Definition getAllCalls (request : string -> string -> gmap string Value ->
                                  Result (Response RawCall))
    (params : gmap string Value) (fuel : nat)
  : option (Result (list RawCall) * list (gmap string Value)) :=
  getAllPaginated request "GET" "/v2/calls" params "cursor" "calls" fuel.

End GongApiClient.

(** ** services/call-service *)

Record GongCall := {
  c_id : string;
  c_title : string;
  c_scheduled : option string;
  c_started : option string;
  c_duration : option Z;
  c_direction : option string;
  c_system : option string;
  c_scope : option string;
  c_media : option string;
  c_language : option string;
  c_url : option string;
  c_hasTranscript : bool;
  c_participants : list GongParticipant
}.

Record ListCallsParams := {
  lp_fromDateTime : option string;
  lp_toDateTime : option string;
  lp_limit : option Z
}.

Record GetCallParams := {
  callId : string;
  includeTranscript : option bool;
  transcriptFormat : option Format;
  maxSegments : option Z;
  maxSentences : option Z
}.

(** The object [getCall] returns; an [undefined] transcript is [None]. *)
Record CallWithTranscript := {
  call : GongCall;
  transcript : option TranscriptResult
}.

Module CallService.

Definition formatCall (call : RawCall) : GongCall :=
  {| c_id := rc_id call;
     c_title := JS.or_else (rc_title call) "Untitled Call";
     c_scheduled := rc_scheduled call;
     c_started := JS.or_opt (rc_started call) (rc_startTime call);
     c_duration := rc_duration call;
     c_direction := rc_direction call;
     c_system := rc_system call;
     c_scope := rc_scope call;
     c_media := rc_media call;
     c_language := rc_language call;
     c_url := rc_url call;
     c_hasTranscript := rc_transcript call;
     c_participants := default [] (rc_participants call) |}.

Definition setHasTranscript (b : bool) (call : GongCall) : GongCall :=
  {| c_id := c_id call; c_title := c_title call;
     c_scheduled := c_scheduled call; c_started := c_started call;
     c_duration := c_duration call; c_direction := c_direction call;
     c_system := c_system call; c_scope := c_scope call;
     c_media := c_media call; c_language := c_language call;
     c_url := c_url call; c_hasTranscript := b;
     c_participants := c_participants call |}.

Definition setParticipants (ps : list GongParticipant) (call : GongCall)
  : GongCall :=
  {| c_id := c_id call; c_title := c_title call;
     c_scheduled := c_scheduled call; c_started := c_started call;
     c_duration := c_duration call; c_direction := c_direction call;
     c_system := c_system call; c_scope := c_scope call;
     c_media := c_media call; c_language := c_language call;
     c_url := c_url call; c_hasTranscript := c_hasTranscript call;
     c_participants := ps |}.

(** A participant entry of a formatted transcript, stored in the call. *)
Definition ofView (v : SpeakerView) : GongParticipant :=
  {| p_id := None; p_name := Some (sv_name v); p_firstName := None;
     p_lastName := None; p_email := None; p_role := sv_role v;
     p_company := sv_company v |}.

(** [transcriptObj.call.participants], when the transcript has it. *)
Definition transcriptParticipants (t : TranscriptResult)
  : option (list GongParticipant) :=
  match t with
  | Formatted f => option_map (map ofView) (fc_participants (ft_call f))
  | Raw _ => None
  end.

(** The inner [try] block of [getCall]: the transcript and the call
    updated from it. *)
Definition attachTranscript (w : World) (params : GetCallParams)
    (call : GongCall) : M (GongCall * option TranscriptResult) :=
  transcript ←
    TranscriptService.getFormattedTranscript w (callId params)
      (default concise (transcriptFormat params))
      (default 0%Z (maxSegments params))
      (default 0%Z (maxSentences params));
  let call := setHasTranscript true call in
  let call :=
    match transcriptParticipants transcript with
    | Some ps => setParticipants ps call
    | None => call
    end in
  mret (call, Some transcript).

Definition getCall (w : World) (params : GetCallParams) : M CallWithTranscript :=
  try_catch
    (callResponse ←
       ask (EvGetCall (callId params)) (fun h => w_getCall w h (callId params));
     call ← TranscriptService.defined (cr_call callResponse);
     let call := formatCall call in
     '(call, transcript) ←
       (if default false (includeTranscript params)
        then try_catch (attachTranscript w params call)
                       (fun _ => mret (call, None))
        else mret (call, None));
     mret {| call := call;
             transcript :=
               if default false (includeTranscript params)
               then transcript else None |})
    (fun error => throw error).

Definition optional {A} (key : string) (v : option A) (inj : A -> Value)
    (params : gmap string Value) : gmap string Value :=
  match v with
  | Some a => <[key := inj a]> params
  | None => params
  end.

(** The object [{fromDateTime, toDateTime, limit}] the tool layer passes;
    a missing argument is a missing property. *)
Definition listParams (p : ListCallsParams) : gmap string Value :=
  optional "limit" (lp_limit p) VNum
    (optional "toDateTime" (lp_toDateTime p) VStr
       (optional "fromDateTime" (lp_fromDateTime p) VStr ∅)).

Definition listCalls (request : string -> string -> gmap string Value ->
                                Result (GongApiClient.Response RawCall))
    (params : option ListCallsParams) (fuel : nat)
  : option (Result (list GongCall)) :=
  match GongApiClient.getAllCalls request
          (match params with Some p => listParams p | None => ∅ end) fuel with
  | Some (Ok calls, _) => Some (Ok (map formatCall calls))
  | Some (Throw error, _) => Some (Throw error)
  | None => None
  end.

End CallService.

(** ** The specification's wording, for comparison with the code *)

Module Spec.

(** Normalisation of a directory record as the specification words it:
    [firstName], [lastName], [title] and [created] are empty when missing,
    [emailAddress] falls back to [email], and [active] is false only when
    the record says so. *)
Definition normalized (raw : RawUser) (user : GongUser) : Prop :=
  (ru_firstName raw = None -> u_firstName user = "") /\
  (ru_lastName raw = None -> u_lastName user = "") /\
  (ru_title raw = None -> u_title user = "") /\
  (ru_emailAddress raw = None -> u_emailAddress user = default "" (ru_email raw)) /\
  (u_active user = false <-> ru_active raw = Some false) /\
  (ru_created raw = None -> u_created user = "").

(** The three criteria of [findUsers], each for a supplied (non-empty)
    argument. *)
Definition idMatches (id : option string) (user : GongUser) : Prop :=
  exists i, id = Some i /\ i <> "" /\ u_id user = i.

Definition nameMatches (name : option string) (user : GongUser) : Prop :=
  exists n, name = Some n /\ n <> "" /\
    (JS.includes (JS.toLowerCase (u_firstName user ++ " " ++ u_lastName user))
                 (JS.toLowerCase n) = true \/
     exists token, In token (JS.split " " (JS.toLowerCase n)) /\
       (JS.includes (JS.toLowerCase (u_firstName user)) token = true \/
        JS.includes (JS.toLowerCase (u_lastName user)) token = true)).

Definition emailMatches (email : option string) (user : GongUser) : Prop :=
  exists e, email = Some e /\ e <> "" /\
    JS.includes (JS.toLowerCase (u_emailAddress user)) (JS.toLowerCase e) = true.

(** Inclusive-or matching: whoever meets a supplied criterion is in the
    result. *)
Definition inclusiveOr (name email id : option string)
    (allUsers results : list GongUser) : Prop :=
  forall user, In user allUsers ->
    idMatches id user \/ nameMatches name user \/ emailMatches email user ->
    In user results.

(** The text an exchange carries for a segment: its sentence texts, cut to
    [maxSentences], joined by single spaces. *)
Definition segmentText (maxSentences : Z) (segment : GongTranscriptSegment)
  : string :=
  JS.join " " (map text (JSArray.limit maxSentences (sentences segment))).

(** The chronological text of a transcript under the two limits, one
    string per retained segment. *)
Definition chronologicalTexts (maxSegments maxSentences : Z)
    (transcripts : list GongTranscriptSegment) : list string :=
  map (segmentText maxSentences) (JSArray.limit maxSegments transcripts).

(** The texts of all exchanges, in section order then exchange order. *)
Definition flattenTexts (sections : list TopicSection) : list string :=
  flat_map (fun s => map ex_text (sec_exchanges s)) sections.

(** A second unforced call inside the expiry window repeats the answer of
    the first without a directory fetch. *)
Definition servedFromCache (w : World) (st0 : State) : Prop :=
  forall users st1,
    UserService.getAllUsers w false st0 = (Ok users, st1) ->
    (w_now w (history st1) - lastCacheUpdate st1 < UserService.cacheExpiryMs)%Z ->
    exists st2,
      UserService.getAllUsers w false st1 = (Ok users, st2) /\
      fetches st2 = fetches st1.

(** [findUsers], whenever the directory loads, answers with every user
    that meets one of the supplied criteria. *)
Definition findsInclusively (w : World) (name email id : option string)
    (st : State) : Prop :=
  forall allUsers st',
    UserService.getAllUsers w false st = (Ok allUsers, st') ->
    exists results,
      UserService.findUsers w name email id st = (Ok results, st') /\
      inclusiveOr name email id allUsers results.

(** The grouped output, re-flattened, is the chronological text. *)
Definition reproducesChronology (w : World) (callId : string) (format : Format)
    (maxSegments maxSentences : Z) (st : State) : Prop :=
  forall t st' response,
    TranscriptService.getFormattedTranscript w callId format maxSegments
      maxSentences st = (Ok (Formatted t), st') ->
    w_getTranscripts w (history st ++ [EvGetCall callId]) [callId] = Ok response ->
    flattenTexts (ft_sections t) =
      chronologicalTexts maxSegments maxSentences
        (TranscriptService.transcriptOf response).

End Spec.

(** ** Sample worlds and records *)

Module Sample.

Definition user (id first last email : string) : RawUser :=
  {| ru_id := id; ru_firstName := Some first; ru_lastName := Some last;
     ru_emailAddress := Some email; ru_email := None; ru_title := None;
     ru_role := None; ru_active := None; ru_created := None |}.

(** A directory record that carries a [role] and no [title]. *)
Definition manager : RawUser :=
  {| ru_id := "u7"; ru_firstName := Some "Ann"; ru_lastName := None;
     ru_emailAddress := None; ru_email := Some "ann@example.com";
     ru_title := None; ru_role := Some "Manager"; ru_active := None;
     ru_created := None |}.

(** A deactivated record that carries both a [title] and a [role]. *)
Definition officer : RawUser :=
  {| ru_id := "u9"; ru_firstName := None; ru_lastName := Some "Ito";
     ru_emailAddress := Some "ito@example.com"; ru_email := Some "old@example.com";
     ru_title := Some "CTO"; ru_role := Some "Engineer"; ru_active := Some false;
     ru_created := Some "2020-01-01" |}.

Definition alice : RawUser := user "u1" "Alice" "Ng" "alice@example.com".
Definition bob : RawUser := user "p2" "Bob" "Lee" "bob@example.com".

Definition participant (id name : string) : GongParticipant :=
  {| p_id := Some id; p_name := Some name; p_firstName := None;
     p_lastName := None; p_email := None; p_role := None; p_company := None |}.

Definition rawCall (id : string) (ps : list GongParticipant) : RawCall :=
  {| rc_id := id; rc_title := Some "Weekly sync";
     rc_scheduled := Some "2024-03-01T10:00:00Z"; rc_started := None;
     rc_startTime := None; rc_duration := Some 125%Z; rc_direction := None;
     rc_system := None; rc_scope := None; rc_media := None;
     rc_language := None; rc_url := None; rc_transcript := false;
     rc_participants := Some ps |}.

(** A call record with neither [startTime] nor [scheduled]. *)
Definition undatedCall : RawCall :=
  {| rc_id := "C2"; rc_title := None; rc_scheduled := None; rc_started := None;
     rc_startTime := None; rc_duration := None; rc_direction := None;
     rc_system := None; rc_scope := None; rc_media := None;
     rc_language := None; rc_url := None; rc_transcript := true;
     rc_participants := None |}.

Definition segment (id : string) (t : option string) (ss : list (Z * string))
  : GongTranscriptSegment :=
  {| speakerId := id; topic := t;
     sentences := map (fun p => {| start := fst p; text := snd p |}) ss |}.

(** Code-unit comparison, standing in for the collation. *)
Definition ordinalCompare (a b : string) : Z :=
  match String.compare a b with
  | Lt => (-1)%Z
  | Eq => 0%Z
  | Gt => 1%Z
  end.

(** A world with a fixed clock, directory, call and transcript answer. *)
Definition world (now : Z) (users : Result (list RawUser))
    (c : Result CallResponse) (t : Result TranscriptResponse) : World :=
  {| w_now := fun _ => now;
     w_getCall := fun _ _ => c;
     w_getTranscripts := fun _ _ => t;
     w_getAllUsers := fun _ => users;
     w_localeCompare := ordinalCompare;
     w_toISOString := fun s => if String.eqb s "" then None else Some s |}.

(** The transcript answer in the shape the endpoint documents:
    [{callTranscripts: [{transcript: segments}]}]. *)
Definition documented (segments : list GongTranscriptSegment)
  : TranscriptResponse :=
  {| tr_transcripts := None;
     tr_callTranscripts := Some [ {| ct_transcript := Some segments |} ] |}.

(** An answer that carries the segments in a [transcripts] field. *)
Definition flat (segments : list GongTranscriptSegment) : TranscriptResponse :=
  {| tr_transcripts := Some segments; tr_callTranscripts := None |}.

(** The state of a freshly constructed [UserService]. *)
Definition fresh : State :=
  {| userCache := []; lastCacheUpdate := 0%Z; history := [] |}.

Definition unavailable : Error := UpstreamError "503".

(** The scenario of the specification: Alice takes part in the call, Bob
    is in the directory, and a third speaker is known to neither. *)
Definition scenarioCall : RawCall := rawCall "C1" [participant "p1" "Alice"].

Definition scenarioSegments : list GongTranscriptSegment :=
  [ segment "p1" (Some "Intro") [(0%Z, "Hello.")];
    segment "p2" (Some "Intro") [(4000%Z, "Hi Alice.")];
    segment "zz9" (Some "Pricing") [(65000%Z, "Let us talk price.")] ].

Definition scenario : World :=
  world 1000 (Ok [bob]) (Ok {| cr_call := Some scenarioCall |})
        (Ok (documented scenarioSegments)).

Definition scenarioFlat : World :=
  world 1000 (Ok [bob]) (Ok {| cr_call := Some scenarioCall |})
        (Ok (flat scenarioSegments)).

(** Two topics whose segments alternate. *)
Definition interleaved : list GongTranscriptSegment :=
  [ segment "p1" (Some "A") [(0%Z, "x")];
    segment "p2" (Some "B") [(1000%Z, "y")];
    segment "p1" (Some "A") [(2000%Z, "z")] ].

(** One topic throughout. *)
Definition monologue : list GongTranscriptSegment :=
  [ segment "p1" (Some "Intro") [(0%Z, "Hello."); (1500%Z, "Welcome.")];
    segment "p2" (Some "Intro") [(4000%Z, "Hi.")] ].

(** A world whose transcript endpoint is down. *)
Definition transcriptDown : World :=
  world 1000 (Ok []) (Ok {| cr_call := Some scenarioCall |}) (Throw unavailable).

(** A world whose transcript has one topic. *)
Definition monologueWorld : World :=
  world 1000 (Ok []) (Ok {| cr_call := Some scenarioCall |})
        (Ok (documented monologue)).

(** A world whose call has no date to format. *)
Definition undated : World :=
  world 1000 (Ok []) (Ok {| cr_call := Some undatedCall |})
        (Ok (documented monologue)).

Definition params (id : string) : GetCallParams :=
  {| callId := id; includeTranscript := Some true; transcriptFormat := None;
     maxSegments := None; maxSentences := None |}.

End Sample.

(** ** Servers behind the paginated fetch *)

Module Paging.

Import GongApiClient.

Section Chains.
Context {T : Type}.
Context (request : string -> string -> gmap string Value -> Result (Response T)).
Context (method path : string) (initialParams : gmap string Value).
Context (cursorKey dataKey : string).

(** Asked with [cursor], the server hands out [pages] one after the other:
    each answer but the last carries the cursor of the next. *)
Fixpoint serves (cursor : option Value) (pages : list (list T)) : Prop :=
  match pages with
  | [] => False
  | page :: rest =>
      exists response,
        request method path (pageParams initialParams cursorKey cursor)
          = Ok response /\
        dataArray dataKey response = Ok page /\
        match rest with
        | [] => truthy (nextCursor cursorKey response) = false
        | _ =>
            truthy (nextCursor cursorKey response) = true /\
            serves (nextCursor cursorKey response) rest
        end
  end.

(** The server hands out [pages], each with a cursor, and then fails. *)
Fixpoint failsAfter (cursor : option Value) (pages : list (list T)) (e : Error)
  : Prop :=
  match pages with
  | [] =>
      request method path (pageParams initialParams cursorKey cursor) = Throw e
  | page :: rest =>
      exists response,
        request method path (pageParams initialParams cursorKey cursor)
          = Ok response /\
        dataArray dataKey response = Ok page /\
        truthy (nextCursor cursorKey response) = true /\
        failsAfter (nextCursor cursorKey response) rest e
  end.

End Chains.

(** A page of the calls endpoint, with the cursor of the next page. *)
Definition callsPage (ids : list string) (next : option string)
  : Response RawCall :=
  RObject {[ "calls" := map (fun id => Sample.rawCall id []) ids ]}
          (Some match next with
                | Some c => {[ "cursor" := VStr c ]}
                | None => ∅
                end)
          None.

Definition firstPage : list string := ["c01"; "c02"; "c03"; "c04"; "c05"].
Definition secondPage : list string := ["c06"; "c07"; "c08"; "c09"; "c10"].
Definition thirdPage : list string := ["c11"; "c12"].

(** A catalog of twelve calls in pages of five. *)
Definition catalog (method path : string) (params : gmap string Value)
  : Result (Response RawCall) :=
  match params !! "cursor" with
  | None => Ok (callsPage firstPage (Some "p2"))
  | Some (VStr "p2") => Ok (callsPage secondPage (Some "p3"))
  | Some (VStr "p3") => Ok (callsPage thirdPage None)
  | Some _ => Throw (UpstreamError "400")
  end.

(** The same catalog with its third page out of reach. *)
Definition brokenCatalog (method path : string) (params : gmap string Value)
  : Result (Response RawCall) :=
  match params !! "cursor" with
  | None => Ok (callsPage firstPage (Some "p2"))
  | Some (VStr "p2") => Ok (callsPage secondPage (Some "p3"))
  | Some _ => Throw (UpstreamError "503")
  end.

(** A server that answers every request with the same cursor. *)
Definition looping (method path : string) (params : gmap string Value)
  : Result (Response RawCall) :=
  Ok (callsPage firstPage (Some "again")).

Definition fiveAtATime : ListCallsParams :=
  {| lp_fromDateTime := None; lp_toDateTime := None; lp_limit := Some 5%Z |}.

End Paging.

(** ** Notions for the further properties *)

Module Props.

(** The distinct strings of a list, in the order of their first
    appearance. *)
Definition firstSeen (l : list string) : list string :=
  foldl (fun seen t => if existsb (String.eqb t) seen then seen else (seen ++ [t])%list)
        [] l.

(** [a] may stand before [b] in a list sorted with [compareFn]: the
    comparison does not put [b] strictly first. *)
Definition precedes {A} (compareFn : A -> A -> Z) (a b : A) : Prop :=
  ~ (compareFn b a < 0)%Z.

(** A comparison function whose "strictly before" is a strict order, as
    [Array.prototype.sort] expects of a consistent comparator. *)
Definition strictOrder {A} (compareFn : A -> A -> Z) : Prop :=
  (forall a b c, (compareFn a b < 0)%Z -> (compareFn b c < 0)%Z ->
                 (compareFn a c < 0)%Z) /\
  (forall a, ~ (compareFn a a < 0)%Z).

(** The comparison [sort] is called with in [getFormattedTranscript]. *)
Definition byStart (w : World) (a b : TopicSection) : Z :=
  w_localeCompare w (TranscriptService.sectionStart a)
                    (TranscriptService.sectionStart b).

(** The cache maps every id it holds, once, to a record with that id. *)
Definition cacheKeyed (st : State) : Prop :=
  NoDup (map fst (userCache st)) /\
  Forall (fun kv => u_id (snd kv) = fst kv) (userCache st).

(** The last record of a directory listing that carries the id. *)
Definition lastWithId (id : string) (users : list GongUser) : option GongUser :=
  last (List.filter (fun u => String.eqb (u_id u) id) users).

End Props.

(** ** Properties of the directory cache *)

Section DirectoryCache.

Context (w : World).

Import UserService.

(** Running a request to the environment. *)
Lemma ask_run {A} (ev : Event) (answer : list Event -> Result A) (st : State) :
  ask ev answer st = (answer (history st), record ev st).
Proof. reflexivity. Qed.

(** [getAllUsers] as a function of the clock reading and the directory
    answer it meets. *)
Lemma getAllUsers_unfold (forceRefresh : bool) (st : State) :
  getAllUsers w forceRefresh st =
    let now := w_now w (history st) in
    if negb forceRefresh && (0 <? JSMap.size (userCache st))%Z &&
       (now - lastCacheUpdate st <? cacheExpiryMs)%Z
    then (Ok (JSMap.values (userCache st)), record EvNow st)
    else match w_getAllUsers w (history st ++ [EvNow]) with
         | Ok rawUsers =>
             (Ok (map processUser rawUsers),
              {| userCache := refill (map processUser rawUsers);
                 lastCacheUpdate := now;
                 history := history st ++ [EvNow; EvGetAllUsers] |})
         | Throw e => (Throw e, record EvGetAllUsers (record EvNow st))
         end.
Proof.
  unfold getAllUsers, mbind, M_bind, gets, modify, mret, M_ret.
  rewrite ask_run. cbn [record userCache lastCacheUpdate history].
  destruct (negb forceRefresh && _ && _); [reflexivity |].
  rewrite ask_run. cbn [record userCache lastCacheUpdate history].
  destruct (w_getAllUsers w _); cbn; [| reflexivity].
  by rewrite <- app_assoc.
Qed.

Lemma fetches_record_now (st : State) : fetches (record EvNow st) = fetches st.
Proof.
  unfold fetches, record; cbn. rewrite List.filter_app, length_app; cbn. lia.
Qed.

Lemma fetches_record_fetch (st : State) :
  fetches (record EvGetAllUsers st) = S (fetches st).
Proof.
  unfold fetches, record; cbn. rewrite List.filter_app, length_app; cbn. lia.
Qed.

Lemma size_pos_nonempty {V} (m : list (string * V)) :
  (0 <? JSMap.size m)%Z = true <-> m <> [].
Proof.
  unfold JSMap.size. destruct m; cbn; split; intros; try done; lia.
Qed.

(** A [set] on a key the map does not hold appends the binding. *)
Lemma set_fresh {V} (k : string) (v : V) (m : list (string * V)) :
  ~ In k (map fst m) -> JSMap.set k v m = (m ++ [(k, v)])%list.
Proof.
  induction m as [| [k' v'] m IH]; cbn; intros Hk; [reflexivity |].
  destruct (String.eqb_spec k' k) as [-> | Hne]; [tauto |].
  rewrite IH; [reflexivity | tauto].
Qed.

Lemma refill_from_nodup (acc : list (string * GongUser)) (users : list GongUser) :
  NoDup (map fst acc ++ map u_id users) ->
  foldl (fun m user => JSMap.set (u_id user) user m) acc users =
    (acc ++ map (fun user => (u_id user, user)) users)%list.
Proof.
  revert acc. induction users as [| u users IH]; intros acc Hnd; cbn.
  - by rewrite app_nil_r.
  - rewrite set_fresh.
    + rewrite IH.
      * by rewrite <- app_assoc.
      * rewrite map_app; cbn. rewrite <- app_assoc. exact Hnd.
    + apply NoDup_app in Hnd as (_ & Hdisj & _).
      intros Hin. apply (Hdisj (u_id u)).
      * by apply list_elem_of_In.
      * left.
Qed.

(** With pairwise distinct ids the cache holds the users as fetched. *)
Lemma values_refill (users : list GongUser) :
  NoDup (map u_id users) -> JSMap.values (refill users) = users.
Proof.
  intros Hnd. unfold refill. rewrite refill_from_nodup by exact Hnd.
  cbn. unfold JSMap.values. rewrite map_map; cbn. apply map_id.
Qed.

Lemma set_nonempty {V} (k : string) (v : V) (m : list (string * V)) :
  JSMap.set k v m <> [].
Proof.
  destruct m as [| [k' v'] m]; cbn; [done |].
  by destruct (String.eqb k' k).
Qed.

Lemma refill_nonempty (users : list GongUser) :
  users <> [] -> refill users <> [].
Proof.
  unfold refill. destruct users as [| u users]; [done |]. intros _.
  cbn [foldl]. generalize (set_nonempty (u_id u) u []).
  generalize (JSMap.set (u_id u) u []).
  induction users as [| u' users IH]; intros acc Hacc; cbn; [done |].
  apply IH, set_nonempty.
Qed.

End DirectoryCache.

(** ** Normalisation of directory records *)

(** C7, as worded, fails: a record without [title] but with [role] gets the
    role as its title, not the empty string. *)
Lemma processUser_title_from_role :
  ~ Spec.normalized Sample.manager (UserService.processUser Sample.manager).
Proof.
  intros (_ & _ & Htitle & _). specialize (Htitle eq_refl). discriminate Htitle.
Qed.

(** C7 (amended): [processUser] keeps the id; [firstName], [lastName] and
    [created] are the raw fields, empty when missing; [title] is the raw
    title when non-empty, else the raw [role], else empty; [emailAddress] is
    the raw address when non-empty, else the raw [email], else empty; and
    [active] is false exactly when the raw field is [false]. *)
Theorem processUser_normalizes (raw : RawUser) :
  let user := UserService.processUser raw in
  u_id user = ru_id raw /\
  u_firstName user = default "" (ru_firstName raw) /\
  u_lastName user = default "" (ru_lastName raw) /\
  u_created user = default "" (ru_created raw) /\
  (forall t, ru_title raw = Some t -> t <> "" -> u_title user = t) /\
  (JS.truthy (ru_title raw) = false -> u_title user = default "" (ru_role raw)) /\
  (forall e, ru_emailAddress raw = Some e -> e <> "" -> u_emailAddress user = e) /\
  (JS.truthy (ru_emailAddress raw) = false ->
     u_emailAddress user = default "" (ru_email raw)) /\
  (u_active user = false <-> ru_active raw = Some false).
Proof.
  assert (Hor : forall o, JS.or_else o "" = default "" o).
  { intros [s |]; cbn; [| reflexivity]. by destruct (String.eqb_spec s ""). }
  destruct raw as [id fn ln ea em ti ro ac cr]; cbn.
  repeat split; try apply Hor.
  - intros t -> Ht. unfold JS.or_opt; cbn.
    destruct (String.eqb_spec t ""); [done |]. cbn.
    by destruct (String.eqb_spec t "").
  - intros Hf. unfold JS.or_opt. rewrite Hf. apply Hor.
  - intros e -> He. unfold JS.or_opt; cbn.
    destruct (String.eqb_spec e ""); [done |]. cbn.
    by destruct (String.eqb_spec e "").
  - intros Hf. unfold JS.or_opt. rewrite Hf. apply Hor.
  - by destruct ac as [[] |].
  - by intros ->.
Qed.

Lemma processUser_normalizes_witness :
  u_title (UserService.processUser Sample.manager) = "Manager" /\
  u_emailAddress (UserService.processUser Sample.manager) = "ann@example.com" /\
  u_title (UserService.processUser Sample.officer) = "CTO" /\
  u_emailAddress (UserService.processUser Sample.officer) = "ito@example.com" /\
  u_active (UserService.processUser Sample.officer) = false.
Proof.
  destruct (processUser_normalizes Sample.manager)
    as (_ & _ & _ & _ & _ & Hrole & _ & Hemail & _).
  destruct (processUser_normalizes Sample.officer)
    as (_ & _ & _ & _ & Htitle & _ & Haddress & _ & Hactive).
  split; [apply Hrole; reflexivity |].
  split; [apply Hemail; reflexivity |].
  split; [apply Htitle; [reflexivity | discriminate] |].
  split; [apply Haddress; [reflexivity | discriminate] |].
  apply Hactive. reflexivity.
Defined.

(** ** The cache policy of [getAllUsers] *)

(** C6, as worded, fails: after a refresh that stored no user, a second
    call inside the expiry window fetches the directory again. *)
Lemma empty_snapshot_refetched :
  ~ Spec.servedFromCache
      (Sample.world 1000 (Ok []) (Throw Sample.unavailable)
                    (Throw Sample.unavailable))
      Sample.fresh.
Proof.
  intros H. specialize (H [] _ eq_refl).
  destruct H as (st2 & Hrun & Hfetches); [reflexivity |].
  vm_compute in Hrun. injection Hrun as <-. vm_compute in Hfetches.
  discriminate Hfetches.
Qed.

(** C6 (amended): after a call of [getAllUsers] that returned a non-empty
    list, a second unforced call inside the expiry window returns the cached
    snapshot, which is the first answer when the ids are pairwise distinct,
    asks the accessor nothing and leaves the cache and its timestamp alone;
    a call after expiry or with [forceRefresh] asks the accessor exactly
    once and, when that fetch succeeds, returns the normalised records,
    replaces the cache by them and records the clock reading taken at the
    start of the call. *)
Theorem getAllUsers_cache_policy (w : World) (st0 st1 : State)
    (users : list GongUser) (first : bool) :
  UserService.getAllUsers w first st0 = (Ok users, st1) ->
  (users <> [] ->
   (w_now w (history st1) - lastCacheUpdate st1 < 3600000)%Z ->
   exists st2,
     UserService.getAllUsers w false st1 = (Ok (JSMap.values (userCache st1)), st2) /\
     (NoDup (map u_id users) -> JSMap.values (userCache st1) = users) /\
     fetches st2 = fetches st1 /\
     userCache st2 = userCache st1 /\
     lastCacheUpdate st2 = lastCacheUpdate st1) /\
  (forall forceRefresh,
     forceRefresh = true \/
     (3600000 <= w_now w (history st1) - lastCacheUpdate st1)%Z ->
     exists r st2,
       UserService.getAllUsers w forceRefresh st1 = (r, st2) /\
       fetches st2 = S (fetches st1) /\
       forall rawUsers,
         w_getAllUsers w (history st1 ++ [EvNow]) = Ok rawUsers ->
         r = Ok (map UserService.processUser rawUsers) /\
         userCache st2 = UserService.refill (map UserService.processUser rawUsers) /\
         lastCacheUpdate st2 = w_now w (history st1)).
Proof.
  intros Hfirst. split.
  - intros Hne Hfresh.
    assert (Hcache : userCache st1 <> [] /\
                     (NoDup (map u_id users) -> JSMap.values (userCache st1) = users)).
    { rewrite getAllUsers_unfold in Hfirst. cbv zeta in Hfirst.
      destruct (negb first && _ && _) eqn:Hc.
      - injection Hfirst as <- <-. cbn. split; [| done].
        apply andb_prop in Hc as [Hc _]. apply andb_prop in Hc as [_ Hc].
        by apply size_pos_nonempty in Hc.
      - destruct (w_getAllUsers w _) as [rawUsers | e]; [| discriminate].
        injection Hfirst as <- <-. cbn. split.
        + by apply refill_nonempty.
        + apply values_refill. }
    destruct Hcache as [Hcache Hsame].
    rewrite getAllUsers_unfold. cbv zeta. cbn [negb andb].
    apply size_pos_nonempty in Hcache. rewrite Hcache. cbn [andb].
    replace (_ <? _)%Z with true
      by (symmetry; apply Z.ltb_lt; unfold UserService.cacheExpiryMs; lia).
    eexists. split; [reflexivity |]. split; [exact Hsame |].
    split; [apply fetches_record_now | split; reflexivity].
  - intros forceRefresh Hwhy.
    rewrite getAllUsers_unfold. cbv zeta.
    replace (negb forceRefresh && _ && _) with false.
    + destruct (w_getAllUsers w _) as [rawUsers | e].
      * eexists _, _. split; [reflexivity |]. split.
        -- unfold fetches; cbn.
           rewrite List.filter_app, length_app; cbn. lia.
        -- intros ? [= <-]. cbn. done.
      * eexists _, _. split; [reflexivity |]. split.
        -- by rewrite fetches_record_fetch, fetches_record_now.
        -- intros ? [=].
    + symmetry. destruct Hwhy as [-> | Hold]; [reflexivity |].
      apply andb_false_intro2, Z.ltb_ge. unfold UserService.cacheExpiryMs. lia.
Qed.

Lemma getAllUsers_cache_policy_witness :
  let w := Sample.world 1000 (Ok [Sample.alice; Sample.bob])
             (Throw Sample.unavailable) (Throw Sample.unavailable) in
  let users := map UserService.processUser [Sample.alice; Sample.bob] in
  let st1 := snd (UserService.getAllUsers w false Sample.fresh) in
  (exists st2,
     UserService.getAllUsers w false st1 = (Ok users, st2) /\
     fetches st2 = 1%nat) /\
  (exists st2,
     UserService.getAllUsers w true st1 = (Ok users, st2) /\
     fetches st2 = 2%nat /\ lastCacheUpdate st2 = 1000%Z).
Proof.
  intros w users st1.
  destruct (getAllUsers_cache_policy w Sample.fresh st1 users false eq_refl)
    as [Hhit Hmiss].
  split.
  - destruct Hhit as (st2 & Hrun & Hsame & Hfetches & _ & _);
      [discriminate | reflexivity |].
    exists st2. split.
    + rewrite Hrun, Hsame; [reflexivity |].
      by apply (bool_decide_unpack _).
    + rewrite Hfetches. reflexivity.
  - destruct (Hmiss true (or_introl eq_refl)) as (r & st2 & Hrun & Hfetches & Hok).
    destruct (Hok [Sample.alice; Sample.bob] eq_refl) as (-> & _ & Hstamp).
    exists st2. split; [exact Hrun |]. split.
    + rewrite Hfetches. reflexivity.
    + rewrite Hstamp. reflexivity.
Defined.

(** C10: a call of [getAllUsers] that returns an empty directory leaves the
    cache empty, and from any state with an empty cache an unforced call,
    whatever the clock reads, asks the accessor for the directory again and
    answers with what that fetch gives: an empty snapshot is never served. *)
Theorem empty_directory_never_served (w : World) :
  (forall first st0 st1,
     UserService.getAllUsers w first st0 = (Ok [], st1) -> userCache st1 = []) /\
  (forall st,
     userCache st = [] ->
     exists r st',
       UserService.getAllUsers w false st = (r, st') /\
       history st' = (history st ++ [EvNow; EvGetAllUsers])%list /\
       fetches st' = S (fetches st) /\
       r = match w_getAllUsers w (history st ++ [EvNow]) with
           | Ok rawUsers => Ok (map UserService.processUser rawUsers)
           | Throw e => Throw e
           end).
Proof.
  split.
  - intros first st0 st1 Hfirst.
    rewrite getAllUsers_unfold in Hfirst. cbv zeta in Hfirst.
    destruct (negb first && _ && _) eqn:Hc.
    + injection Hfirst as Hvals <-. cbn.
      unfold JSMap.values in Hvals. by apply map_eq_nil in Hvals.
    + destruct (w_getAllUsers w _) as [rawUsers | e]; [| discriminate].
      injection Hfirst as Hmap <-. apply map_eq_nil in Hmap as ->. reflexivity.
  - intros st Hempty.
    rewrite getAllUsers_unfold. cbv zeta. rewrite Hempty.
    cbn [negb andb JSMap.size length Z.of_nat Z.ltb Z.compare].
    destruct (w_getAllUsers w _) as [rawUsers | e]; eexists _, _;
      (split; [reflexivity |]).
    + cbn [history]. split; [reflexivity |]. split; [| reflexivity].
      unfold fetches; cbn. rewrite List.filter_app, length_app; cbn.
      apply Nat.add_1_r.
    + split; [| split; [| reflexivity]].
      * cbn [history record]. by rewrite <- app_assoc.
      * by rewrite fetches_record_fetch, fetches_record_now.
Qed.

Lemma empty_directory_never_served_witness :
  let w := Sample.world 1000 (Ok []) (Throw Sample.unavailable)
             (Throw Sample.unavailable) in
  let st1 := snd (UserService.getAllUsers w false Sample.fresh) in
  (w_now w (history st1) - lastCacheUpdate st1 < 3600000)%Z /\
  fetches st1 = 1%nat /\
  fetches (snd (UserService.getAllUsers w false st1)) = 2%nat.
Proof.
  intros w st1. split; [reflexivity |]. split; [reflexivity |].
  destruct (empty_directory_never_served w) as [Hstored Hrefetch].
  destruct (Hrefetch st1 (Hstored false Sample.fresh st1 eq_refl))
    as (r & st2 & Hrun & _ & Hfetches & _).
  rewrite Hrun. cbn [snd]. rewrite Hfetches. reflexivity.
Defined.

(** ** Matching in [findUsers] *)

Lemma includes_empty_hay (needle : string) :
  JS.includes "" needle = true -> needle = "".
Proof. destruct needle; cbn; [reflexivity | discriminate]. Qed.

Lemma toLowerCase_empty (s : string) : JS.toLowerCase s = "" -> s = "".
Proof. destruct s; cbn; [reflexivity | discriminate]. Qed.

Lemma truthy_some (s : string) : s <> "" -> JS.truthy (Some s) = true.
Proof. intros Hs. cbn. by destruct (String.eqb_spec s ""). Qed.

(** The filter callback accepts whoever meets the id test, the name test,
    or, when no name is supplied, the email test. *)
Lemma matchesUser_complete (name email id : option string) (user : GongUser) :
  Spec.idMatches id user \/ Spec.nameMatches name user \/
  (JS.truthy name = false /\ Spec.emailMatches email user) ->
  UserService.matchesUser name email id user = true.
Proof.
  unfold UserService.matchesUser.
  intros [(i & -> & Hi & Hid) | [(n & -> & Hn & Hname) | (Hnone & e & -> & He & Hmail)]].
  - rewrite (truthy_some i Hi). change (JS.get (Some i)) with i. cbn [andb].
    by rewrite Hid, String.eqb_refl.
  - destruct (JS.truthy id && _); [reflexivity |].
    rewrite (truthy_some n Hn). change (JS.get (Some n)) with n.
    unfold UserService.nameMatches. cbv zeta.
    destruct Hname as [Hfull | (token & Hin & Htoken)].
    { by rewrite Hfull. }
    destruct (JS.includes (JS.toLowerCase (_ ++ _)) _); [reflexivity |].
    apply existsb_exists. exists token. split; [exact Hin |].
    apply orb_true_iff. exact Htoken.
  - destruct (JS.truthy id && _); [reflexivity |].
    rewrite Hnone, (truthy_some e He). change (JS.get (Some e)) with e.
    cbn [andb]. rewrite Hmail.
    destruct (String.eqb_spec (u_emailAddress user) "") as [Hempty |]; [| reflexivity].
    rewrite Hempty in Hmail. cbn [JS.toLowerCase] in Hmail.
    apply includes_empty_hay, toLowerCase_empty in Hmail. contradiction.
Qed.

(** The short-circuit that the specification documents: an id found in
    the cache answers with that user alone, whatever the supplied name
    matches. *)
Lemma findUsers_id_hit_excludes_name_match :
  ~ Spec.findsInclusively
      (Sample.world 1000 (Ok [Sample.alice; Sample.bob])
                    (Throw Sample.unavailable) (Throw Sample.unavailable))
      (Some "bob") None (Some "u1") Sample.fresh.
Proof.
  intros H. destruct (H _ _ eq_refl) as (results & Hrun & Hincl).
  vm_compute in Hrun. injection Hrun as <-.
  specialize (Hincl (UserService.processUser Sample.bob)).
  destruct Hincl as [Habs | []].
  - right. left. reflexivity.
  - right. left. exists "bob". split; [reflexivity |]. split; [discriminate |].
    left. reflexivity.
  - discriminate Habs.
Qed.

(** Once a name is supplied, the filter callback answers with the outcome
    of the name test for every user whose id is not the supplied one: the
    email has no say. *)
Lemma matchesUser_name_decides (name email id : option string) (user : GongUser) :
  JS.truthy name = true ->
  JS.truthy id && String.eqb (u_id user) (JS.get id) = false ->
  UserService.matchesUser name email id user =
    UserService.nameMatches (JS.get name) user.
Proof. intros Hname Hid. unfold UserService.matchesUser. by rewrite Hid, Hname. Qed.

(** C3: the code does not match inclusively.  With no id supplied, so that
    the documented short-circuit plays no part, a supplied name that does
    not match a user keeps the email test from running for that user: the
    filter callback returns the outcome of the name test, and the email
    test that follows it is out of reach.  On a directory of Alice and Bob,
    [findUsers("zed", "bob@")] answers with nobody although "bob@" is within
    Bob's address, while the same search without the name finds Bob; so
    [findUsers] does not include every user whom a supplied criterion
    matches. *)
Theorem findUsers_name_shadows_email :
  let w := Sample.world 1000 (Ok [Sample.alice; Sample.bob])
             (Throw Sample.unavailable) (Throw Sample.unavailable) in
  let bob := UserService.processUser Sample.bob in
  fst (UserService.getAllUsers w false Sample.fresh) =
    Ok [UserService.processUser Sample.alice; bob] /\
  Spec.emailMatches (Some "bob@") bob /\
  fst (UserService.findUsers w (Some "zed") (Some "bob@") None Sample.fresh) = Ok [] /\
  fst (UserService.findUsers w None (Some "bob@") None Sample.fresh) = Ok [bob] /\
  ~ Spec.findsInclusively w (Some "zed") (Some "bob@") None Sample.fresh.
Proof.
  intros w bob.
  assert (Hmail : Spec.emailMatches (Some "bob@") bob).
  { exists "bob@". split; [reflexivity |]. split; [discriminate | reflexivity]. }
  split; [reflexivity |]. split; [exact Hmail |].
  split; [reflexivity |]. split; [reflexivity |].
  intros H. destruct (H _ _ eq_refl) as (results & Hrun & Hincl).
  vm_compute in Hrun. injection Hrun as <-.
  destruct (Hincl bob) as [].
  - right. left. reflexivity.
  - right. right. exact Hmail.
Qed.

(** What [findUsers] does include: once the directory is loaded, an id
    that is supplied and found in the cache answers with exactly that user;
    otherwise the answer holds every loaded user whose id is the supplied
    id, or whom the supplied name matches (as a substring of the full name,
    or by one of its space-separated tokens being a substring of the first
    or last name, case-insensitively), or, when no name is supplied, whose
    email address contains the supplied email case-insensitively. *)
Lemma findUsers_matching (w : World) (name email id : option string)
    (st st' : State) (allUsers : list GongUser) :
  UserService.getAllUsers w false st = (Ok allUsers, st') ->
  (forall user,
     JS.truthy id = true ->
     JSMap.get (JS.get id) (userCache st') = Some user ->
     UserService.findUsers w name email id st = (Ok [user], st')) /\
  (JS.truthy id = false \/ JSMap.get (JS.get id) (userCache st') = None ->
   exists results,
     UserService.findUsers w name email id st = (Ok results, st') /\
     forall user, In user allUsers ->
       Spec.idMatches id user \/ Spec.nameMatches name user \/
       (JS.truthy name = false /\ Spec.emailMatches email user) ->
       In user results).
Proof.
  intros Hload. unfold UserService.findUsers, mbind, M_bind.
  rewrite Hload. cbn [gets]. split.
  - intros user -> ->. reflexivity.
  - intros Hmiss.
    exists (List.filter (UserService.matchesUser name email id) allUsers).
    split.
    + destruct Hmiss as [-> | Hnone]; [reflexivity |].
      destruct (JS.truthy id); [by rewrite Hnone | reflexivity].
    + intros user Hin Hcrit. apply filter_In. split; [exact Hin |].
      by apply matchesUser_complete.
Qed.

Lemma findUsers_matching_witness :
  let w := Sample.world 1000 (Ok [Sample.alice; Sample.bob])
             (Throw Sample.unavailable) (Throw Sample.unavailable) in
  fst (UserService.findUsers w None None (Some "p2") Sample.fresh) =
    Ok [UserService.processUser Sample.bob] /\
  exists results,
    fst (UserService.findUsers w (Some "LEE") (Some "alice@") (Some "none") Sample.fresh)
      = Ok results /\
    In (UserService.processUser Sample.bob) results.
Proof.
  intros w.
  pose proof (findUsers_matching w None None (Some "p2") Sample.fresh _ _ eq_refl)
    as [Hhit _].
  pose proof (findUsers_matching w (Some "LEE") (Some "alice@") (Some "none")
                Sample.fresh _ _ eq_refl) as [_ Hscan].
  split.
  - rewrite (Hhit (UserService.processUser Sample.bob) eq_refl eq_refl).
    reflexivity.
  - destruct Hscan as (results & Hrun & Hincl); [right; reflexivity |].
    exists results. split; [by rewrite Hrun |].
    apply Hincl.
    + right. left. reflexivity.
    + right. left. exists "LEE". split; [reflexivity |].
      split; [discriminate | left; reflexivity].
Defined.

(** ** The speaker resolver *)

Section SpeakerResolver.

Context (w : World).

Import UserService.

(** Steps 2 to 6 as a function of the two answers they meet. *)
Lemma resolveSpeakers_unfold (callId : string) (callDetails : option RawCall)
    (st : State) :
  resolveSpeakers w callId callDetails st =
    match w_getTranscripts w (history st) [callId] with
    | Throw e => (Throw e, record (EvGetTranscripts [callId]) st)
    | Ok transcriptResponse =>
        match getAllUsers w false (record (EvGetTranscripts [callId]) st) with
        | (Throw e, st') => (Throw e, st')
        | (Ok allUsers, st') =>
            (Ok (mergeSpeakers
                   (seedParticipants (participantsOf callDetails))
                   (collectSpeakerIds
                      (default [] (tr_transcripts transcriptResponse)))
                   (userCache st') allUsers),
             st')
        end
    end.
Proof.
  unfold resolveSpeakers, mbind, M_bind, mret, M_ret, gets.
  rewrite ask_run.
  destruct (w_getTranscripts w _ _) as [resp | e]; [| reflexivity].
  destruct (getAllUsers w false _) as [[allUsers | e] st']; reflexivity.
Qed.

(** The state in which steps 2 to 6 run. *)
Lemma getSpeakerMap_body_unfold (callId : string) (callDetails : option RawCall)
    (st : State) :
  getSpeakerMap_body w callId callDetails st =
    match callDetails with
    | Some c => resolveSpeakers w callId (Some c) st
    | None =>
        match w_getCall w (history st) callId with
        | Throw e => (Throw e, record (EvGetCall callId) st)
        | Ok callResponse =>
            resolveSpeakers w callId (cr_call callResponse)
                            (record (EvGetCall callId) st)
        end
    end.
Proof.
  unfold getSpeakerMap_body, fetchCallDetails, mbind, M_bind, mret, M_ret.
  destruct callDetails as [c |]; [reflexivity |].
  rewrite ask_run. destruct (w_getCall w _ _); reflexivity.
Qed.

Lemma getSpeakerMap_unfold (callId : string) (callDetails : option RawCall)
    (st : State) :
  getSpeakerMap w callId callDetails st =
    match getSpeakerMap_body w callId callDetails st with
    | (Ok speakerMap, st') => (Ok speakerMap, st')
    | (Throw _, st') => (Ok ∅, st')
    end.
Proof. reflexivity. Qed.

(** [getAllUsers] throws only what the accessor throws. *)
Lemma getAllUsers_throws (forceRefresh : bool) (st st' : State) (e : Error) :
  getAllUsers w forceRefresh st = (Throw e, st') ->
  w_getAllUsers w (history st ++ [EvNow]) = Throw e.
Proof.
  rewrite getAllUsers_unfold. cbv zeta.
  destruct (negb forceRefresh && _ && _); [discriminate |].
  destruct (w_getAllUsers w _); [discriminate |]. by intros [= -> _].
Qed.

End SpeakerResolver.

(** C2: [getSpeakerMap] returns a map from every state and for every
    world; whenever its [try] block throws, the map is empty; and the block
    throws, so the map is empty, when the call fetch fails (no details
    given), when the transcript fetch fails, and when the directory load
    fails. *)
Theorem getSpeakerMap_never_throws (w : World) (callId : string)
    (callDetails : option RawCall) (st : State) :
  (exists speakerMap st',
     UserService.getSpeakerMap w callId callDetails st = (Ok speakerMap, st')) /\
  (forall e st',
     UserService.getSpeakerMap_body w callId callDetails st = (Throw e, st') ->
     UserService.getSpeakerMap w callId callDetails st = (Ok ∅, st')) /\
  (forall e,
     callDetails = None ->
     w_getCall w (history st) callId = Throw e ->
     UserService.getSpeakerMap w callId callDetails st =
       (Ok ∅, record (EvGetCall callId) st)) /\
  (forall e details st1,
     UserService.fetchCallDetails w callId callDetails st = (Ok details, st1) ->
     w_getTranscripts w (history st1) [callId] = Throw e ->
     UserService.getSpeakerMap w callId callDetails st =
       (Ok ∅, record (EvGetTranscripts [callId]) st1)) /\
  (forall e details st1 transcriptResponse st2,
     UserService.fetchCallDetails w callId callDetails st = (Ok details, st1) ->
     w_getTranscripts w (history st1) [callId] = Ok transcriptResponse ->
     UserService.getAllUsers w false (record (EvGetTranscripts [callId]) st1) =
       (Throw e, st2) ->
     UserService.getSpeakerMap w callId callDetails st = (Ok ∅, st2)).
Proof.
  split; [| split; [| split; [| split]]].
  - rewrite getSpeakerMap_unfold.
    destruct (UserService.getSpeakerMap_body w callId callDetails st)
      as [[speakerMap | e] st']; eauto.
  - intros e st' Hbody. by rewrite getSpeakerMap_unfold, Hbody.
  - intros e -> Hcall.
    by rewrite getSpeakerMap_unfold, getSpeakerMap_body_unfold, Hcall.
  - intros e details st1 Hdetails Htranscripts.
    rewrite getSpeakerMap_unfold. unfold UserService.getSpeakerMap_body.
    unfold mbind at 1, M_bind at 1. rewrite Hdetails.
    by rewrite resolveSpeakers_unfold, Htranscripts.
  - intros e details st1 transcriptResponse st2 Hdetails Htranscripts Husers.
    rewrite getSpeakerMap_unfold. unfold UserService.getSpeakerMap_body.
    unfold mbind at 1, M_bind at 1. rewrite Hdetails.
    by rewrite resolveSpeakers_unfold, Htranscripts, Husers.
Qed.

Lemma getSpeakerMap_never_throws_witness :
  fst (UserService.getSpeakerMap
         (Sample.world 1000 (Ok [Sample.bob]) (Throw Sample.unavailable)
                       (Ok (Sample.flat Sample.scenarioSegments)))
         "C1" None Sample.fresh) = Ok ∅ /\
  fst (UserService.getSpeakerMap
         (Sample.world 1000 (Ok [Sample.bob])
                       (Ok {| cr_call := Some Sample.scenarioCall |})
                       (Throw Sample.unavailable))
         "C1" None Sample.fresh) = Ok ∅ /\
  fst (UserService.getSpeakerMap
         (Sample.world 1000 (Throw Sample.unavailable)
                       (Ok {| cr_call := Some Sample.scenarioCall |})
                       (Ok (Sample.flat Sample.scenarioSegments)))
         "C1" (Some Sample.scenarioCall) Sample.fresh) = Ok ∅ /\
  UserService.getSpeakerMap
    (Sample.world 1000 (Ok [Sample.bob]) (Throw Sample.unavailable)
                  (Ok (Sample.flat Sample.scenarioSegments)))
    "C1" None Sample.fresh = (Ok ∅, record (EvGetCall "C1") Sample.fresh).
Proof.
  split; [| split; [| split]].
  - destruct (getSpeakerMap_never_throws
                (Sample.world 1000 (Ok [Sample.bob]) (Throw Sample.unavailable)
                              (Ok (Sample.flat Sample.scenarioSegments)))
                "C1" None Sample.fresh) as (_ & _ & Hcall & _).
    by rewrite (Hcall Sample.unavailable eq_refl eq_refl).
  - destruct (getSpeakerMap_never_throws
                (Sample.world 1000 (Ok [Sample.bob])
                              (Ok {| cr_call := Some Sample.scenarioCall |})
                              (Throw Sample.unavailable))
                "C1" None Sample.fresh) as (_ & _ & _ & Htranscripts & _).
    by rewrite (Htranscripts Sample.unavailable _ _ eq_refl eq_refl).
  - destruct (getSpeakerMap_never_throws
                (Sample.world 1000 (Throw Sample.unavailable)
                              (Ok {| cr_call := Some Sample.scenarioCall |})
                              (Ok (Sample.flat Sample.scenarioSegments)))
                "C1" (Some Sample.scenarioCall) Sample.fresh)
      as (_ & Hbody & _ & _ & Husers).
    by rewrite (Husers Sample.unavailable _ _ _ _ eq_refl eq_refl eq_refl).
  - destruct (getSpeakerMap_never_throws
                (Sample.world 1000 (Ok [Sample.bob]) (Throw Sample.unavailable)
                              (Ok (Sample.flat Sample.scenarioSegments)))
                "C1" None Sample.fresh) as (_ & Hbody & _).
    exact (Hbody Sample.unavailable _ eq_refl).
Defined.

(** *** What the resolver covers *)

Section SpeakerCoverage.

Import UserService.

Lemma addSpeakerId_keeps (segments : list GongTranscriptSegment)
    (acc : list string) (id : string) :
  In id acc -> In id (foldl addSpeakerId acc segments).
Proof.
  revert acc. induction segments as [| s segments IH]; intros acc Hin; cbn;
    [exact Hin |].
  apply IH. unfold addSpeakerId. destruct (negb _); [| exact Hin].
  destruct (existsb _ _); [exact Hin |]. apply in_or_app. by left.
Qed.

Lemma addSpeakerId_complete (segments : list GongTranscriptSegment)
    (acc : list string) (segment : GongTranscriptSegment) :
  In segment segments -> speakerId segment <> "" ->
  In (speakerId segment) (foldl addSpeakerId acc segments).
Proof.
  revert acc.
  induction segments as [| s segments IH]; intros acc Hin Hid; [destruct Hin |].
  cbn [foldl]. destruct Hin as [-> | Hin]; [| by apply IH].
  apply addSpeakerId_keeps. unfold addSpeakerId.
  destruct (String.eqb_spec (speakerId segment) "") as [| _]; [done |].
  cbn [negb]. destruct (existsb _ acc) eqn:Hex.
  - apply existsb_exists in Hex as (x & Hx & Heq).
    apply String.eqb_eq in Heq as ->. exact Hx.
  - apply in_or_app. right. by left.
Qed.

(** Every non-empty speaker id of the segments read is collected. *)
Lemma collectSpeakerIds_complete (segments : list GongTranscriptSegment)
    (segment : GongTranscriptSegment) :
  In segment segments -> speakerId segment <> "" ->
  In (speakerId segment) (collectSpeakerIds segments).
Proof. apply addSpeakerId_complete. Qed.

Lemma addPlaceholders_keeps (speakerIds : list string) (speakerMap : SpeakerMap)
    (k : string) (speaker : GongSpeaker) :
  speakerMap !! k = Some speaker ->
  addPlaceholders speakerIds speakerMap !! k = Some speaker.
Proof.
  unfold addPlaceholders. revert speakerMap.
  induction speakerIds as [| id speakerIds IH]; intros speakerMap Hk; cbn;
    [exact Hk |].
  apply IH. destruct (speakerMap !! id) eqn:Hid; [exact Hk |].
  rewrite lookup_insert_ne; [exact Hk |]. intros ->. congruence.
Qed.

(** Step 6 gives every collected id an entry, the placeholder when it had
    none. *)
Lemma addPlaceholders_fills (speakerIds : list string) (speakerMap : SpeakerMap)
    (id : string) :
  In id speakerIds ->
  addPlaceholders speakerIds speakerMap !! id =
    Some (default (placeholder id) (speakerMap !! id)).
Proof.
  unfold addPlaceholders. revert speakerMap.
  induction speakerIds as [| id' speakerIds IH]; intros speakerMap Hin;
    [destruct Hin |].
  cbn [foldl]. destruct (String.eqb_spec id' id) as [-> | Hne].
  - destruct (speakerMap !! id) as [speaker |] eqn:Hid.
    + by apply (addPlaceholders_keeps speakerIds).
    + apply (addPlaceholders_keeps speakerIds). apply lookup_insert_eq.
  - destruct Hin as [-> | Hin]; [done |].
    rewrite IH by exact Hin.
    destruct (speakerMap !! id'); [reflexivity |].
    by rewrite lookup_insert_ne.
Qed.

(** Step 5 changes only entries of missing ids that the directory knows. *)
Lemma fillFromDirectory_other (cache : list (string * GongUser))
    (userMap : SpeakerMap) (missingIds : list string) (speakerMap : SpeakerMap)
    (k : string) :
  (In k missingIds -> JSMap.get k cache = None /\ userMap !! k = None) ->
  fillFromDirectory cache userMap missingIds speakerMap !! k = speakerMap !! k.
Proof.
  unfold fillFromDirectory. revert speakerMap.
  induction missingIds as [| id missingIds IH]; intros speakerMap Hk;
    [reflexivity |].
  cbn [foldl]. rewrite IH by (intros Hin; apply Hk; by right).
  destruct (String.eqb_spec id k) as [-> | Hne].
  - destruct Hk as [-> ->]; [by left | reflexivity].
  - destruct (JSMap.get id cache); [by rewrite lookup_insert_ne |].
    destruct (userMap !! id); [by rewrite lookup_insert_ne | reflexivity].
Qed.

(** Steps 5 and 6 together: participants keep their entries, every
    collected id gets one, and an id known to nobody gets the
    placeholder. *)
Lemma mergeSpeakers_spec (speakerMap : SpeakerMap) (speakerIds : list string)
    (cache : list (string * GongUser)) (allUsers : list GongUser) :
  let merged := mergeSpeakers speakerMap speakerIds cache allUsers in
  (forall k speaker, speakerMap !! k = Some speaker -> merged !! k = Some speaker) /\
  (forall id, In id speakerIds -> is_Some (merged !! id)) /\
  (forall id, In id speakerIds ->
     speakerMap !! id = None -> JSMap.get id cache = None ->
     buildUserMap allUsers !! id = None ->
     merged !! id = Some (placeholder id)).
Proof.
  unfold mergeSpeakers. cbv zeta. split; [| split].
  - intros k speaker Hk. apply addPlaceholders_keeps.
    rewrite fillFromDirectory_other; [exact Hk |].
    intros Hin. apply filter_In in Hin as [_ Hmiss].
    rewrite Hk in Hmiss. rewrite bool_decide_eq_true_2 in Hmiss by eauto.
    discriminate Hmiss.
  - intros id Hin. rewrite addPlaceholders_fills by exact Hin. eauto.
  - intros id Hin Hseed Hcache Huser.
    rewrite addPlaceholders_fills by exact Hin.
    by rewrite fillFromDirectory_other, Hseed.
Qed.

End SpeakerCoverage.

(** Where the transcript answer carries its segments in a [transcripts]
    field, the resolver does what it is meant to do: with the call details,
    the transcript and the directory at hand, the entries seeded from the
    participants stand, every non-empty speaker id of the segments has an
    entry, and an id known neither to the participants nor to the directory
    gets the placeholder. *)
Lemma getSpeakerMap_total_on_transcripts_field (w : World) (callId : string)
    (callDetails details : option RawCall) (st st1 st2 : State)
    (transcriptResponse : TranscriptResponse)
    (segments : list GongTranscriptSegment) (allUsers : list GongUser) :
  UserService.fetchCallDetails w callId callDetails st = (Ok details, st1) ->
  w_getTranscripts w (history st1) [callId] = Ok transcriptResponse ->
  tr_transcripts transcriptResponse = Some segments ->
  UserService.getAllUsers w false (record (EvGetTranscripts [callId]) st1) =
    (Ok allUsers, st2) ->
  exists speakerMap,
    UserService.getSpeakerMap w callId callDetails st = (Ok speakerMap, st2) /\
    (forall k speaker,
       UserService.seedParticipants (UserService.participantsOf details) !! k
         = Some speaker ->
       speakerMap !! k = Some speaker) /\
    (forall segment, In segment segments -> speakerId segment <> "" ->
       is_Some (speakerMap !! speakerId segment)) /\
    (forall segment, In segment segments -> speakerId segment <> "" ->
       UserService.seedParticipants (UserService.participantsOf details)
         !! speakerId segment = None ->
       JSMap.get (speakerId segment) (userCache st2) = None ->
       UserService.buildUserMap allUsers !! speakerId segment = None ->
       speakerMap !! speakerId segment =
         Some {| s_id := speakerId segment;
                 s_name := "Person " ++ JS.substring0 4 (speakerId segment);
                 s_email := None; s_role := None;
                 s_company := Some "Unknown" |}).
Proof.
  intros Hdetails Htranscripts Hfield Husers.
  rewrite getSpeakerMap_unfold. unfold UserService.getSpeakerMap_body.
  unfold mbind at 1, M_bind at 1. rewrite Hdetails.
  rewrite resolveSpeakers_unfold, Htranscripts, Husers, Hfield.
  eexists. split; [reflexivity |]. cbn [default from_option Datatypes.id].
  destruct (mergeSpeakers_spec
              (UserService.seedParticipants (UserService.participantsOf details))
              (UserService.collectSpeakerIds segments) (userCache st2) allUsers)
    as (Hkeep & Htotal & Hfresh).
  split; [exact Hkeep |]. split.
  - intros segment Hin Hid. by apply Htotal, collectSpeakerIds_complete.
  - intros segment Hin Hid Hseed Hcache Huser.
    by apply Hfresh; [apply collectSpeakerIds_complete | | |].
Qed.

(** But the resolver reads no other field: when the answer has no
    [transcripts] field, whatever its [callTranscripts] hold, the map is the
    participants' seed and nothing else. *)
Lemma getSpeakerMap_ignores_callTranscripts (w : World) (callId : string)
    (callDetails details : option RawCall) (st st1 st2 : State)
    (transcriptResponse : TranscriptResponse) (allUsers : list GongUser) :
  UserService.fetchCallDetails w callId callDetails st = (Ok details, st1) ->
  w_getTranscripts w (history st1) [callId] = Ok transcriptResponse ->
  tr_transcripts transcriptResponse = None ->
  UserService.getAllUsers w false (record (EvGetTranscripts [callId]) st1) =
    (Ok allUsers, st2) ->
  UserService.getSpeakerMap w callId callDetails st =
    (Ok (UserService.seedParticipants (UserService.participantsOf details)), st2).
Proof.
  intros Hdetails Htranscripts Hfield Husers.
  rewrite getSpeakerMap_unfold. unfold UserService.getSpeakerMap_body.
  unfold mbind at 1, M_bind at 1. rewrite Hdetails.
  by rewrite resolveSpeakers_unfold, Htranscripts, Husers, Hfield.
Qed.

(** C1 at the scenario of the specification, with the transcript in the
    shape the endpoint documents and the formatter reads: Alice, a
    participant, is in the map; Bob, whom the directory knows, and the
    speaker known to nobody both speak in the transcript and are absent
    from the map. *)
Theorem getSpeakerMap_misses_transcript_speakers :
  TranscriptService.transcriptOf (Sample.documented Sample.scenarioSegments)
    = Sample.scenarioSegments /\
  exists speakerMap st',
    UserService.getSpeakerMap Sample.scenario "C1" None Sample.fresh
      = (Ok speakerMap, st') /\
    JSMap.get "p2" (userCache st') = Some (UserService.processUser Sample.bob) /\
    speakerMap !! "p1" =
      Some {| s_id := "p1"; s_name := "Alice"; s_email := None;
              s_role := None; s_company := None |} /\
    speakerMap !! "p2" = None /\
    speakerMap !! "zz9" = None.
Proof.
  split; [reflexivity |].
  exists (UserService.seedParticipants [Sample.participant "p1" "Alice"]).
  exists (snd (UserService.getSpeakerMap Sample.scenario "C1" None Sample.fresh)).
  split.
  - apply (getSpeakerMap_ignores_callTranscripts Sample.scenario "C1" None
             (Some Sample.scenarioCall) Sample.fresh
             (record (EvGetCall "C1") Sample.fresh) _
             (Sample.documented Sample.scenarioSegments)
             [UserService.processUser Sample.bob]); reflexivity.
  - repeat split; reflexivity.
Qed.

(** The same scenario with the segments in a [transcripts] field resolves
    all three speakers. *)
Example getSpeakerMap_flat_scenario :
  exists speakerMap st',
    UserService.getSpeakerMap Sample.scenarioFlat "C1" None Sample.fresh
      = (Ok speakerMap, st') /\
    s_name <$> speakerMap !! "p1" = Some "Alice" /\
    s_name <$> speakerMap !! "p2" = Some "Bob Lee" /\
    speakerMap !! "zz9" =
      Some {| s_id := "zz9"; s_name := "Person zz9"; s_email := None;
              s_role := None; s_company := Some "Unknown" |}.
Proof.
  destruct (UserService.getSpeakerMap Sample.scenarioFlat "C1" None Sample.fresh)
    as [[speakerMap | e] st'] eqn:Hrun; [| discriminate Hrun].
  exists speakerMap, st'. split; [reflexivity |].
  injection Hrun as <- _. repeat split; reflexivity.
Qed.

(** ** Dictionaries and sorting *)

Section Dictionaries.

Context {V : Type}.
Implicit Types (m : list (string * V)) (k : string) (v : V).

Lemma get_set k k' v m :
  JSMap.get k (JSMap.set k' v m) =
    if String.eqb k' k then Some v else JSMap.get k m.
Proof.
  induction m as [| [k0 v0] m IH]; cbn.
  - by destruct (String.eqb k' k).
  - destruct (String.eqb_spec k0 k') as [-> | Hne]; cbn.
    + by destruct (String.eqb k' k).
    + rewrite IH. destruct (String.eqb_spec k0 k) as [-> | Hne']; [| done].
      by destruct (String.eqb_spec k' k) as [-> | _].
Qed.

Lemma set_set k v v' m : JSMap.set k v (JSMap.set k v' m) = JSMap.set k v m.
Proof.
  induction m as [| [k0 v0] m IH]; cbn.
  - by rewrite String.eqb_refl.
  - destruct (String.eqb_spec k0 k) as [-> | Hne]; cbn.
    + by rewrite String.eqb_refl.
    + destruct (String.eqb_spec k0 k); [done |]. by rewrite IH.
Qed.

Lemma get_None k m : JSMap.get k m = None <-> ~ In k (map fst m).
Proof.
  induction m as [| [k0 v0] m IH]; cbn; [tauto |].
  destruct (String.eqb_spec k0 k) as [-> | Hne]; [| tauto].
  split; [discriminate | tauto].
Qed.

Lemma get_Some_In k v m : JSMap.get k m = Some v -> In (k, v) m.
Proof.
  induction m as [| [k0 v0] m IH]; cbn; [discriminate |].
  destruct (String.eqb_spec k0 k) as [-> | Hne]; [| tauto].
  intros [= ->]. by left.
Qed.

Lemma In_get_Some k v m :
  NoDup (map fst m) -> In (k, v) m -> JSMap.get k m = Some v.
Proof.
  induction m as [| [k0 v0] m IH]; cbn; [tauto |].
  intros Hnd%NoDup_cons [[= -> ->] | Hin].
  - by rewrite String.eqb_refl.
  - destruct Hnd as [Hfresh Hnd].
    destruct (String.eqb_spec k0 k) as [-> | Hne]; [| by apply IH].
    exfalso. apply Hfresh, list_elem_of_In, in_map_iff. by exists (k, v).
Qed.

(** A [set] keeps the keys in place, or adds the new key last. *)
Lemma keys_set k v m :
  map fst (JSMap.set k v m) =
    match JSMap.get k m with
    | Some _ => map fst m
    | None => (map fst m ++ [k])%list
    end.
Proof.
  induction m as [| [k0 v0] m IH]; cbn; [reflexivity |].
  destruct (String.eqb_spec k0 k) as [-> | Hne]; cbn; [reflexivity |].
  rewrite IH. by destruct (JSMap.get k m).
Qed.

(** [Object.entries] lists every property once. *)
Lemma insertIndexed_perm (n : N) (e : string * V) (l : list (N * (string * V))) :
  map snd (JSObject.insertIndexed n e l) ≡ₚ e :: map snd l.
Proof.
  induction l as [| [n' e'] l IH]; cbn; [reflexivity |].
  destruct (n <? n')%N; cbn; [reflexivity |].
  rewrite IH. apply perm_swap.
Qed.

Lemma entries_perm m : JSObject.entries m ≡ₚ m.
Proof.
  unfold JSObject.entries.
  induction m as [| e m IH]; cbn; [reflexivity |].
  destruct (JSObject.arrayIndex (fst e)).
  - rewrite insertIndexed_perm. cbn. by rewrite IH.
  - rewrite <- Permutation_middle. by rewrite IH.
Qed.

End Dictionaries.

Section Sorting.

Context {A : Type} (compareFn : A -> A -> Z).

Lemma insertSorted_perm (x : A) (l : list A) :
  JSArray.insertSorted compareFn x l ≡ₚ x :: l.
Proof.
  induction l as [| y l IH]; cbn; [reflexivity |].
  destruct (compareFn x y <? 0)%Z; [reflexivity |].
  rewrite IH. apply perm_swap.
Qed.

(** Sorting rearranges and neither drops nor repeats. *)
Lemma sort_perm (l : list A) : JSArray.sort compareFn l ≡ₚ l.
Proof.
  unfold JSArray.sort.
  enough (H : forall acc,
             foldl (fun sorted x => JSArray.insertSorted compareFn x sorted) acc l
             ≡ₚ (acc ++ l)%list) by apply (H []).
  induction l as [| x l IH]; intros acc; cbn.
  - by rewrite app_nil_r.
  - rewrite IH, insertSorted_perm. apply Permutation_middle.
Qed.

Lemma limit_map {B} (f : A -> B) (n : Z) (l : list A) :
  JSArray.limit n (map f l) = map f (JSArray.limit n l).
Proof.
  unfold JSArray.limit. rewrite length_map.
  destruct (_ && _); [apply firstn_map | reflexivity].
Qed.

End Sorting.

(** ** Grouping by topic *)

Section Grouping.

Import TranscriptService.

Implicit Types (segments : list GongTranscriptSegment)
               (groups : list (string * list GongTranscriptSegment)).

(** The two rounds of [pushSegment] amount to one [set]. *)
Lemma pushSegment_set groups (segment : GongTranscriptSegment) :
  pushSegment groups segment =
    JSMap.set (topicOf segment)
      (default [] (JSMap.get (topicOf segment) groups) ++ [segment])%list
      groups.
Proof.
  unfold pushSegment. cbv zeta.
  destruct (JSMap.get (topicOf segment) groups) eqn:Hget.
  - by rewrite Hget.
  - by rewrite get_set, String.eqb_refl, set_set.
Qed.

Lemma groupByTopic_snoc segments (segment : GongTranscriptSegment) :
  groupByTopic (segments ++ [segment]) =
    pushSegment (groupByTopic segments) segment.
Proof. unfold groupByTopic. by rewrite foldl_app. Qed.

Lemma topicSegments_snoc (t : string) segments (segment : GongTranscriptSegment) :
  topicSegments t (segments ++ [segment]) =
    (topicSegments t segments ++
     if String.eqb (topicOf segment) t then [segment] else [])%list.
Proof.
  unfold topicSegments. rewrite List.filter_app. cbn.
  by destruct (String.eqb (topicOf segment) t).
Qed.

(** The group of a topic is the list of its segments, in order; a topic
    without segment has no group. *)
Lemma groupByTopic_get (t : string) segments :
  JSMap.get t (groupByTopic segments) =
    match topicSegments t segments with
    | [] => None
    | group => Some group
    end.
Proof.
  induction segments as [| segment segments IH] using rev_ind; [reflexivity |].
  rewrite groupByTopic_snoc, pushSegment_set, get_set, topicSegments_snoc.
  destruct (String.eqb_spec (topicOf segment) t) as [-> | Hne].
  - rewrite IH. destruct (topicSegments t segments); reflexivity.
  - rewrite IH, app_nil_r. reflexivity.
Qed.

Lemma groupByTopic_keys_nodup segments :
  NoDup (map fst (groupByTopic segments)).
Proof.
  induction segments as [| segment segments IH] using rev_ind; [constructor |].
  rewrite groupByTopic_snoc, pushSegment_set, keys_set.
  destruct (JSMap.get _ _) eqn:Hget; [exact IH |].
  apply NoDup_app. split; [exact IH |]. split.
  - intros k Hk Hk'. apply list_elem_of_In in Hk, Hk'.
    destruct Hk' as [<- | []]. by apply get_None in Hget.
  - apply NoDup_singleton.
Qed.

Lemma groupByTopic_entry (t : string) (group : list GongTranscriptSegment)
    segments :
  In (t, group) (groupByTopic segments) -> group = topicSegments t segments.
Proof.
  intros Hin. apply In_get_Some in Hin; [| apply groupByTopic_keys_nodup].
  rewrite groupByTopic_get in Hin.
  destruct (topicSegments t segments); congruence.
Qed.

Lemma groupByTopic_covers segments (segment : GongTranscriptSegment) :
  In segment segments ->
  In (topicOf segment, topicSegments (topicOf segment) segments)
     (groupByTopic segments) /\
  In segment (topicSegments (topicOf segment) segments).
Proof.
  intros Hin.
  assert (Hmem : In segment (topicSegments (topicOf segment) segments)).
  { apply filter_In. split; [exact Hin | apply String.eqb_refl]. }
  split; [| exact Hmem]. apply get_Some_In. rewrite groupByTopic_get.
  destruct (topicSegments (topicOf segment) segments); [destruct Hmem | reflexivity].
Qed.

Lemma pushSegment_perm groups (segment : GongTranscriptSegment) :
  flat_map snd (pushSegment groups segment) ≡ₚ segment :: flat_map snd groups.
Proof.
  rewrite pushSegment_set. generalize (topicOf segment) as t; intros t.
  induction groups as [| [k group] groups IH]; cbn; [reflexivity |].
  destruct (String.eqb_spec k t) as [-> | Hne]; cbn.
  - rewrite <- app_assoc. cbn. symmetry. apply Permutation_middle.
  - rewrite IH. symmetry. apply Permutation_middle.
Qed.

(** The groups hold every segment exactly once. *)
Lemma groupByTopic_perm segments :
  flat_map snd (groupByTopic segments) ≡ₚ segments.
Proof.
  induction segments as [| segment segments IH] using rev_ind; [reflexivity |].
  rewrite groupByTopic_snoc, pushSegment_perm, IH.
  apply Permutation_cons_append.
Qed.

Context (w : World) (speakerMap : SpeakerMap) (maxSegments maxSentences : Z).

Lemma makeExchange_text (segment : GongTranscriptSegment) :
  ex_text (makeExchange speakerMap maxSentences segment) =
    Spec.segmentText maxSentences segment.
Proof.
  unfold makeExchange, Spec.segmentText, processSegment; cbn.
  rewrite limit_map, map_map. reflexivity.
Qed.

(** The sections are the sections of the groups, rearranged. *)
Lemma buildSections_perm (transcripts : list GongTranscriptSegment) :
  buildSections w speakerMap maxSegments maxSentences transcripts ≡ₚ
    map (makeSection speakerMap maxSentences)
        (groupByTopic (JSArray.limit maxSegments transcripts)).
Proof.
  unfold buildSections. cbv zeta. rewrite sort_perm.
  apply Permutation_map, entries_perm.
Qed.

Lemma flattenTexts_groups groups :
  Spec.flattenTexts (map (makeSection speakerMap maxSentences) groups) =
    map (Spec.segmentText maxSentences) (flat_map snd groups).
Proof.
  unfold Spec.flattenTexts.
  induction groups as [| [t group] groups IH]; cbn; [reflexivity |].
  rewrite IH, map_app, map_map. f_equal.
  apply map_ext. intros segment. apply makeExchange_text.
Qed.

End Grouping.

(** ** The transcript formatter *)

Example formatMilliseconds_samples :
  TranscriptService.formatMilliseconds 0 = "0:00" /\
  TranscriptService.formatMilliseconds 65000 = "1:05" /\
  TranscriptService.formatMilliseconds 599999 = "9:59" /\
  TranscriptService.formatMilliseconds 3725000 = "62:05".
Proof. repeat split; reflexivity. Qed.

Section Formatter.

Context (w : World).

Import TranscriptService.

(** What [getFormattedTranscript] returns, from the answers it meets. *)
Lemma getFormattedTranscript_unfold (callId : string) (format : Format)
    (maxSegments maxSentences : Z) (st : State) :
  getFormattedTranscript w callId format maxSegments maxSentences st =
    let st1 := record (EvGetCall callId) st in
    let st2 := record (EvGetTranscripts [callId]) st1 in
    match w_getCall w (history st) callId with
    | Throw e => (Throw e, st1)
    | Ok callResponse =>
        match w_getTranscripts w (history st1) [callId] with
        | Throw e => (Throw e, st2)
        | Ok response =>
            match UserService.getSpeakerMap w callId (cr_call callResponse) st2 with
            | (Throw e, st3) => (Throw e, st3)
            | (Ok speakerMap, st3) =>
                match cr_call callResponse with
                | None => (Throw TypeError, st3)
                | Some call =>
                    match w_toISOString w
                            (JS.or_else
                               (JS.or_opt (rc_startTime call) (rc_scheduled call))
                               "") with
                    | None => (Throw RangeError, st3)
                    | Some date =>
                        (Ok match format with
                            | raw =>
                                Raw (rawTranscript call date speakerMap
                                       (transcriptOf response))
                            | _ =>
                                Formatted
                                  (formattedTranscript w call date speakerMap
                                     maxSegments maxSentences
                                     (transcriptOf response))
                            end,
                         st3)
                    end
                end
            end
        end
    end.
Proof.
  unfold getFormattedTranscript, try_catch, mbind, M_bind, mret, M_ret, throw.
  rewrite ask_run. cbv zeta.
  destruct (w_getCall w _ _) as [callResponse | e]; [| reflexivity].
  rewrite ask_run.
  destruct (w_getTranscripts w _ _) as [response | e]; [| reflexivity].
  destruct (UserService.getSpeakerMap w callId _ _) as [[speakerMap | e] st3];
    [| reflexivity].
  unfold defined, callDate, mret, M_ret, throw.
  destruct (cr_call callResponse) as [call |]; [| by destruct format].
  destruct (w_toISOString w _); by destruct format.
Qed.

(** A successful call, taken apart. *)
Lemma getFormattedTranscript_ok (callId : string) (format : Format)
    (maxSegments maxSentences : Z) (st st' : State) (result : TranscriptResult) :
  getFormattedTranscript w callId format maxSegments maxSentences st
    = (Ok result, st') ->
  exists callResponse call response speakerMap date,
    w_getCall w (history st) callId = Ok callResponse /\
    cr_call callResponse = Some call /\
    w_getTranscripts w (history st ++ [EvGetCall callId]) [callId] = Ok response /\
    UserService.getSpeakerMap w callId (Some call)
      (record (EvGetTranscripts [callId]) (record (EvGetCall callId) st))
      = (Ok speakerMap, st') /\
    result =
      match format with
      | raw => Raw (rawTranscript call date speakerMap (transcriptOf response))
      | _ =>
          Formatted (formattedTranscript w call date speakerMap maxSegments
                       maxSentences (transcriptOf response))
      end.
Proof.
  rewrite getFormattedTranscript_unfold. cbv zeta. cbn [record history].
  destruct (w_getCall w _ _) as [callResponse | e]; [| discriminate].
  destruct (w_getTranscripts w _ _) as [response | e]; [| discriminate].
  destruct (UserService.getSpeakerMap w callId _ _) as [[speakerMap | e] st3] eqn:Hmap;
    [| discriminate].
  destruct (cr_call callResponse) as [call |] eqn:Hcall; [| discriminate].
  destruct (w_toISOString w _) as [date |]; [| discriminate].
  intros [= <- <-]. by exists callResponse, call, response, speakerMap, date.
Qed.

End Formatter.

(** C8: the concise and the full format take the same path through
    [getFormattedTranscript]: from every state, in every world and for all
    limits, the two calls give the same result and leave the same state. *)
Theorem concise_and_full_agree (w : World) (callId : string)
    (maxSegments maxSentences : Z) (st : State) :
  TranscriptService.getFormattedTranscript w callId concise maxSegments
    maxSentences st =
  TranscriptService.getFormattedTranscript w callId full maxSegments
    maxSentences st.
Proof. by rewrite !getFormattedTranscript_unfold. Qed.

(** The raw format is a different result. *)
Example raw_differs_from_concise :
  fst (TranscriptService.getFormattedTranscript Sample.scenario "C1" raw 0 0
         Sample.fresh) <>
  fst (TranscriptService.getFormattedTranscript Sample.scenario "C1" concise 0 0
         Sample.fresh).
Proof. vm_compute. discriminate. Qed.

(** ** Flattening the grouped output *)

Lemma groupByTopic_single (t : string) (segments : list GongTranscriptSegment) :
  (forall segment, In segment segments -> TranscriptService.topicOf segment = t) ->
  TranscriptService.groupByTopic segments =
    match segments with
    | [] => []
    | _ => [(t, segments)]
    end.
Proof.
  induction segments as [| segment segments IH] using rev_ind; intros Hall;
    [reflexivity |].
  rewrite groupByTopic_snoc, pushSegment_set.
  rewrite (Hall segment) by (apply in_or_app; right; by left).
  rewrite IH by (intros s Hs; apply Hall, in_or_app; by left).
  destruct segments as [| s0 segments]; cbn; [reflexivity |].
  by rewrite String.eqb_refl.
Qed.

(** C4, as worded, fails: two topics whose segments alternate come out
    grouped, so the flattened texts are x, z, y for the transcript x, y, z
    (and the texts joined by spaces differ as well).  The two section starts
    are 0:00 and 0:01, which every collation orders alike, and the other
    order of the sections, y, x, z, is not the transcript either. *)
Lemma interleaved_topics_reordered :
  let w := Sample.world 1000 (Ok [])
             (Ok {| cr_call := Some Sample.scenarioCall |})
             (Ok (Sample.documented Sample.interleaved)) in
  ~ Spec.reproducesChronology w "C1" concise 0 0 Sample.fresh /\
  JS.join " " (Spec.flattenTexts
                 (TranscriptService.buildSections w ∅ 0 0 Sample.interleaved))
    = "x z y" /\
  JS.join " " (Spec.chronologicalTexts 0 0 Sample.interleaved) = "x y z".
Proof.
  intros w. split; [| split; reflexivity].
  intros H.
  destruct (TranscriptService.getFormattedTranscript w "C1" concise 0 0 Sample.fresh)
    as [[[t | t] | e] st'] eqn:Hrun; try discriminate Hrun.
  specialize (H t st' (Sample.documented Sample.interleaved) Hrun eq_refl).
  injection Hrun as <- _. vm_compute in H. discriminate H.
Qed.

(** C4 (amended): the texts of the grouped output, flattened in section
    order then exchange order, are the per-segment texts of the transcript
    under the two limits up to a rearrangement; no two sections share a
    topic; inside a section the exchanges carry the texts of that topic's
    segments in their original order; and when all retained segments have
    one topic the flattened texts are the chronological texts, in order. *)
Theorem grouped_texts_rearrange_chronology (w : World) (callId : string)
    (format : Format) (maxSegments maxSentences : Z) (st st' : State)
    (t : FormattedTranscript) (response : TranscriptResponse) :
  TranscriptService.getFormattedTranscript w callId format maxSegments
    maxSentences st = (Ok (Formatted t), st') ->
  w_getTranscripts w (history st ++ [EvGetCall callId]) [callId] = Ok response ->
  let segments :=
    JSArray.limit maxSegments (TranscriptService.transcriptOf response) in
  Spec.flattenTexts (ft_sections t) ≡ₚ
    Spec.chronologicalTexts maxSegments maxSentences
      (TranscriptService.transcriptOf response) /\
  NoDup (map sec_topic (ft_sections t)) /\
  (forall section, In section (ft_sections t) ->
     map ex_text (sec_exchanges section) =
       map (Spec.segmentText maxSentences)
           (TranscriptService.topicSegments (sec_topic section) segments)) /\
  ((forall s1 s2, In s1 segments -> In s2 segments ->
      TranscriptService.topicOf s1 = TranscriptService.topicOf s2) ->
   Spec.flattenTexts (ft_sections t) =
     Spec.chronologicalTexts maxSegments maxSentences
       (TranscriptService.transcriptOf response)).
Proof.
  intros Hrun Hresponse segments.
  apply getFormattedTranscript_ok in Hrun
    as (callResponse & call & response' & speakerMap & date &
        _ & _ & Hresponse' & _ & Hresult).
  rewrite Hresponse in Hresponse'. injection Hresponse' as <-.
  assert (Ht : ft_sections t =
               TranscriptService.buildSections w speakerMap maxSegments
                 maxSentences (TranscriptService.transcriptOf response)).
  { destruct format; try discriminate Hresult; by injection Hresult as ->. }
  rewrite Ht. clear Ht Hresult.
  pose proof (buildSections_perm w speakerMap maxSegments maxSentences
                (TranscriptService.transcriptOf response)) as Hperm.
  fold segments in Hperm.
  split; [| split; [| split]].
  - unfold Spec.flattenTexts at 1.
    rewrite (Permutation_flat_map _ Hperm).
    fold (Spec.flattenTexts
            (map (TranscriptService.makeSection speakerMap maxSentences)
                 (TranscriptService.groupByTopic segments))).
    rewrite flattenTexts_groups. unfold Spec.chronologicalTexts.
    apply Permutation_map, groupByTopic_perm.
  - rewrite Hperm, map_map. cbn. apply groupByTopic_keys_nodup.
  - intros section Hin.
    apply (Permutation_in _ Hperm), in_map_iff in Hin as ([k group] & <- & Hin).
    cbn. apply groupByTopic_entry in Hin as ->.
    rewrite map_map. apply map_ext. intros segment. apply makeExchange_text.
  - intros Hsame. unfold Spec.chronologicalTexts. fold segments.
    destruct segments as [| s0 segments'] eqn:Hsegs.
    + cbn in Hperm. symmetry in Hperm. apply Permutation_nil in Hperm.
      by rewrite Hperm.
    + rewrite (groupByTopic_single (TranscriptService.topicOf s0)) in Hperm
        by (intros s Hs; apply Hsame; [exact Hs | by left]).
      cbn [map] in Hperm. symmetry in Hperm.
      apply Permutation_length_1_inv in Hperm. rewrite Hperm.
      unfold Spec.flattenTexts. cbn [flat_map TranscriptService.makeSection
                                       sec_exchanges snd].
      rewrite app_nil_r, map_map. apply map_ext. intros segment.
      apply makeExchange_text.
Qed.

Lemma grouped_texts_rearrange_chronology_witness :
  let seed := UserService.seedParticipants [Sample.participant "p1" "Alice"] in
  let t := TranscriptService.formattedTranscript Sample.scenario
             Sample.scenarioCall "2024-03-01T10:00:00Z" seed 0 0
             Sample.scenarioSegments in
  let intro := TranscriptService.makeSection seed 0
                 ("Intro", firstn 2 Sample.scenarioSegments) in
  let t1 := TranscriptService.formattedTranscript Sample.monologueWorld
              Sample.scenarioCall "2024-03-01T10:00:00Z" seed 0 1
              Sample.monologue in
  Spec.flattenTexts (ft_sections t) ≡ₚ
    ["Hello."; "Hi Alice."; "Let us talk price."] /\
  map ex_text (sec_exchanges intro) = ["Hello."; "Hi Alice."] /\
  Spec.flattenTexts (ft_sections t1) = ["Hello."; "Hi."].
Proof.
  intros seed t intro t1.
  destruct (grouped_texts_rearrange_chronology Sample.scenario "C1" concise 0 0
              Sample.fresh
              (snd (TranscriptService.getFormattedTranscript Sample.scenario
                      "C1" concise 0 0 Sample.fresh))
              t (Sample.documented Sample.scenarioSegments)
              eq_refl eq_refl) as (Hperm & _ & Hsection & _).
  destruct (grouped_texts_rearrange_chronology Sample.monologueWorld "C1" full 0 1
              Sample.fresh
              (snd (TranscriptService.getFormattedTranscript Sample.monologueWorld
                      "C1" full 0 1 Sample.fresh))
              t1 (Sample.documented Sample.monologue)
              eq_refl eq_refl) as (_ & _ & _ & Hone).
  split; [exact Hperm |]. split.
  - rewrite (Hsection intro); [reflexivity |]. left. reflexivity.
  - rewrite Hone; [reflexivity |].
    intros s1 s2 [<- | [<- | []]] [<- | [<- | []]]; reflexivity.
Defined.

(** ** Speakers the map does not know *)

(** C9: a segment whose speaker id is not a key of the map that the
    resolver handed to the formatter is rendered by [processSegment] with
    the name "Speaker " followed by the first eight characters of the id,
    and company and role "Unknown", a name that differs from the one of the
    resolver's own placeholder; the raw output shows that speaker at
    the segment's position, and the grouped output shows it on the segment's
    exchange, in the section of the segment's topic, when the segment is
    within [maxSegments]. *)
Theorem unknown_speaker_rendering (w : World) (callId : string) (format : Format)
    (maxSegments maxSentences : Z) (st st' : State) (result : TranscriptResult)
    (callResponse : CallResponse) (response : TranscriptResponse)
    (speakerMap : SpeakerMap) (segment : GongTranscriptSegment) :
  TranscriptService.getFormattedTranscript w callId format maxSegments
    maxSentences st = (Ok result, st') ->
  w_getCall w (history st) callId = Ok callResponse ->
  w_getTranscripts w (history st ++ [EvGetCall callId]) [callId] = Ok response ->
  fst (UserService.getSpeakerMap w callId (cr_call callResponse)
         (record (EvGetTranscripts [callId]) (record (EvGetCall callId) st)))
    = Ok speakerMap ->
  speakerMap !! speakerId segment = None ->
  let unknown :=
    {| sv_name := "Speaker " ++ JS.substring0 8 (speakerId segment);
       sv_company := Some "Unknown";
       sv_role := Some "Unknown" |} in
  pseg_speaker (TranscriptService.processSegment segment speakerMap) = unknown /\
  sv_name unknown <> s_name (UserService.placeholder (speakerId segment)) /\
  match result with
  | Raw t =>
      forall i : nat,
        TranscriptService.transcriptOf response !! i = Some segment ->
        pseg_speaker <$> rt_transcript t !! i = Some unknown
  | Formatted t =>
      In segment
         (JSArray.limit maxSegments (TranscriptService.transcriptOf response)) ->
      exists section exchange,
        In section (ft_sections t) /\
        sec_topic section = TranscriptService.topicOf segment /\
        In exchange (sec_exchanges section) /\
        ex_speaker exchange = unknown /\
        ex_text exchange = Spec.segmentText maxSentences segment
  end.
Proof.
  intros Hrun Hcall Hresponse Hmap Hmiss unknown.
  assert (Hseg : pseg_speaker (TranscriptService.processSegment segment speakerMap)
                 = unknown).
  { unfold TranscriptService.processSegment; cbn. by rewrite Hmiss. }
  split; [exact Hseg |]. split; [discriminate |].
  apply getFormattedTranscript_ok in Hrun
    as (callResponse' & call & response' & speakerMap' & date &
        Hcall' & Hdetails & Hresponse' & Hmap' & ->).
  rewrite Hcall in Hcall'. injection Hcall' as <-.
  rewrite Hresponse in Hresponse'. injection Hresponse' as <-.
  rewrite Hdetails, Hmap' in Hmap. injection Hmap as ->.
  assert (Hgrouped :
    In segment
       (JSArray.limit maxSegments (TranscriptService.transcriptOf response)) ->
    exists section exchange,
      In section (TranscriptService.buildSections w speakerMap maxSegments
                    maxSentences (TranscriptService.transcriptOf response)) /\
      sec_topic section = TranscriptService.topicOf segment /\
      In exchange (sec_exchanges section) /\
      ex_speaker exchange = unknown /\
      ex_text exchange = Spec.segmentText maxSentences segment).
  { intros Hin. apply groupByTopic_covers in Hin as [Hgroup Hmember].
    eexists _, (TranscriptService.makeExchange speakerMap maxSentences segment).
    split.
    - apply (Permutation_in _
               (Permutation_sym (buildSections_perm w speakerMap maxSegments
                                   maxSentences _))).
      apply in_map. exact Hgroup.
    - cbn [sec_exchanges sec_topic TranscriptService.makeSection fst snd].
      split; [reflexivity |]. split; [by apply in_map |].
      split; [exact Hseg | apply makeExchange_text]. }
  destruct format; cbn; try exact Hgrouped.
  intros i Hi. rewrite list_lookup_fmap, Hi. cbn. by rewrite Hmiss.
Qed.

Lemma unknown_speaker_rendering_witness :
  let unknown :=
    {| sv_name := "Speaker zz9"; sv_company := Some "Unknown";
       sv_role := Some "Unknown" |} in
  match fst (TranscriptService.getFormattedTranscript Sample.scenario "C1" raw
               0 0 Sample.fresh) with
  | Ok (Raw t) => pseg_speaker <$> rt_transcript t !! 2%nat = Some unknown
  | _ => False
  end /\
  match fst (TranscriptService.getFormattedTranscript Sample.scenario "C1" concise
               0 0 Sample.fresh) with
  | Ok (Formatted t) =>
      exists section exchange,
        In section (ft_sections t) /\ sec_topic section = "Pricing" /\
        In exchange (sec_exchanges section) /\ ex_speaker exchange = unknown /\
        ex_text exchange = "Let us talk price."
  | _ => False
  end.
Proof.
  intros unknown.
  set (zz9 := Sample.segment "zz9" (Some "Pricing") [(65000%Z, "Let us talk price.")]).
  set (seed := UserService.seedParticipants [Sample.participant "p1" "Alice"]).
  split.
  - destruct (TranscriptService.getFormattedTranscript Sample.scenario "C1" raw
                0 0 Sample.fresh) as [[[t | t] | e] st'] eqn:Hrun;
      try discriminate Hrun.
    destruct (unknown_speaker_rendering Sample.scenario "C1" raw 0 0 Sample.fresh
                st' (Raw t) {| cr_call := Some Sample.scenarioCall |}
                (Sample.documented Sample.scenarioSegments) seed zz9
                Hrun eq_refl eq_refl eq_refl eq_refl) as (_ & _ & Hraw).
    exact (Hraw 2%nat eq_refl).
  - destruct (TranscriptService.getFormattedTranscript Sample.scenario "C1" concise
                0 0 Sample.fresh) as [[[t | t] | e] st'] eqn:Hrun;
      try discriminate Hrun.
    destruct (unknown_speaker_rendering Sample.scenario "C1" concise 0 0
                Sample.fresh st' (Formatted t)
                {| cr_call := Some Sample.scenarioCall |}
                (Sample.documented Sample.scenarioSegments) seed zz9
                Hrun eq_refl eq_refl eq_refl eq_refl) as (_ & _ & Hgrouped).
    apply Hgrouped. cbn. tauto.
Defined.

(** ** The composite read of [CallService] *)

(** C5: when [getCall] is asked for the transcript, the call fetch gives a
    call record, and fetching and formatting the transcript throws, the
    composite read returns the normalised call, untouched by the attempt,
    without a transcript; the error goes no further. *)
Theorem transcript_failure_isolated (w : World) (params : GetCallParams)
    (st st' : State) (callResponse : CallResponse) (rawCall : RawCall)
    (e : Error) :
  includeTranscript params = Some true ->
  w_getCall w (history st) (callId params) = Ok callResponse ->
  cr_call callResponse = Some rawCall ->
  TranscriptService.getFormattedTranscript w (callId params)
    (default concise (transcriptFormat params))
    (default 0%Z (maxSegments params)) (default 0%Z (maxSentences params))
    (record (EvGetCall (callId params)) st) = (Throw e, st') ->
  CallService.getCall w params st =
    (Ok {| call := CallService.formatCall rawCall; transcript := None |}, st').
Proof.
  intros Hinclude Hcall Hdetails Hfail.
  unfold CallService.getCall, CallService.attachTranscript, try_catch,
    mbind, M_bind.
  rewrite ask_run, Hcall, Hdetails, Hinclude. cbn [TranscriptService.defined].
  change (default false (Some true)) with true.
  unfold mret, M_ret. cbv beta iota. by rewrite Hfail.
Qed.

Lemma transcript_failure_isolated_witness :
  fst (CallService.getCall Sample.transcriptDown (Sample.params "C1") Sample.fresh) =
    Ok {| call := CallService.formatCall Sample.scenarioCall; transcript := None |} /\
  fst (CallService.getCall Sample.undated (Sample.params "C2") Sample.fresh) =
    Ok {| call := CallService.formatCall Sample.undatedCall; transcript := None |}.
Proof.
  split.
  - by rewrite (transcript_failure_isolated Sample.transcriptDown
                  (Sample.params "C1") Sample.fresh _
                  {| cr_call := Some Sample.scenarioCall |} Sample.scenarioCall
                  Sample.unavailable eq_refl eq_refl eq_refl eq_refl).
  - by rewrite (transcript_failure_isolated Sample.undated
                  (Sample.params "C2") Sample.fresh _
                  {| cr_call := Some Sample.undatedCall |} Sample.undatedCall
                  RangeError eq_refl eq_refl eq_refl eq_refl).
Defined.

(** When the transcript comes, it is attached and the call says so. *)
Example getCall_with_transcript :
  match fst (CallService.getCall Sample.scenario (Sample.params "C1") Sample.fresh) with
  | Ok r => c_hasTranscript (call r) = true /\ is_Some (transcript r)
  | Throw _ => False
  end.
Proof. vm_compute. eauto. Qed.

(** ** The paginated fetch *)

Section PaginatedFetch.

Import GongApiClient Paging.

Context {T : Type}.
Context (request : string -> string -> gmap string Value -> Result (Response T)).
Context (method path : string) (initialParams : gmap string Value).
Context (cursorKey dataKey : string).

Lemma pageLoop_serves (pages : list (list T)) :
  forall (fuel : nat) (cursor : option Value) (results : list T)
         (log : list (gmap string Value)),
    serves request method path initialParams cursorKey dataKey cursor pages ->
    (length pages <= fuel)%nat ->
    exists asked,
      pageLoop request method path initialParams cursorKey dataKey fuel cursor
               results log
        = Some (Ok (results ++ concat pages)%list, (log ++ asked)%list) /\
      length asked = length pages.
Proof.
  induction pages as [| page rest IH]; intros fuel cursor results log Hserves Hfuel;
    [destruct Hserves |].
  destruct fuel as [| fuel]; [cbn in Hfuel; lia |].
  destruct Hserves as (response & Hanswer & Hdata & Hnext).
  cbn [pageLoop]. rewrite Hanswer, Hdata. cbv zeta.
  destruct rest as [| page' rest].
  - rewrite Hnext. exists [pageParams initialParams cursorKey cursor].
    cbn. by rewrite app_nil_r.
  - destruct Hnext as [Hmore Hrest]. rewrite Hmore.
    destruct (IH fuel _ (results ++ page)%list
                 (log ++ [pageParams initialParams cursorKey cursor])%list Hrest)
      as (asked & Hrun & Hasked); [cbn in Hfuel |- *; lia |].
    exists (pageParams initialParams cursorKey cursor :: asked).
    rewrite Hrun. split; [| cbn; by rewrite Hasked].
    by rewrite <- !app_assoc.
Qed.

Lemma pageLoop_failsAfter (pages : list (list T)) (e : Error) :
  forall (fuel : nat) (cursor : option Value) (results : list T)
         (log : list (gmap string Value)),
    failsAfter request method path initialParams cursorKey dataKey cursor pages e ->
    (length pages < fuel)%nat ->
    exists asked,
      pageLoop request method path initialParams cursorKey dataKey fuel cursor
               results log
        = Some (Throw e, (log ++ asked)%list) /\
      length asked = S (length pages).
Proof.
  induction pages as [| page rest IH]; intros fuel cursor results log Hfails Hfuel;
    (destruct fuel as [| fuel]; [cbn in Hfuel; lia |]); cbn [pageLoop].
  - cbn in Hfails. rewrite Hfails.
    by exists [pageParams initialParams cursorKey cursor].
  - destruct Hfails as (response & Hanswer & Hdata & Hmore & Hrest).
    rewrite Hanswer, Hdata. cbv zeta. rewrite Hmore.
    destruct (IH fuel _ (results ++ page)%list
                 (log ++ [pageParams initialParams cursorKey cursor])%list Hrest)
      as (asked & Hrun & Hasked); [cbn in Hfuel; lia |].
    exists (pageParams initialParams cursorKey cursor :: asked).
    rewrite Hrun. split; [| cbn; by rewrite Hasked].
    by rewrite <- !app_assoc.
Qed.

Lemma pageParams_limit (cursor : option Value) :
  cursorKey <> "limit" ->
  pageParams initialParams cursorKey cursor !! "limit"
    = Some (pageLimit initialParams).
Proof.
  intros Hkey. unfold pageParams. cbv zeta.
  destruct cursor as [c |]; [| apply lookup_insert_eq].
  destruct (truthy (Some c)); [| apply lookup_insert_eq].
  rewrite lookup_insert_ne by done. apply lookup_insert_eq.
Qed.

Lemma pageParams_cursor (c : Value) :
  truthy (Some c) = true ->
  pageParams initialParams cursorKey (Some c) !! cursorKey = Some c.
Proof.
  intros Hc. unfold pageParams. cbv zeta. rewrite Hc. apply lookup_insert_eq.
Qed.

Lemma pageLoop_log (fuel : nat) :
  forall (cursor : option Value) (results : list T)
         (log asked : list (gmap string Value)) (r : Result (list T)),
    pageLoop request method path initialParams cursorKey dataKey fuel cursor
             results log = Some (r, asked) ->
    exists rest,
      asked = (log ++ pageParams initialParams cursorKey cursor :: rest)%list /\
      (cursorKey <> "limit" ->
       Forall (fun q => q !! "limit" = Some (pageLimit initialParams)) rest).
Proof.
  induction fuel as [| fuel IH]; intros cursor results log asked r Hrun;
    [discriminate Hrun |].
  cbn [pageLoop] in Hrun.
  destruct (request method path _) as [response | e].
  - destruct (dataArray dataKey response) as [items | e].
    + cbv zeta in Hrun. destruct (truthy (nextCursor cursorKey response)).
      * apply IH in Hrun as (rest & -> & Hrest).
        eexists. rewrite <- app_assoc. split; [reflexivity |].
        intros Hkey. constructor; [by apply pageParams_limit | by apply Hrest].
      * injection Hrun as <- <-. by exists [].
    + injection Hrun as <- <-. by exists [].
  - injection Hrun as <- <-. by exists [].
Qed.

End PaginatedFetch.

(** X1: when the server hands out its pages one after the other, each
    answer but the last carrying a cursor, [getAllPaginated] returns the
    items of all pages in order and makes one request per page, for every
    fuel that covers the pages. *)
Theorem getAllPaginated_collects_every_page {T : Type}
    (request : string -> string -> gmap string Value ->
               Result (GongApiClient.Response T))
    (method path : string) (initialParams : gmap string Value)
    (cursorKey dataKey : string) (pages : list (list T)) (fuel : nat) :
  Paging.serves request method path initialParams cursorKey dataKey None pages ->
  (length pages <= fuel)%nat ->
  exists asked,
    GongApiClient.getAllPaginated request method path initialParams cursorKey
      dataKey fuel = Some (Ok (concat pages), asked) /\
    length asked = length pages.
Proof.
  intros Hserves Hfuel.
  destruct (pageLoop_serves request method path initialParams cursorKey dataKey
              pages fuel None [] [] Hserves Hfuel) as (asked & Hrun & Hasked).
  by exists asked.
Qed.

Lemma catalog_serves (params : gmap string Value) :
  params !! "cursor" = None ->
  Paging.serves Paging.catalog "GET" "/v2/calls" params "cursor" "calls" None
    (map (map (fun id => Sample.rawCall id []))
         [Paging.firstPage; Paging.secondPage; Paging.thirdPage]).
Proof.
  intros Hfree.
  assert (Hfirst : GongApiClient.pageParams params "cursor" None !! "cursor" = None).
  { unfold GongApiClient.pageParams. cbv zeta. by rewrite lookup_insert_ne. }
  exists (Paging.callsPage Paging.firstPage (Some "p2")).
  split; [unfold Paging.catalog; by rewrite Hfirst |].
  split; [reflexivity |]. split; [reflexivity |].
  change (GongApiClient.nextCursor "cursor"
            (Paging.callsPage Paging.firstPage (Some "p2")))
    with (Some (VStr "p2")).
  exists (Paging.callsPage Paging.secondPage (Some "p3")).
  split; [unfold Paging.catalog; by rewrite pageParams_cursor |].
  split; [reflexivity |]. split; [reflexivity |].
  change (GongApiClient.nextCursor "cursor"
            (Paging.callsPage Paging.secondPage (Some "p3")))
    with (Some (VStr "p3")).
  exists (Paging.callsPage Paging.thirdPage None).
  split; [unfold Paging.catalog; by rewrite pageParams_cursor |].
  split; reflexivity.
Qed.

Lemma getAllPaginated_collects_every_page_witness :
  exists asked,
    GongApiClient.getAllCalls Paging.catalog ∅ 10
      = Some (Ok (map (fun id => Sample.rawCall id [])
                      (Paging.firstPage ++ Paging.secondPage ++ Paging.thirdPage)),
              asked) /\
    length asked = 3%nat.
Proof.
  destruct (getAllPaginated_collects_every_page Paging.catalog "GET" "/v2/calls"
              ∅ "cursor" "calls" _ 10 (catalog_serves ∅ (lookup_empty _)))
    as (asked & Hrun & Hasked); [cbn; lia |].
  exists asked. split; [exact Hrun | exact Hasked].
Defined.

(** X2: when the server fails after some pages, [getAllPaginated] throws
    that error and returns none of the items fetched before, having made
    one request per page handed out and the failed one. *)
Theorem getAllPaginated_aborts_on_failure {T : Type}
    (request : string -> string -> gmap string Value ->
               Result (GongApiClient.Response T))
    (method path : string) (initialParams : gmap string Value)
    (cursorKey dataKey : string) (pages : list (list T)) (e : Error)
    (fuel : nat) :
  Paging.failsAfter request method path initialParams cursorKey dataKey None
    pages e ->
  (length pages < fuel)%nat ->
  exists asked,
    GongApiClient.getAllPaginated request method path initialParams cursorKey
      dataKey fuel = Some (Throw e, asked) /\
    length asked = S (length pages).
Proof.
  intros Hfails Hfuel.
  destruct (pageLoop_failsAfter request method path initialParams cursorKey
              dataKey pages e fuel None [] [] Hfails Hfuel)
    as (asked & Hrun & Hasked).
  by exists asked.
Qed.

Lemma brokenCatalog_fails (params : gmap string Value) :
  params !! "cursor" = None ->
  Paging.failsAfter Paging.brokenCatalog "GET" "/v2/calls" params "cursor" "calls"
    None
    (map (map (fun id => Sample.rawCall id []))
         [Paging.firstPage; Paging.secondPage])
    (UpstreamError "503").
Proof.
  intros Hfree.
  assert (Hfirst : GongApiClient.pageParams params "cursor" None !! "cursor" = None).
  { unfold GongApiClient.pageParams. cbv zeta. by rewrite lookup_insert_ne. }
  exists (Paging.callsPage Paging.firstPage (Some "p2")).
  split; [unfold Paging.brokenCatalog; by rewrite Hfirst |].
  split; [reflexivity |]. split; [reflexivity |].
  change (GongApiClient.nextCursor "cursor"
            (Paging.callsPage Paging.firstPage (Some "p2")))
    with (Some (VStr "p2")).
  exists (Paging.callsPage Paging.secondPage (Some "p3")).
  split; [unfold Paging.brokenCatalog; by rewrite pageParams_cursor |].
  split; [reflexivity |]. split; [reflexivity |].
  change (Paging.brokenCatalog "GET" "/v2/calls"
            (GongApiClient.pageParams params "cursor" (Some (VStr "p3")))
          = Throw (UpstreamError "503")).
  unfold Paging.brokenCatalog. by rewrite pageParams_cursor.
Qed.

Lemma getAllPaginated_aborts_on_failure_witness :
  exists asked,
    GongApiClient.getAllCalls Paging.brokenCatalog ∅ 10
      = Some (Throw (UpstreamError "503"), asked) /\
    length asked = 3%nat.
Proof.
  destruct (getAllPaginated_aborts_on_failure Paging.brokenCatalog "GET"
              "/v2/calls" ∅ "cursor" "calls" _ (UpstreamError "503") 10
              (brokenCatalog_fails ∅ (lookup_empty _)))
    as (asked & Hrun & Hasked); [cbn; lia |].
  exists asked. split; [exact Hrun | exact Hasked].
Defined.

(** X3: whatever the server answers, the first request of
    [getAllPaginated] carries the caller's parameters with the page size and
    no cursor of its own, and every request carries the same page size: the
    caller's [limit] when it is truthy, else 100. *)
Theorem getAllPaginated_page_size {T : Type}
    (request : string -> string -> gmap string Value ->
               Result (GongApiClient.Response T))
    (method path : string) (initialParams : gmap string Value)
    (cursorKey dataKey : string) (fuel : nat) (r : Result (list T))
    (asked : list (gmap string Value)) :
  GongApiClient.getAllPaginated request method path initialParams cursorKey
    dataKey fuel = Some (r, asked) ->
  cursorKey <> "limit" ->
  head asked = Some (<["limit" := GongApiClient.pageLimit initialParams]> initialParams) /\
  Forall (fun q => q !! "limit" = Some (GongApiClient.pageLimit initialParams))
         asked /\
  (GongApiClient.truthy (initialParams !! "limit") = false ->
   GongApiClient.pageLimit initialParams = VNum 100) /\
  (GongApiClient.truthy (initialParams !! "limit") = true ->
   Some (GongApiClient.pageLimit initialParams) = initialParams !! "limit").
Proof.
  intros Hrun Hkey.
  apply pageLoop_log in Hrun as (rest & -> & Hrest).
  split; [reflexivity |]. split.
  - constructor; [| by apply Hrest].
    by apply (pageParams_limit initialParams cursorKey None).
  - unfold GongApiClient.pageLimit. cbn [GongApiClient.firstTruthy].
    split; intros Hlimit; rewrite Hlimit; [reflexivity |].
    destruct (initialParams !! "limit"); [reflexivity | discriminate Hlimit].
Qed.

Lemma getAllPaginated_page_size_witness :
  match GongApiClient.getAllCalls Paging.catalog
          (CallService.listParams Paging.fiveAtATime) 10 with
  | Some (_, asked) =>
      Forall (fun q => q !! "limit" = Some (VNum 5)) asked
  | None => False
  end /\
  match GongApiClient.getAllUsers
          (fun _ _ _ => Ok (GongApiClient.RArray [Sample.bob])) 1 with
  | Some (_, asked) => head asked = Some {[ "limit" := VNum 100 ]}
  | None => False
  end.
Proof.
  split.
  - destruct (GongApiClient.getAllCalls Paging.catalog
                (CallService.listParams Paging.fiveAtATime) 10)
      as [[r asked] |] eqn:Hrun; [| discriminate Hrun].
    destruct (getAllPaginated_page_size _ _ _ _ _ _ _ _ _ Hrun)
      as (_ & Hall & _ & Hmine); [discriminate |].
    specialize (Hmine eq_refl). exact Hall.
  - destruct (GongApiClient.getAllUsers _ 1) as [[r asked] |] eqn:Hrun;
      [| discriminate Hrun].
    destruct (getAllPaginated_page_size _ _ _ _ _ _ _ _ _ Hrun)
      as (Hhead & _ & Hdefault & _); [discriminate |].
    rewrite Hdefault in Hhead by reflexivity. exact Hhead.
Defined.

(** X4: [getAllPaginated] stops only on an answer without a truthy cursor
    or on a failure: against a server whose every answer is readable and
    carries a cursor it makes request after request and never returns,
    whatever the fuel. *)
Theorem getAllPaginated_needs_a_last_page {T : Type}
    (request : string -> string -> gmap string Value ->
               Result (GongApiClient.Response T))
    (method path : string) (initialParams : gmap string Value)
    (cursorKey dataKey : string) :
  (forall params, exists response items,
     request method path params = Ok response /\
     GongApiClient.dataArray dataKey response = Ok items /\
     GongApiClient.truthy (GongApiClient.nextCursor cursorKey response) = true) ->
  forall fuel,
    GongApiClient.getAllPaginated request method path initialParams cursorKey
      dataKey fuel = None.
Proof.
  intros Hmore fuel. unfold GongApiClient.getAllPaginated.
  generalize (@nil T) (@nil (gmap string Value)) (@None Value).
  induction fuel as [| fuel IH]; intros results log cursor; [reflexivity |].
  cbn [GongApiClient.pageLoop].
  destruct (Hmore (GongApiClient.pageParams initialParams cursorKey cursor))
    as (response & items & -> & -> & Hcursor).
  cbv zeta. rewrite Hcursor. apply IH.
Qed.

Lemma getAllPaginated_needs_a_last_page_witness :
  GongApiClient.getAllCalls Paging.looping ∅ 1000 = None.
Proof.
  apply (getAllPaginated_needs_a_last_page Paging.looping "GET" "/v2/calls" ∅
           "cursor" "calls").
  intros params. exists (Paging.callsPage Paging.firstPage (Some "again")).
  eexists. split; [reflexivity |]. split; reflexivity.
Defined.

(** ** The call catalog *)

Lemma formatCall_title (raw : RawCall) : c_title (CallService.formatCall raw) <> "".
Proof.
  cbn. destruct (rc_title raw) as [t |]; cbn; [| discriminate].
  by destruct (String.eqb_spec t "").
Qed.

(** X5: [listCalls] returns one normalised call for every record of every
    page the server hands out, in the server's order, with the records' ids
    and never an empty title; the [limit] it was given is the page size of
    the requests and does not cap the list.  When the server fails on a
    later page, [listCalls] throws that error and returns no call. *)
Theorem listCalls_returns_every_page
    (request : string -> string -> gmap string Value ->
               Result (GongApiClient.Response RawCall))
    (params : ListCallsParams) (fuel : nat) (pages : list (list RawCall)) :
  (Paging.serves request "GET" "/v2/calls" (CallService.listParams params)
     "cursor" "calls" None pages ->
   (length pages <= fuel)%nat ->
   exists calls,
     CallService.listCalls request (Some params) fuel = Some (Ok calls) /\
     calls = map CallService.formatCall (concat pages) /\
     map c_id calls = map rc_id (concat pages) /\
     Forall (fun c => c_title c <> "") calls) /\
  (forall e,
     Paging.failsAfter request "GET" "/v2/calls" (CallService.listParams params)
       "cursor" "calls" None pages e ->
     (length pages < fuel)%nat ->
     CallService.listCalls request (Some params) fuel = Some (Throw e)).
Proof.
  split.
  - intros Hserves Hfuel.
    destruct (pageLoop_serves request "GET" "/v2/calls"
                (CallService.listParams params) "cursor" "calls" pages fuel
                None [] [] Hserves Hfuel) as (asked & Hrun & _).
    exists (map CallService.formatCall (concat pages)).
    unfold CallService.listCalls, GongApiClient.getAllCalls,
      GongApiClient.getAllPaginated. rewrite Hrun.
    split; [reflexivity |]. split; [reflexivity |]. split.
    + by rewrite map_map.
    + apply Forall_forall. intros c (raw & <- & _)%list_elem_of_In%in_map_iff.
      apply formatCall_title.
  - intros e Hfails Hfuel.
    destruct (pageLoop_failsAfter request "GET" "/v2/calls"
                (CallService.listParams params) "cursor" "calls" pages e fuel
                None [] [] Hfails Hfuel) as (asked & Hrun & _).
    unfold CallService.listCalls, GongApiClient.getAllCalls,
      GongApiClient.getAllPaginated. by rewrite Hrun.
Qed.

Lemma listCalls_returns_every_page_witness :
  (exists calls,
     CallService.listCalls Paging.catalog (Some Paging.fiveAtATime) 10
       = Some (Ok calls) /\
     length calls = 12%nat) /\
  CallService.listCalls Paging.brokenCatalog (Some Paging.fiveAtATime) 10
    = Some (Throw (UpstreamError "503")).
Proof.
  assert (Hfree : CallService.listParams Paging.fiveAtATime !! "cursor" = None)
    by (unfold CallService.listParams; cbn; by rewrite lookup_insert_ne).
  split.
  - destruct (listCalls_returns_every_page Paging.catalog Paging.fiveAtATime 10
                (map (map (fun id => Sample.rawCall id []))
                     [Paging.firstPage; Paging.secondPage; Paging.thirdPage]))
      as [Hall _].
    destruct (Hall (catalog_serves _ Hfree)) as (calls & Hrun & -> & _);
      [cbn; lia |].
    eexists. split; [exact Hrun | reflexivity].
  - destruct (listCalls_returns_every_page Paging.brokenCatalog
                Paging.fiveAtATime 10
                (map (map (fun id => Sample.rawCall id []))
                     [Paging.firstPage; Paging.secondPage]))
      as [_ Hfail].
    apply Hfail; [by apply brokenCatalog_fails | cbn; lia].
Defined.

(** ** [getCall] beyond the failing transcript *)

Lemma getCall_unfold (w : World) (params : GetCallParams) (st : State) :
  CallService.getCall w params st =
    let st1 := record (EvGetCall (callId params)) st in
    match w_getCall w (history st) (callId params) with
    | Throw e => (Throw e, st1)
    | Ok callResponse =>
        match cr_call callResponse with
        | None => (Throw TypeError, st1)
        | Some rc =>
            if default false (includeTranscript params)
            then
              match TranscriptService.getFormattedTranscript w (callId params)
                      (default concise (transcriptFormat params))
                      (default 0%Z (maxSegments params))
                      (default 0%Z (maxSentences params)) st1 with
              | (Ok result, st') =>
                  (Ok {| call :=
                           match CallService.transcriptParticipants result with
                           | Some ps =>
                               CallService.setParticipants ps
                                 (CallService.setHasTranscript true
                                    (CallService.formatCall rc))
                           | None =>
                               CallService.setHasTranscript true
                                 (CallService.formatCall rc)
                           end;
                         transcript := Some result |}, st')
              | (Throw _, st') =>
                  (Ok {| call := CallService.formatCall rc; transcript := None |},
                   st')
              end
            else (Ok {| call := CallService.formatCall rc; transcript := None |},
                  st1)
        end
    end.
Proof.
  unfold CallService.getCall, CallService.attachTranscript, try_catch,
    mbind, M_bind, throw.
  rewrite ask_run. cbv zeta.
  destruct (w_getCall w _ _) as [callResponse | e]; [| reflexivity].
  destruct (cr_call callResponse) as [rc |]; [| reflexivity].
  cbn [TranscriptService.defined]. unfold mret, M_ret.
  destruct (default false (includeTranscript params)); [| reflexivity].
  cbv beta iota.
  destruct (TranscriptService.getFormattedTranscript w _ _ _ _ _)
    as [[result | e] st']; reflexivity.
Qed.

(** X6: asked for no transcript, [getCall] makes the one call request and
    nothing else: the cache and its timestamp are untouched, the answer is
    the normalised call without a transcript, and a failed call fetch is
    thrown on as it is. *)
Theorem getCall_without_transcript (w : World) (params : GetCallParams)
    (st : State) :
  default false (includeTranscript params) = false ->
  snd (CallService.getCall w params st) = record (EvGetCall (callId params)) st /\
  (forall callResponse rc,
     w_getCall w (history st) (callId params) = Ok callResponse ->
     cr_call callResponse = Some rc ->
     fst (CallService.getCall w params st) =
       Ok {| call := CallService.formatCall rc; transcript := None |}) /\
  (forall e,
     w_getCall w (history st) (callId params) = Throw e ->
     fst (CallService.getCall w params st) = Throw e).
Proof.
  intros Hplain. rewrite getCall_unfold. cbv zeta. rewrite Hplain.
  destruct (w_getCall w _ _) as [callResponse | e].
  - destruct (cr_call callResponse) as [rc |] eqn:Hrc; cbn.
    + split; [reflexivity |]. split; [| discriminate].
      intros ? ? [= <-] Hrc'. rewrite Hrc in Hrc'. by injection Hrc' as <-.
    + split; [reflexivity |]. split; [| discriminate].
      intros ? ? [= <-] Hrc'. rewrite Hrc in Hrc'. discriminate Hrc'.
  - cbn. split; [reflexivity |]. split; [discriminate |]. by intros ? [= <-].
Qed.

Lemma getCall_without_transcript_witness :
  let params := {| callId := "C1"; includeTranscript := Some false;
                   transcriptFormat := Some raw; maxSegments := Some 3%Z;
                   maxSentences := None |} in
  CallService.getCall Sample.scenario params Sample.fresh =
    (Ok {| call := CallService.formatCall Sample.scenarioCall; transcript := None |},
     record (EvGetCall "C1") Sample.fresh) /\
  fst (CallService.getCall
         (Sample.world 1000 (Ok []) (Throw Sample.unavailable)
                       (Throw Sample.unavailable))
         params Sample.fresh) = Throw Sample.unavailable.
Proof.
  intros params. split.
  - destruct (getCall_without_transcript Sample.scenario params Sample.fresh
                eq_refl) as (Hstate & Hok & _).
    rewrite (surjective_pairing (CallService.getCall _ _ _)), Hstate.
    by rewrite (Hok {| cr_call := Some Sample.scenarioCall |}
                    Sample.scenarioCall eq_refl eq_refl).
  - destruct (getCall_without_transcript
                (Sample.world 1000 (Ok []) (Throw Sample.unavailable)
                              (Throw Sample.unavailable))
                params Sample.fresh eq_refl) as (_ & _ & Hfail).
    exact (Hfail Sample.unavailable eq_refl).
Defined.

(** X7: whatever was asked for, a failed call fetch makes [getCall] throw
    that error after its one request, and an answer without a call record
    makes it throw a [TypeError]; the transcript is not asked for. *)
Theorem getCall_needs_the_call (w : World) (params : GetCallParams) (st : State) :
  (forall e,
     w_getCall w (history st) (callId params) = Throw e ->
     CallService.getCall w params st =
       (Throw e, record (EvGetCall (callId params)) st)) /\
  (forall callResponse,
     w_getCall w (history st) (callId params) = Ok callResponse ->
     cr_call callResponse = None ->
     CallService.getCall w params st =
       (Throw TypeError, record (EvGetCall (callId params)) st)).
Proof.
  split.
  - intros e Hcall. by rewrite getCall_unfold, Hcall.
  - intros callResponse Hcall Hnone. by rewrite getCall_unfold, Hcall, Hnone.
Qed.

Lemma getCall_needs_the_call_witness :
  CallService.getCall
    (Sample.world 1000 (Ok [Sample.bob]) (Throw Sample.unavailable)
                  (Ok (Sample.documented Sample.scenarioSegments)))
    (Sample.params "C1") Sample.fresh
    = (Throw Sample.unavailable, record (EvGetCall "C1") Sample.fresh) /\
  CallService.getCall
    (Sample.world 1000 (Ok [Sample.bob]) (Ok {| cr_call := None |})
                  (Ok (Sample.documented Sample.scenarioSegments)))
    (Sample.params "C1") Sample.fresh
    = (Throw TypeError, record (EvGetCall "C1") Sample.fresh).
Proof.
  split.
  - destruct (getCall_needs_the_call
                (Sample.world 1000 (Ok [Sample.bob]) (Throw Sample.unavailable)
                              (Ok (Sample.documented Sample.scenarioSegments)))
                (Sample.params "C1") Sample.fresh) as [Hfail _].
    exact (Hfail Sample.unavailable eq_refl).
  - destruct (getCall_needs_the_call
                (Sample.world 1000 (Ok [Sample.bob]) (Ok {| cr_call := None |})
                              (Ok (Sample.documented Sample.scenarioSegments)))
                (Sample.params "C1") Sample.fresh) as [_ Hnone].
    exact (Hnone {| cr_call := None |} eq_refl eq_refl).
Defined.

(** X8: when the transcript comes, [getCall] returns it and marks the call
    as having a transcript whatever the call record said; with a grouped
    transcript that lists participants, the call's participants are replaced
    by that list, which carries the names, companies and roles of the
    transcript's participants, in order, but no id and no e-mail address;
    with a raw transcript, or a grouped one without participants, they stay
    as normalised.  The other fields of the call are those of the normalised
    record. *)
Theorem getCall_attaches_transcript (w : World) (params : GetCallParams)
    (st st' : State) (callResponse : CallResponse) (rc : RawCall)
    (result : TranscriptResult) :
  includeTranscript params = Some true ->
  w_getCall w (history st) (callId params) = Ok callResponse ->
  cr_call callResponse = Some rc ->
  TranscriptService.getFormattedTranscript w (callId params)
    (default concise (transcriptFormat params))
    (default 0%Z (maxSegments params)) (default 0%Z (maxSentences params))
    (record (EvGetCall (callId params)) st) = (Ok result, st') ->
  exists c,
    CallService.getCall w params st =
      (Ok {| call := c; transcript := Some result |}, st') /\
    c_hasTranscript c = true /\
    CallService.setParticipants (c_participants (CallService.formatCall rc))
      (CallService.setHasTranscript (rc_transcript rc) c)
      = CallService.formatCall rc /\
    match result with
    | Formatted t =>
        match fc_participants (ft_call t) with
        | Some views =>
            map p_name (c_participants c) = map (fun v => Some (sv_name v)) views /\
            map p_company (c_participants c) = map sv_company views /\
            map p_role (c_participants c) = map sv_role views /\
            Forall (fun p => p_id p = None /\ p_email p = None) (c_participants c)
        | None => c_participants c = c_participants (CallService.formatCall rc)
        end
    | Raw _ => c_participants c = c_participants (CallService.formatCall rc)
    end.
Proof.
  intros Hinclude Hcall Hraw Hrun.
  rewrite getCall_unfold. cbv zeta. rewrite Hcall, Hraw, Hinclude, Hrun.
  cbn [default from_option Datatypes.id].
  eexists. split; [reflexivity |].
  destruct result as [t | t]; cbn [CallService.transcriptParticipants].
  - destruct (fc_participants (ft_call t)) as [views |]; cbn [option_map].
    + split; [reflexivity |]. split; [reflexivity |]. cbn.
      split; [by rewrite map_map |]. split; [by rewrite map_map |].
      split; [by rewrite map_map |].
      apply Forall_forall. by intros p (v & <- & _)%list_elem_of_In%in_map_iff.
    + split; [reflexivity |]. split; reflexivity.
  - split; [reflexivity |]. split; reflexivity.
Qed.

Lemma getCall_attaches_transcript_witness :
  exists c result,
    fst (CallService.getCall Sample.scenario (Sample.params "C1") Sample.fresh)
      = Ok {| call := c; transcript := Some result |} /\
    c_hasTranscript c = true /\
    rc_transcript Sample.scenarioCall = false /\
    c_participants c =
      [ {| p_id := None; p_name := Some "Alice"; p_firstName := None;
           p_lastName := None; p_email := None; p_role := Some "Unknown";
           p_company := Some "Unknown" |} ].
Proof.
  destruct (TranscriptService.getFormattedTranscript Sample.scenario "C1" concise
              0 0 (record (EvGetCall "C1") Sample.fresh))
    as [[result | e] st'] eqn:Hrun; [| discriminate Hrun].
  destruct (getCall_attaches_transcript Sample.scenario (Sample.params "C1")
              Sample.fresh st' {| cr_call := Some Sample.scenarioCall |}
              Sample.scenarioCall result eq_refl eq_refl eq_refl Hrun)
    as (c & Hcall & Hflag & _ & _).
  exists c, result. rewrite Hcall. split; [reflexivity |].
  split; [exact Hflag |]. split; [reflexivity |].
  injection Hrun as <- <-. vm_compute in Hcall. injection Hcall as <-.
  reflexivity.
Defined.

(** ** Timestamps *)

Lemma string_length_app (s t : string) :
  String.length (s ++ t) = (String.length s + String.length t)%nat.
Proof. induction s as [| c s IH]; simpl; [reflexivity | by f_equal]. Qed.

Lemma string_app_inj (s1 s2 t1 t2 : string) :
  String.length s1 = String.length s2 ->
  (s1 ++ t1 = s2 ++ t2)%string -> s1 = s2 /\ t1 = t2.
Proof.
  revert s2. induction s1 as [| c s1 IH]; intros [| c' s2] Hlen Heq;
    try discriminate Hlen; [done |].
  cbn in Heq. injection Heq as -> Heq.
  destruct (IH s2) as [-> ->]; [by injection Hlen | exact Heq | done].
Qed.

(** The seconds field of a timestamp, for a whole number of seconds below
    sixty. *)
Lemma seconds_field (a : nat) :
  (a < 60)%nat ->
  String.length (JS.padStart2 (JS.toString (Z.of_nat a))) = 2%nat.
Proof.
  intros Ha. do 60 (destruct a as [| a]; [reflexivity |]). lia.
Qed.

Lemma seconds_field_inj (a b : nat) :
  (a < 60)%nat -> (b < 60)%nat ->
  JS.padStart2 (JS.toString (Z.of_nat a)) = JS.padStart2 (JS.toString (Z.of_nat b)) ->
  a = b.
Proof.
  intros Ha Hb Heq.
  assert (Hall : forallb (fun x =>
                   forallb (fun y =>
                     implb (String.eqb (JS.padStart2 (JS.toString (Z.of_nat x)))
                                       (JS.padStart2 (JS.toString (Z.of_nat y))))
                           (x =? y)%nat)
                     (seq 0 60)) (seq 0 60) = true) by (vm_compute; reflexivity).
  rewrite forallb_forall in Hall.
  specialize (Hall a). rewrite forallb_forall in Hall.
  specialize (Hall ltac:(apply in_seq; lia) b ltac:(apply in_seq; lia)).
  rewrite Heq, String.eqb_refl in Hall. cbn in Hall. by apply Nat.eqb_eq.
Qed.

Lemma formatMilliseconds_seconds (ms : Z) :
  (0 <= ms)%Z ->
  TranscriptService.formatMilliseconds ms =
    (JS.toString (ms / 1000 / 60) ++ ":" ++
     JS.padStart2 (JS.toString (Z.of_nat (Z.to_nat ((ms / 1000) mod 60)))))%string /\
  (Z.to_nat ((ms / 1000) mod 60) < 60)%nat.
Proof.
  intros Hms. unfold TranscriptService.formatMilliseconds. cbv zeta.
  assert (Hmod : (0 <= (ms / 1000) mod 60 < 60)%Z) by (apply Z.mod_pos_bound; lia).
  split; [| lia].
  rewrite Z.rem_mod_nonneg by lia.
  rewrite Z2Nat.id by lia.
  replace (ms / 60000)%Z with (ms / 1000 / 60)%Z
    by (rewrite Z.div_div by lia; reflexivity).
  replace (ms mod 60000 / 1000)%Z with ((ms / 1000) mod 60)%Z; [reflexivity |].
  change 60000%Z with (1000 * 60)%Z. rewrite Z.rem_mul_r by lia.
  rewrite (Z.mul_comm 1000), Z.div_add by lia.
  rewrite (Z.div_small (ms mod 1000)) by (apply Z.mod_pos_bound; lia). lia.
Qed.

(** X9: for a non-negative offset, [formatMilliseconds] writes the whole
    minutes, a colon and exactly two characters of seconds, and it tells two
    offsets apart exactly when they lie in different seconds. *)
Theorem formatMilliseconds_whole_seconds (ms ms' : Z) :
  (0 <= ms)%Z -> (0 <= ms')%Z ->
  String.length (TranscriptService.formatMilliseconds ms) =
    (String.length (JS.toString (ms / 60000)) + 3)%nat /\
  (TranscriptService.formatMilliseconds ms = TranscriptService.formatMilliseconds ms'
   <-> (ms / 1000 = ms' / 1000)%Z).
Proof.
  intros Hms Hms'.
  destruct (formatMilliseconds_seconds ms Hms) as [Hfmt Hsec].
  destruct (formatMilliseconds_seconds ms' Hms') as [Hfmt' Hsec'].
  split.
  - rewrite Hfmt, !string_length_app, seconds_field by exact Hsec.
    rewrite Z.div_div by lia. reflexivity.
  - split.
    + rewrite Hfmt, Hfmt'. intros Heq.
      assert (Hlen : String.length (JS.toString (ms / 1000 / 60)) =
                     String.length (JS.toString (ms' / 1000 / 60))).
      { apply (f_equal String.length) in Heq.
        rewrite !string_length_app, !seconds_field in Heq by assumption. lia. }
      apply string_app_inj in Heq as [Hmin Hrest]; [| exact Hlen].
      apply (inj pretty) in Hmin.
      injection Hrest as Hrest. apply seconds_field_inj in Hrest; [| lia..].
      assert (Hmod : ((ms / 1000) mod 60 = (ms' / 1000) mod 60)%Z).
      { apply Z2Nat.inj; [apply Z.mod_pos_bound; lia.. | exact Hrest]. }
      rewrite (Z.div_mod (ms / 1000) 60), (Z.div_mod (ms' / 1000) 60) by lia.
      by rewrite Hmin, Hmod.
    + intros Heq. by rewrite Hfmt, Hfmt', Heq.
Qed.

Lemma formatMilliseconds_whole_seconds_witness :
  TranscriptService.formatMilliseconds 65000
    = TranscriptService.formatMilliseconds 65999 /\
  TranscriptService.formatMilliseconds 65999
    <> TranscriptService.formatMilliseconds 66000.
Proof.
  destruct (formatMilliseconds_whole_seconds 65000 65999) as [_ Hsame]; [lia.. |].
  destruct (formatMilliseconds_whole_seconds 65999 66000) as [_ Hnext]; [lia.. |].
  split; [by apply Hsame |]. intros Heq. apply Hnext in Heq. discriminate Heq.
Defined.

Lemma Forall2_map_intro {A B} (P : A -> B -> Prop) (f : A -> B) (l : list A) :
  (forall x, P x (f x)) -> Forall2 P l (map f l).
Proof. intros Hf. induction l; cbn; constructor; auto. Qed.

Lemma Forall2_map_eq {A B C} (P : A -> B -> Prop) (f : B -> C) (g : A -> C)
    (l : list A) (l' : list B) :
  (forall a b, P a b -> f b = g a) -> Forall2 P l l' -> map f l' = map g l.
Proof. intros Hfg. induction 1; cbn; [reflexivity |]. f_equal; auto. Qed.

(** X10: the raw format takes no notice of [maxSegments] and
    [maxSentences], and its transcript has one entry per segment of the
    accessor's answer, in order, with the segment's speaker id, every
    sentence with its start and text, and each sentence's timestamp the
    formatted start. *)
Theorem raw_format_keeps_every_segment (w : World) (callId : string)
    (maxSegments maxSentences : Z) (st : State) :
  TranscriptService.getFormattedTranscript w callId raw maxSegments maxSentences st
    = TranscriptService.getFormattedTranscript w callId raw 0 0 st /\
  forall t st' response,
    TranscriptService.getFormattedTranscript w callId raw maxSegments
      maxSentences st = (Ok (Raw t), st') ->
    w_getTranscripts w (history st ++ [EvGetCall callId]) [callId] = Ok response ->
    Forall2 (fun segment entry =>
               pseg_speakerId entry = speakerId segment /\
               Forall2 (fun sentence shown =>
                          ps_start shown = start sentence /\
                          ps_text shown = text sentence /\
                          ps_timestamp shown =
                            TranscriptService.formatMilliseconds (start sentence))
                       (sentences segment) (pseg_sentences entry))
            (TranscriptService.transcriptOf response) (rt_transcript t).
Proof.
  split; [by rewrite !getFormattedTranscript_unfold |].
  intros t st' response Hrun Hresponse.
  apply getFormattedTranscript_ok in Hrun
    as (callResponse & rc & response' & speakerMap & date &
        _ & _ & Hresponse' & _ & Hresult).
  rewrite Hresponse in Hresponse'. injection Hresponse' as <-.
  injection Hresult as ->. cbn [rt_transcript TranscriptService.rawTranscript].
  apply Forall2_map_intro. intros segment. split; [reflexivity |].
  cbn [pseg_sentences TranscriptService.processSegment].
  by apply Forall2_map_intro.
Qed.

Lemma raw_format_keeps_every_segment_witness :
  match fst (TranscriptService.getFormattedTranscript Sample.scenario "C1" raw
               1 1 Sample.fresh) with
  | Ok (Raw t) =>
      map pseg_speakerId (rt_transcript t) = ["p1"; "p2"; "zz9"]
  | _ => False
  end.
Proof.
  destruct (raw_format_keeps_every_segment Sample.scenario "C1" 1 1 Sample.fresh)
    as [_ Hkeeps].
  destruct (TranscriptService.getFormattedTranscript Sample.scenario "C1" raw
              1 1 Sample.fresh) as [[[t | t] | e] st'] eqn:Hrun;
    try discriminate Hrun.
  specialize (Hkeeps t st' (Sample.documented Sample.scenarioSegments)
                eq_refl eq_refl).
  cbn [fst].
  rewrite (Forall2_map_eq _ pseg_speakerId speakerId _ _
             (fun a b H => proj1 H) Hkeeps).
  reflexivity.
Defined.

(** ** Time ranges *)

Lemma foldl_min_spec (first : Z) (others : list Z) :
  In (foldl Z.min first others) (first :: others) /\
  forall s, In s (first :: others) -> (foldl Z.min first others <= s)%Z.
Proof.
  revert first. induction others as [| x others IH]; intros first; cbn [foldl].
  - split; [by left |]. intros s [<- | []]. lia.
  - destruct (IH (Z.min first x)) as [Hin Hle]. split.
    + destruct Hin as [Heq | Hin]; [| right; by right].
      rewrite <- Heq. destruct (Z.min_spec first x) as [[_ ->] | [_ ->]];
        [by left | right; by left].
    + intros s [<- | [<- | Hs]].
      * specialize (Hle (Z.min first x) (or_introl eq_refl)). lia.
      * specialize (Hle (Z.min first x) (or_introl eq_refl)). lia.
      * apply Hle. by right.
Qed.

Lemma foldl_max_spec (first : Z) (others : list Z) :
  In (foldl Z.max first others) (first :: others) /\
  forall s, In s (first :: others) -> (s <= foldl Z.max first others)%Z.
Proof.
  revert first. induction others as [| x others IH]; intros first; cbn [foldl].
  - split; [by left |]. intros s [<- | []]. lia.
  - destruct (IH (Z.max first x)) as [Hin Hle]. split.
    + destruct Hin as [Heq | Hin]; [| right; by right].
      rewrite <- Heq. destruct (Z.max_spec first x) as [[_ ->] | [_ ->]];
        [right; by left | by left].
    + intros s [<- | [<- | Hs]].
      * specialize (Hle (Z.max first x) (or_introl eq_refl)). lia.
      * specialize (Hle (Z.max first x) (or_introl eq_refl)). lia.
      * apply Hle. by right.
Qed.

(** X11: the time range of a section whose segments have at least one
    sentence runs from the formatted earliest to the formatted latest
    sentence start of the topic, both of them starts of its sentences,
    whatever the order of the sentences; a section without any sentence gets
    the range "Infinity:NaN - -Infinity:NaN". *)
Theorem timeRange_spans_the_topic (speakerMap : SpeakerMap) (maxSentences : Z)
    (entry : string * list GongTranscriptSegment) :
  let starts := TranscriptService.sentenceStarts (snd entry) in
  let section := TranscriptService.makeSection speakerMap maxSentences entry in
  (starts = [] -> sec_timeRange section = "Infinity:NaN - -Infinity:NaN") /\
  (starts <> [] ->
   exists earliest latest,
     In earliest starts /\ In latest starts /\
     (forall s, In s starts -> (earliest <= s <= latest)%Z) /\
     sec_timeRange section =
       (TranscriptService.formatMilliseconds earliest ++ " - " ++
        TranscriptService.formatMilliseconds latest)%string).
Proof.
  cbv zeta. cbn [sec_timeRange TranscriptService.makeSection].
  destruct (TranscriptService.sentenceStarts (snd entry)) as [| first others].
  - split; [reflexivity | done].
  - split; [discriminate |]. intros _.
    destruct (foldl_min_spec first others) as [Hmin Hlow].
    destruct (foldl_max_spec first others) as [Hmax Hhigh].
    exists (foldl Z.min first others), (foldl Z.max first others).
    split; [exact Hmin |]. split; [exact Hmax |]. split; [| reflexivity].
    intros s Hs. split; [by apply Hlow | by apply Hhigh].
Qed.

Lemma timeRange_spans_the_topic_witness :
  sec_timeRange
    (TranscriptService.makeSection ∅ 1
       ("A", [Sample.segment "p1" (Some "A") [(61000%Z, "late"); (5000%Z, "early")];
              Sample.segment "p2" (Some "A") [(30000%Z, "between")]]))
    = "0:05 - 1:01" /\
  sec_timeRange
    (TranscriptService.makeSection ∅ 0 ("B", [Sample.segment "p1" (Some "B") []]))
    = "Infinity:NaN - -Infinity:NaN".
Proof.
  split.
  - destruct (timeRange_spans_the_topic ∅ 1
                ("A", [Sample.segment "p1" (Some "A")
                         [(61000%Z, "late"); (5000%Z, "early")];
                       Sample.segment "p2" (Some "A") [(30000%Z, "between")]]))
      as [_ Hspan].
    destruct Hspan as (earliest & latest & Hearly & Hlate & Hall & ->);
      [discriminate |].
    cbn in Hearly, Hlate, Hall.
    pose proof (Hall 5000%Z ltac:(tauto)) as Hlow.
    pose proof (Hall 61000%Z ltac:(tauto)) as Hhigh.
    assert (earliest = 5000%Z) as -> by (destruct Hearly as [<- | [<- | [<- | []]]]; lia).
    assert (latest = 61000%Z) as -> by (destruct Hlate as [<- | [<- | [<- | []]]]; lia).
    reflexivity.
  - destruct (timeRange_spans_the_topic ∅ 0
                ("B", [Sample.segment "p1" (Some "B") []])) as [Hnone _].
    by apply Hnone.
Defined.

(** ** The order of the sections *)

Section SortOrder.

Context {A : Type} (compareFn : A -> A -> Z).

Lemma insertSorted_sorted (x : A) (l : list A) :
  Props.strictOrder compareFn ->
  StronglySorted (Props.precedes compareFn) l ->
  StronglySorted (Props.precedes compareFn) (JSArray.insertSorted compareFn x l).
Proof.
  intros [Htrans Hirrefl]. induction 1 as [| y l Hsorted IH Hall]; cbn.
  - repeat constructor.
  - destruct (Z.ltb_spec (compareFn x y) 0) as [Hlt | Hge].
    + constructor; [by constructor |]. constructor.
      * intros Hback. exact (Hirrefl y (Htrans y x y Hback Hlt)).
      * eapply Forall_impl; [exact Hall |]. intros z Hyz Hzx.
        exact (Hyz (Htrans z x y Hzx Hlt)).
    + constructor; [exact IH |].
      rewrite insertSorted_perm. constructor; [| exact Hall].
      unfold Props.precedes. lia.
Qed.

Lemma sort_sorted (l : list A) :
  Props.strictOrder compareFn ->
  StronglySorted (Props.precedes compareFn) (JSArray.sort compareFn l).
Proof.
  intros Horder. unfold JSArray.sort.
  enough (H : forall acc,
             StronglySorted (Props.precedes compareFn) acc ->
             StronglySorted (Props.precedes compareFn)
               (foldl (fun sorted x => JSArray.insertSorted compareFn x sorted)
                      acc l)) by (apply H; constructor).
  induction l as [| x l IH]; intros acc Hacc; cbn; [exact Hacc |].
  by apply IH, insertSorted_sorted.
Qed.

Lemma insertSorted_last (x : A) (l : list A) :
  Forall (fun y => Props.precedes compareFn y x) l ->
  JSArray.insertSorted compareFn x l = (l ++ [x])%list.
Proof.
  induction 1 as [| y l Hy Hall IH]; cbn; [reflexivity |].
  destruct (Z.ltb_spec (compareFn x y) 0) as [Hlt | _]; [by destruct Hy |].
  by rewrite IH.
Qed.

Lemma StronglySorted_before {R : A -> A -> Prop} (l1 l2 : list A) (x : A) :
  StronglySorted R (l1 ++ x :: l2) -> Forall (fun y => R y x) l1.
Proof.
  induction l1 as [| y l1 IH]; cbn; [constructor |].
  intros Hsorted. apply StronglySorted_inv in Hsorted as [Hrest Hy].
  constructor; [| by apply IH].
  rewrite Forall_forall in Hy. apply Hy, list_elem_of_In, in_or_app. right. by left.
Qed.

(** An ordered list comes out of [sort] as it went in. *)
Lemma sort_ordered (l : list A) :
  StronglySorted (Props.precedes compareFn) l -> JSArray.sort compareFn l = l.
Proof.
  intros Hsorted. unfold JSArray.sort.
  enough (H : forall acc,
             StronglySorted (Props.precedes compareFn) (acc ++ l) ->
             foldl (fun sorted x => JSArray.insertSorted compareFn x sorted) acc l
             = (acc ++ l)%list) by (apply (H []); exact Hsorted).
  clear Hsorted. induction l as [| x l IH]; intros acc Hacc; cbn.
  - by rewrite app_nil_r.
  - rewrite insertSorted_last by (eapply StronglySorted_before; exact Hacc).
    rewrite IH; rewrite <- app_assoc; [reflexivity | exact Hacc].
Qed.

End SortOrder.

Lemma entries_named {V} (m : list (string * V)) :
  Forall (fun e => JSObject.arrayIndex (fst e) = None) m -> JSObject.entries m = m.
Proof.
  unfold JSObject.entries. intros Hall.
  assert (Hparts : JSObject.indexed m = [] /\ JSObject.named m = m).
  { induction Hall as [| e m He Hall [IHi IHn]]; [done |].
    cbn. rewrite He. by rewrite IHi, IHn. }
  destruct Hparts as [-> ->]. reflexivity.
Qed.

Lemma groupByTopic_keys (segments : list GongTranscriptSegment) :
  map fst (TranscriptService.groupByTopic segments)
    = Props.firstSeen (map TranscriptService.topicOf segments).
Proof.
  unfold Props.firstSeen.
  induction segments as [| segment segments IH] using rev_ind; [reflexivity |].
  rewrite groupByTopic_snoc, pushSegment_set, keys_set, map_app, foldl_app.
  cbn [map foldl]. rewrite <- IH.
  destruct (JSMap.get (TranscriptService.topicOf segment) _) eqn:Hget.
  - replace (existsb _ _) with true; [reflexivity |].
    symmetry. apply existsb_exists.
    exists (TranscriptService.topicOf segment). split; [| apply String.eqb_refl].
    destruct (in_dec string_dec (TranscriptService.topicOf segment)
                (map fst (TranscriptService.groupByTopic segments))) as [Hin | Hout];
      [exact Hin |].
    apply get_None in Hout. congruence.
  - replace (existsb _ _) with false; [reflexivity |].
    symmetry. apply not_true_is_false. intros Hex.
    apply existsb_exists in Hex as (k & Hk & Heq).
    apply String.eqb_eq in Heq as <-. by apply get_None in Hget.
Qed.

(** X12: when the collation's "strictly before" is a strict order, the
    sections of the grouped output come ordered by the start of their time
    range as text: no section's start collates strictly before the start of
    a section placed ahead of it. *)
Theorem sections_sorted_by_start (w : World) (speakerMap : SpeakerMap)
    (maxSegments maxSentences : Z) (transcripts : list GongTranscriptSegment) :
  Props.strictOrder (w_localeCompare w) ->
  StronglySorted
    (fun a b =>
       ~ (w_localeCompare w (TranscriptService.sectionStart b)
                            (TranscriptService.sectionStart a) < 0)%Z)
    (TranscriptService.buildSections w speakerMap maxSegments maxSentences
       transcripts).
Proof.
  intros [Htrans Hirrefl].
  apply (sort_sorted (Props.byStart w)). split.
  - intros a b c. apply Htrans.
  - intros a. apply Hirrefl.
Qed.

Lemma ordinalCompare_lt (a b : string) :
  (Sample.ordinalCompare a b < 0)%Z <-> OrderedTypeEx.String_as_OT.lt a b.
Proof.
  rewrite <- OrderedTypeEx.String_as_OT.cmp_lt.
  unfold Sample.ordinalCompare, OrderedTypeEx.String_as_OT.cmp.
  destruct (String.compare a b); split; intros H; try done; lia.
Qed.

(** Code-unit comparison is a consistent comparator. *)
Lemma ordinalCompare_strict : Props.strictOrder Sample.ordinalCompare.
Proof.
  split.
  - intros a b c Hab%ordinalCompare_lt Hbc%ordinalCompare_lt.
    apply ordinalCompare_lt. eapply OrderedTypeEx.String_as_OT.lt_trans; eauto.
  - intros a Haa%ordinalCompare_lt.
    by apply OrderedTypeEx.String_as_OT.lt_not_eq in Haa.
Qed.

Lemma sections_sorted_by_start_witness :
  let sections :=
    TranscriptService.buildSections Sample.scenario ∅ 0 0
      [ Sample.segment "p1" (Some "Late") [(125000%Z, "c")];
        Sample.segment "p2" (Some "Early") [(5000%Z, "a")];
        Sample.segment "p1" (Some "Middle") [(65000%Z, "b")] ] in
  StronglySorted
    (fun a b =>
       ~ (Sample.ordinalCompare (TranscriptService.sectionStart b)
                                (TranscriptService.sectionStart a) < 0)%Z)
    sections /\
  map sec_timeRange sections = ["0:05 - 0:05"; "1:05 - 1:05"; "2:05 - 2:05"].
Proof.
  split; [| reflexivity].
  apply (sections_sorted_by_start Sample.scenario ∅ 0 0).
  exact ordinalCompare_strict.
Defined.

(** Ordered as text, not as time: ten minutes come before two. *)
Example ten_minutes_before_two :
  map sec_topic
      (TranscriptService.buildSections Sample.scenario ∅ 0 0
         [ Sample.segment "p1" (Some "Opening") [(120000%Z, "a")];
           Sample.segment "p2" (Some "Closing") [(600000%Z, "b")] ])
    = ["Closing"; "Opening"].
Proof. reflexivity. Qed.

(** X13: the grouped output has one section for each distinct topic of the
    retained segments, a missing or empty topic counting as "Untitled
    Topic".  When no topic is a canonical array index and the sections, taken
    in the order in which their topics first appear, are already in sorted
    order, that is the order of the output. *)
Theorem sections_are_the_distinct_topics (w : World) (speakerMap : SpeakerMap)
    (maxSegments maxSentences : Z) (transcripts : list GongTranscriptSegment) :
  let segments := JSArray.limit maxSegments transcripts in
  let topics :=
    Props.firstSeen (map (fun s => JS.or_else (topic s) "Untitled Topic") segments) in
  let sections :=
    TranscriptService.buildSections w speakerMap maxSegments maxSentences
      transcripts in
  map sec_topic sections ≡ₚ topics /\
  (Forall (fun t => JSObject.arrayIndex t = None) topics ->
   StronglySorted (Props.precedes (Props.byStart w))
     (map (TranscriptService.makeSection speakerMap maxSentences)
          (TranscriptService.groupByTopic segments)) ->
   map sec_topic sections = topics).
Proof.
  cbv zeta.
  pose proof (groupByTopic_keys (JSArray.limit maxSegments transcripts)) as Hkeys.
  unfold TranscriptService.topicOf in Hkeys.
  split.
  - rewrite buildSections_perm, map_map. cbn [sec_topic TranscriptService.makeSection].
    by rewrite <- Hkeys.
  - intros Hnamed Hordered. unfold TranscriptService.buildSections. cbv zeta.
    rewrite entries_named.
    + rewrite (sort_ordered (Props.byStart w)) by exact Hordered.
      rewrite map_map. cbn [sec_topic TranscriptService.makeSection].
      by rewrite <- Hkeys.
    + rewrite <- Hkeys in Hnamed. by apply Forall_map in Hnamed.
Qed.

Lemma sections_are_the_distinct_topics_witness :
  map sec_topic
      (TranscriptService.buildSections Sample.scenario ∅ 0 0
         [ Sample.segment "p1" None [(1000%Z, "a")];
           Sample.segment "p2" (Some "Pricing") [(1000%Z, "b")];
           Sample.segment "p1" (Some "") [(1500%Z, "c")];
           Sample.segment "p2" (Some "Untitled Topic") [(1900%Z, "d")] ])
    = ["Untitled Topic"; "Pricing"].
Proof.
  destruct (sections_are_the_distinct_topics Sample.scenario ∅ 0 0
              [ Sample.segment "p1" None [(1000%Z, "a")];
                Sample.segment "p2" (Some "Pricing") [(1000%Z, "b")];
                Sample.segment "p1" (Some "") [(1500%Z, "c")];
                Sample.segment "p2" (Some "Untitled Topic") [(1900%Z, "d")] ])
    as [_ Horder].
  rewrite Horder; [reflexivity | by repeat constructor |].
  repeat constructor; by vm_compute.
Defined.

(** ** What stops the formatter and what does not *)

(** X14: [getFormattedTranscript] throws what the call fetch throws, after
    that one request; it throws what its transcript fetch throws, after
    those two requests and without a look at the directory; and for a call
    record with neither [startTime] nor [scheduled], the empty string not
    being a date, it throws a [RangeError] although every fetch
    succeeded. *)
Theorem getFormattedTranscript_fails_loud (w : World) (callId : string)
    (format : Format) (maxSegments maxSentences : Z) (st : State) :
  let st1 := record (EvGetCall callId) st in
  let st2 := record (EvGetTranscripts [callId]) st1 in
  (forall e,
     w_getCall w (history st) callId = Throw e ->
     TranscriptService.getFormattedTranscript w callId format maxSegments
       maxSentences st = (Throw e, st1)) /\
  (forall callResponse e,
     w_getCall w (history st) callId = Ok callResponse ->
     w_getTranscripts w (history st1) [callId] = Throw e ->
     TranscriptService.getFormattedTranscript w callId format maxSegments
       maxSentences st = (Throw e, st2)) /\
  (forall callResponse rc response,
     w_getCall w (history st) callId = Ok callResponse ->
     cr_call callResponse = Some rc ->
     w_getTranscripts w (history st1) [callId] = Ok response ->
     JS.truthy (rc_startTime rc) = false ->
     JS.truthy (rc_scheduled rc) = false ->
     w_toISOString w "" = None ->
     fst (TranscriptService.getFormattedTranscript w callId format maxSegments
            maxSentences st) = Throw RangeError).
Proof.
  cbv zeta. split; [| split].
  - intros e Hcall. rewrite getFormattedTranscript_unfold. cbv zeta.
    by rewrite Hcall.
  - intros callResponse e Hcall Htranscripts.
    rewrite getFormattedTranscript_unfold. cbv zeta.
    by rewrite Hcall, Htranscripts.
  - intros callResponse rc response Hcall Hrc Htranscripts Hstart Hscheduled Hdate.
    assert (Hempty : JS.or_else (JS.or_opt (rc_startTime rc) (rc_scheduled rc)) ""
                     = "").
    { unfold JS.or_opt. rewrite Hstart. unfold JS.truthy in Hscheduled.
      destruct (rc_scheduled rc) as [s |]; cbn; [| reflexivity].
      destruct (String.eqb_spec s ""); [done | discriminate Hscheduled]. }
    rewrite getFormattedTranscript_unfold. cbv zeta.
    rewrite Hcall, Htranscripts, Hrc, getSpeakerMap_unfold.
    destruct (UserService.getSpeakerMap_body w callId (Some rc) _)
      as [[speakerMap | e] st3]; by rewrite Hempty, Hdate.
Qed.

Lemma getFormattedTranscript_fails_loud_witness :
  TranscriptService.getFormattedTranscript
    (Sample.world 1000 (Ok []) (Throw Sample.unavailable)
                  (Ok (Sample.documented Sample.monologue)))
    "C1" full 0 0 Sample.fresh
    = (Throw Sample.unavailable, record (EvGetCall "C1") Sample.fresh) /\
  TranscriptService.getFormattedTranscript Sample.transcriptDown "C1" raw 0 0
    Sample.fresh
    = (Throw Sample.unavailable,
       record (EvGetTranscripts ["C1"]) (record (EvGetCall "C1") Sample.fresh)) /\
  fst (TranscriptService.getFormattedTranscript Sample.undated "C2" concise 0 0
         Sample.fresh) = Throw RangeError.
Proof.
  split; [| split].
  - destruct (getFormattedTranscript_fails_loud
                (Sample.world 1000 (Ok []) (Throw Sample.unavailable)
                              (Ok (Sample.documented Sample.monologue)))
                "C1" full 0 0 Sample.fresh) as (Hcall & _ & _).
    exact (Hcall Sample.unavailable eq_refl).
  - destruct (getFormattedTranscript_fails_loud Sample.transcriptDown "C1" raw
                0 0 Sample.fresh) as (_ & Htranscripts & _).
    exact (Htranscripts {| cr_call := Some Sample.scenarioCall |}
             Sample.unavailable eq_refl eq_refl).
  - destruct (getFormattedTranscript_fails_loud Sample.undated "C2" concise
                0 0 Sample.fresh) as (_ & _ & Hdate).
    exact (Hdate {| cr_call := Some Sample.undatedCall |} Sample.undatedCall
             (Sample.documented Sample.monologue)
             eq_refl eq_refl eq_refl eq_refl eq_refl eq_refl).
Defined.

(** X15: a failure inside the speaker resolver does not stop the
    formatter: with the call, its date and the transcript at hand,
    [getFormattedTranscript] returns the transcript rendered with an empty
    speaker map, so that in the raw format every segment shows the name
    "Speaker " followed by the first eight characters of its speaker id. *)
Theorem formatting_survives_the_resolver (w : World) (callId : string)
    (format : Format) (maxSegments maxSentences : Z) (st st' : State)
    (callResponse : CallResponse) (rc : RawCall) (response : TranscriptResponse)
    (date : string) (e : Error) :
  w_getCall w (history st) callId = Ok callResponse ->
  cr_call callResponse = Some rc ->
  w_getTranscripts w (history st ++ [EvGetCall callId]) [callId] = Ok response ->
  w_toISOString w (JS.or_else (JS.or_opt (rc_startTime rc) (rc_scheduled rc)) "")
    = Some date ->
  UserService.getSpeakerMap_body w callId (Some rc)
    (record (EvGetTranscripts [callId]) (record (EvGetCall callId) st))
    = (Throw e, st') ->
  TranscriptService.getFormattedTranscript w callId format maxSegments
    maxSentences st =
    (Ok match format with
        | raw =>
            Raw (TranscriptService.rawTranscript rc date ∅
                   (TranscriptService.transcriptOf response))
        | _ =>
            Formatted (TranscriptService.formattedTranscript w rc date ∅
                         maxSegments maxSentences
                         (TranscriptService.transcriptOf response))
        end, st') /\
  map (fun entry => sv_name (pseg_speaker entry))
      (rt_transcript (TranscriptService.rawTranscript rc date ∅
                        (TranscriptService.transcriptOf response)))
    = map (fun segment => "Speaker " ++ JS.substring0 8 (speakerId segment))
          (TranscriptService.transcriptOf response).
Proof.
  intros Hcall Hrc Htranscripts Hdate Hbody. split.
  - rewrite getFormattedTranscript_unfold. cbv zeta. cbn [record history].
    by rewrite Hcall, Htranscripts, Hrc, getSpeakerMap_unfold, Hbody, Hdate.
  - cbn [rt_transcript TranscriptService.rawTranscript]. rewrite map_map.
    apply map_ext. intros segment. unfold TranscriptService.processSegment; cbn.
    by rewrite lookup_empty.
Qed.

Lemma formatting_survives_the_resolver_witness :
  let w := Sample.world 1000 (Throw Sample.unavailable)
             (Ok {| cr_call := Some Sample.scenarioCall |})
             (Ok (Sample.documented Sample.scenarioSegments)) in
  match fst (TranscriptService.getFormattedTranscript w "C1" raw 0 0 Sample.fresh) with
  | Ok (Raw t) =>
      map (fun entry => sv_name (pseg_speaker entry)) (rt_transcript t)
        = ["Speaker p1"; "Speaker p2"; "Speaker zz9"]
  | _ => False
  end.
Proof.
  intros w.
  destruct (formatting_survives_the_resolver w "C1" raw 0 0 Sample.fresh
              (snd (TranscriptService.getFormattedTranscript w "C1" raw 0 0
                      Sample.fresh))
              {| cr_call := Some Sample.scenarioCall |} Sample.scenarioCall
              (Sample.documented Sample.scenarioSegments)
              "2024-03-01T10:00:00Z" Sample.unavailable
              eq_refl eq_refl eq_refl eq_refl eq_refl) as [Hrun Hnames].
  rewrite Hrun. cbn [fst]. rewrite Hnames. reflexivity.
Defined.

(** ** The directory cache as a map from ids *)

Section CacheKeys.

Import UserService.

Lemma refill_snoc (users : list GongUser) (u : GongUser) :
  refill (users ++ [u]) = JSMap.set (u_id u) u (refill users).
Proof. unfold refill. by rewrite foldl_app. Qed.

Lemma last_snoc {A} (l : list A) (x : A) : last (l ++ [x]) = Some x.
Proof. induction l as [| y [| z l] IH]; cbn in *; auto. Qed.

Lemma lastWithId_snoc (id : string) (users : list GongUser) (u : GongUser) :
  Props.lastWithId id (users ++ [u]) =
    if String.eqb (u_id u) id then Some u else Props.lastWithId id users.
Proof.
  unfold Props.lastWithId. rewrite List.filter_app. cbn.
  destruct (String.eqb (u_id u) id); [apply last_snoc | by rewrite app_nil_r].
Qed.

Lemma lastWithId_In (id : string) (users : list GongUser) (u : GongUser) :
  Props.lastWithId id users = Some u -> In u users /\ u_id u = id.
Proof.
  induction users as [| v users IH] using rev_ind; [discriminate |].
  rewrite lastWithId_snoc. destruct (String.eqb_spec (u_id v) id) as [Heq | Hne].
  - intros [= ->]. split; [apply in_or_app; right; by left | exact Heq].
  - intros [Hin Hid]%IH. split; [apply in_or_app; by left | exact Hid].
Qed.

Lemma lastWithId_None (id : string) (users : list GongUser) :
  Props.lastWithId id users = None ->
  List.filter (fun u => String.eqb (u_id u) id) users = [].
Proof.
  unfold Props.lastWithId.
  destruct (List.filter _ users) as [| v l] using rev_ind; [reflexivity |].
  by rewrite last_snoc.
Qed.

(** After a refill the cache answers an id with the last record fetched
    under it. *)
Lemma refill_get (id : string) (users : list GongUser) :
  JSMap.get id (refill users) = Props.lastWithId id users.
Proof.
  induction users as [| u users IH] using rev_ind; [reflexivity |].
  by rewrite refill_snoc, get_set, lastWithId_snoc, IH.
Qed.

Lemma set_keyed (u : GongUser) (m : list (string * GongUser)) :
  Forall (fun kv => u_id (snd kv) = fst kv) m ->
  Forall (fun kv => u_id (snd kv) = fst kv) (JSMap.set (u_id u) u m).
Proof.
  induction 1 as [| [k v] m Hkv Hall IH]; cbn; [by repeat constructor |].
  destruct (String.eqb_spec k (u_id u)) as [-> | Hne]; constructor; auto.
Qed.

Lemma set_keys_nodup {V} (k : string) (v : V) (m : list (string * V)) :
  NoDup (map fst m) -> NoDup (map fst (JSMap.set k v m)).
Proof.
  intros Hnd. rewrite keys_set. destruct (JSMap.get k m) eqn:Hget; [exact Hnd |].
  apply NoDup_app. split; [exact Hnd |]. split; [| apply NoDup_singleton].
  intros x Hx Hx'. apply list_elem_of_In in Hx.
  apply list_elem_of_singleton in Hx'. subst x.
  by apply get_None in Hget.
Qed.

Lemma refill_keyed (users : list GongUser) :
  NoDup (map fst (refill users)) /\
  Forall (fun kv => u_id (snd kv) = fst kv) (refill users).
Proof.
  induction users as [| u users [IHn IHk]] using rev_ind.
  - split; constructor.
  - rewrite refill_snoc. split; [by apply set_keys_nodup | by apply set_keyed].
Qed.

(** A keyed cache answers an id with the one record of its snapshot that
    carries it. *)
Lemma keyed_get (id : string) (m : list (string * GongUser)) :
  NoDup (map fst m) -> Forall (fun kv => u_id (snd kv) = fst kv) m ->
  JSMap.get id m = Props.lastWithId id (JSMap.values m).
Proof.
  unfold Props.lastWithId, JSMap.values.
  induction m as [| [k u] m IH]; cbn; [reflexivity |].
  intros [Hfresh Hnd]%NoDup_cons [Hku Hall]%Forall_cons. cbn in Hku. subst k.
  destruct (String.eqb_spec (u_id u) id) as [<- | Hne]; [| by apply IH].
  replace (List.filter _ (map snd m)) with (@nil GongUser); [reflexivity |].
  symmetry. apply lastWithId_None. unfold Props.lastWithId.
  rewrite <- (IH Hnd Hall).
  apply get_None. by intros Hin%list_elem_of_In.
Qed.

(** What [getAllUsers] leaves in the cache, and what it returns, from a
    keyed cache. *)
Lemma getAllUsers_keyed (w : World) (forceRefresh : bool) (st : State) :
  Props.cacheKeyed st ->
  Props.cacheKeyed (snd (getAllUsers w forceRefresh st)) /\
  forall users, fst (getAllUsers w forceRefresh st) = Ok users ->
    forall id, JSMap.get id (userCache (snd (getAllUsers w forceRefresh st))) =
               Props.lastWithId id users.
Proof.
  intros [Hnd Hall]. rewrite getAllUsers_unfold. cbv zeta.
  destruct (_ && _ && _).
  - cbn. split; [by split |]. intros users [= <-] id. by apply keyed_get.
  - destruct (w_getAllUsers w _) as [rawUsers | e]; cbn.
    + split; [apply refill_keyed |]. intros users [= <-] id. apply refill_get.
    + split; [by split |]. intros users [=].
Qed.

End CacheKeys.

(** X16: Whenever [getAllUsers] returns a listing, from a cache that maps
    ids to their own records, the cache it leaves answers every id with
    the last record of that listing carrying the id (and with nothing for
    an id the listing lacks), and again maps ids to their own records. *)
Theorem cache_holds_last_record_per_id (w : World) (forceRefresh : bool)
    (st st' : State) (users : list GongUser) :
  Props.cacheKeyed st ->
  UserService.getAllUsers w forceRefresh st = (Ok users, st') ->
  Props.cacheKeyed st' /\
  forall id, JSMap.get id (userCache st') = Props.lastWithId id users.
Proof.
  intros Hkeyed Hrun.
  destruct (getAllUsers_keyed w forceRefresh st Hkeyed) as [Hk Hget].
  rewrite Hrun in Hk, Hget. split; [exact Hk |]. by apply Hget.
Qed.

Lemma cache_holds_last_record_per_id_witness :
  let w := Sample.world 1000
             (Ok [Sample.alice; Sample.user "u1" "Alicia" "Ng" "a.ng@example.com";
                  Sample.bob])
             (Throw Sample.unavailable) (Throw Sample.unavailable) in
  JSMap.get "u1" (userCache (snd (UserService.getAllUsers w false Sample.fresh))) =
    Some (UserService.processUser
            (Sample.user "u1" "Alicia" "Ng" "a.ng@example.com")) /\
  JSMap.get "u5" (userCache (snd (UserService.getAllUsers w false Sample.fresh))) =
    None.
Proof.
  intros w.
  assert (Hfresh : Props.cacheKeyed Sample.fresh) by (split; constructor).
  destruct (cache_holds_last_record_per_id w false Sample.fresh _ _ Hfresh eq_refl)
    as [_ Hget].
  split; [exact (Hget "u1") | exact (Hget "u5")].
Defined.

(** ** What [findUsers] returns *)

Section Finder.

Import UserService.

Lemma truthy_inv (o : option string) :
  JS.truthy o = true -> exists s, o = Some s /\ s <> "".
Proof.
  destruct o as [s |]; [| discriminate]. cbn.
  destruct (String.eqb_spec s ""); [discriminate |]. eauto.
Qed.

(** Whoever the filter callback accepts meets the id test, the name test,
    or, no name being supplied, the email test. *)
Lemma matchesUser_sound (name email id : option string) (user : GongUser) :
  matchesUser name email id user = true ->
  Spec.idMatches id user \/ Spec.nameMatches name user \/
  (JS.truthy name = false /\ Spec.emailMatches email user).
Proof.
  unfold matchesUser.
  destruct (JS.truthy id && String.eqb (u_id user) (JS.get id)) eqn:Hid.
  { intros _. left. apply andb_true_iff in Hid as [Ht Heq].
    apply truthy_inv in Ht as (i & -> & Hi). apply String.eqb_eq in Heq.
    exists i. auto. }
  destruct (JS.truthy name) eqn:Hname.
  { intros Hmatch. right. left. apply truthy_inv in Hname as (n & -> & Hn).
    exists n. split; [reflexivity |]. split; [exact Hn |].
    change (JS.get (Some n)) with n in Hmatch.
    unfold nameMatches in Hmatch. cbv zeta in Hmatch.
    destruct (JS.includes (JS.toLowerCase (_ ++ _)) _); [by left |].
    right. apply existsb_exists in Hmatch as (token & Hin & Htoken).
    exists token. split; [exact Hin |]. by apply orb_true_iff. }
  destruct (JS.truthy email && _ && _) eqn:Hmail; [| discriminate].
  intros _. right. right. split; [reflexivity |].
  apply andb_true_iff in Hmail as [[Ht _]%andb_true_iff Hinc].
  apply truthy_inv in Ht as (e & -> & He). exists e. auto.
Qed.

Lemma filter_all {A} (f : A -> bool) (l : list A) :
  (forall x, In x l -> f x = true) -> List.filter f l = l.
Proof.
  induction l as [| x l IH]; intros Hall; cbn; [reflexivity |].
  rewrite (Hall x) by (by left). f_equal. apply IH. intros y Hy. apply Hall. by right.
Qed.

Lemma filter_none {A} (f : A -> bool) (l : list A) :
  (forall x, In x l -> f x = false) -> List.filter f l = [].
Proof.
  induction l as [| x l IH]; intros Hall; cbn; [reflexivity |].
  rewrite (Hall x) by (by left). apply IH. intros y Hy. apply Hall. by right.
Qed.

Lemma includes_empty_needle (hay : string) : JS.includes hay "" = true.
Proof. by destruct hay. Qed.

(** [findUsers] as a function of the listing [getAllUsers] returns. *)
Lemma findUsers_unfold (w : World) (name email id : option string) (st : State) :
  findUsers w name email id st =
    match getAllUsers w false st with
    | (Throw e, st') => (Throw e, st')
    | (Ok allUsers, st') =>
        match (if JS.truthy id then JSMap.get (JS.get id) (userCache st')
               else None) with
        | Some user => (Ok [user], st')
        | None => (Ok (List.filter (matchesUser name email id) allUsers), st')
        end
    end.
Proof.
  unfold findUsers, mbind, M_bind.
  destruct (getAllUsers w false st) as [[allUsers | e] st']; [| reflexivity].
  cbn [gets]. by destruct (if JS.truthy id then _ else _).
Qed.

End Finder.

(** X17: [findUsers] returns nobody else: from a cache that maps ids to
    their own records, every user of the answer is in the listing that
    [getAllUsers] returned and carries the supplied id, or is matched by
    the supplied name, or, no name being supplied, has the supplied email
    within its address. *)
Theorem findUsers_only_returns_matches (w : World) (name email id : option string)
    (st st' : State) (results : list GongUser) :
  Props.cacheKeyed st ->
  UserService.findUsers w name email id st = (Ok results, st') ->
  exists allUsers,
    UserService.getAllUsers w false st = (Ok allUsers, st') /\
    forall user, In user results ->
      In user allUsers /\
      (Spec.idMatches id user \/ Spec.nameMatches name user \/
       (JS.truthy name = false /\ Spec.emailMatches email user)).
Proof.
  intros Hkeyed. rewrite findUsers_unfold.
  destruct (getAllUsers_keyed w false st Hkeyed) as [Hk Hget].
  destruct (UserService.getAllUsers w false st) as [[allUsers | e] st1];
    [| discriminate].
  cbn [fst snd] in Hk, Hget. specialize (Hget allUsers eq_refl).
  destruct (JS.truthy id) eqn:Hid.
  - destruct (JSMap.get (JS.get id) (userCache st1)) as [hit |] eqn:Hhit.
    + intros [= <- <-]. exists allUsers. split; [reflexivity |].
      intros user [<- | []]. rewrite Hget in Hhit.
      apply lastWithId_In in Hhit as [Hin Heq]. split; [exact Hin |].
      left. apply truthy_inv in Hid as (i & -> & Hi). exists i. auto.
    + intros [= <- <-]. exists allUsers. split; [reflexivity |].
      intros user [Hin Hmatch]%filter_In. split; [exact Hin |].
      by apply matchesUser_sound.
  - intros [= <- <-]. exists allUsers. split; [reflexivity |].
    intros user [Hin Hmatch]%filter_In. split; [exact Hin |].
    by apply matchesUser_sound.
Qed.

Lemma findUsers_only_returns_matches_witness :
  let w := Sample.world 1000 (Ok [Sample.alice; Sample.bob; Sample.manager])
             (Throw Sample.unavailable) (Throw Sample.unavailable) in
  exists allUsers,
    UserService.getAllUsers w false Sample.fresh
      = (Ok allUsers, snd (UserService.findUsers w (Some "lee ann") None None
                             Sample.fresh)) /\
    forall user,
      In user [UserService.processUser Sample.bob;
               UserService.processUser Sample.manager] ->
      In user allUsers /\
      (Spec.idMatches None user \/ Spec.nameMatches (Some "lee ann") user \/
       (JS.truthy (Some "lee ann") = false /\ Spec.emailMatches None user)).
Proof.
  intros w.
  assert (Hfresh : Props.cacheKeyed Sample.fresh) by (split; constructor).
  exact (findUsers_only_returns_matches w (Some "lee ann") None None Sample.fresh
           _ _ Hfresh eq_refl).
Defined.

(** X18: With no usable criterion (each of name, email and id absent or
    empty) [findUsers] still loads the directory, and answers with the
    empty list. *)
Theorem findUsers_without_criteria (w : World) (name email id : option string)
    (st st' : State) (allUsers : list GongUser) :
  JS.truthy name = false -> JS.truthy email = false -> JS.truthy id = false ->
  UserService.getAllUsers w false st = (Ok allUsers, st') ->
  UserService.findUsers w name email id st = (Ok [], st').
Proof.
  intros Hname Hemail Hid Hload. rewrite findUsers_unfold, Hload, Hid.
  f_equal. f_equal. apply filter_none. intros user _.
  unfold UserService.matchesUser. by rewrite Hname, Hemail, Hid.
Qed.

Lemma findUsers_without_criteria_witness :
  let w := Sample.world 1000 (Ok [Sample.alice; Sample.bob])
             (Throw Sample.unavailable) (Throw Sample.unavailable) in
  UserService.findUsers w (Some "") None (Some "") Sample.fresh =
    (Ok [], snd (UserService.getAllUsers w false Sample.fresh)).
Proof.
  intros w.
  exact (findUsers_without_criteria w (Some "") None (Some "") Sample.fresh _ _
           eq_refl eq_refl eq_refl eq_refl).
Defined.

(** X19: A search by id answers with one record at most: when the listing
    holds the id, the answer is the last record carrying it, whatever name
    and email are supplied; when it does not, and nothing else is
    supplied, the answer is empty. *)
Theorem findUsers_by_id (w : World) (id : string) (st st' : State)
    (allUsers : list GongUser) :
  id <> "" ->
  Props.cacheKeyed st ->
  UserService.getAllUsers w false st = (Ok allUsers, st') ->
  (forall name email user,
     Props.lastWithId id allUsers = Some user ->
     UserService.findUsers w name email (Some id) st = (Ok [user], st')) /\
  (Props.lastWithId id allUsers = None ->
   UserService.findUsers w None None (Some id) st = (Ok [], st')).
Proof.
  intros Hid Hkeyed Hload.
  destruct (getAllUsers_keyed w false st Hkeyed) as [_ Hget].
  rewrite Hload in Hget. cbn [fst snd] in Hget.
  specialize (Hget allUsers eq_refl id).
  split.
  - intros name email user Hlast. rewrite findUsers_unfold, Hload.
    rewrite (truthy_some id Hid). change (JS.get (Some id)) with id.
    by rewrite Hget, Hlast.
  - intros Hlast. rewrite findUsers_unfold, Hload.
    rewrite (truthy_some id Hid). change (JS.get (Some id)) with id.
    rewrite Hget, Hlast. f_equal. f_equal.
    rewrite <- (lastWithId_None id allUsers Hlast).
    apply List.filter_ext. intros user. unfold UserService.matchesUser.
    rewrite (truthy_some id Hid). change (JS.get (Some id)) with id.
    cbn [andb JS.truthy]. by destruct (String.eqb (u_id user) id).
Qed.

Lemma findUsers_by_id_witness :
  let w := Sample.world 1000
             (Ok [Sample.alice; Sample.user "u1" "Alicia" "Ng" "a.ng@example.com";
                  Sample.bob])
             (Throw Sample.unavailable) (Throw Sample.unavailable) in
  fst (UserService.findUsers w (Some "bob") None (Some "u1") Sample.fresh) =
    Ok [UserService.processUser
          (Sample.user "u1" "Alicia" "Ng" "a.ng@example.com")] /\
  fst (UserService.findUsers w None None (Some "u5") Sample.fresh) = Ok [].
Proof.
  intros w.
  assert (Hfresh : Props.cacheKeyed Sample.fresh) by (split; constructor).
  split.
  - destruct (findUsers_by_id w "u1" Sample.fresh _ _ ltac:(discriminate) Hfresh
                eq_refl) as [Hhit _].
    by rewrite (Hhit (Some "bob") None _ eq_refl).
  - destruct (findUsers_by_id w "u5" Sample.fresh _ _ ltac:(discriminate) Hfresh
                eq_refl) as [_ Hmiss].
    by rewrite (Hmiss eq_refl).
Defined.

(** X20: A name with an empty token (a leading, trailing or doubled
    space) matches everybody: unless the id is found in the cache, the
    answer is the whole listing. *)
Theorem findUsers_blank_token_matches_everyone (w : World) (n : string)
    (email id : option string) (st st' : State) (allUsers : list GongUser) :
  n <> "" ->
  In "" (JS.split " " (JS.toLowerCase n)) ->
  UserService.getAllUsers w false st = (Ok allUsers, st') ->
  JS.truthy id = false \/ JSMap.get (JS.get id) (userCache st') = None ->
  UserService.findUsers w (Some n) email id st = (Ok allUsers, st').
Proof.
  intros Hn Hblank Hload Hmiss. rewrite findUsers_unfold, Hload.
  replace (if JS.truthy id then _ else _) with (@None GongUser)
    by (destruct Hmiss as [-> | Hnone];
        [reflexivity | by destruct (JS.truthy id)]).
  f_equal. f_equal. apply filter_all. intros user _.
  unfold UserService.matchesUser.
  destruct (JS.truthy id && _); [reflexivity |].
  rewrite (truthy_some n Hn). change (JS.get (Some n)) with n.
  unfold UserService.nameMatches. cbv zeta.
  destruct (JS.includes (JS.toLowerCase (_ ++ _)) _); [reflexivity |].
  apply existsb_exists. exists "". split; [exact Hblank |].
  by rewrite includes_empty_needle.
Qed.

Lemma findUsers_blank_token_matches_everyone_witness :
  let w := Sample.world 1000 (Ok [Sample.alice; Sample.bob; Sample.officer])
             (Throw Sample.unavailable) (Throw Sample.unavailable) in
  fst (UserService.findUsers w (Some "Zed ") None None Sample.fresh) =
    Ok (map UserService.processUser [Sample.alice; Sample.bob; Sample.officer]).
Proof.
  intros w.
  rewrite (findUsers_blank_token_matches_everyone w "Zed " None None Sample.fresh
             _ _ ltac:(discriminate) ltac:(right; left; reflexivity) eq_refl
             ltac:(left; reflexivity)).
  reflexivity.
Defined.

(** ** The shape of the speakers *)

Section SpeakerShape.

Import UserService.

Context (P : string -> GongSpeaker -> Prop).

Lemma seedParticipants_Forall (participants : list GongParticipant) :
  (forall id p, P id (participantSpeaker id p)) ->
  map_Forall P (seedParticipants participants).
Proof.
  intros HP. unfold seedParticipants.
  assert (Hgen : forall acc : SpeakerMap, map_Forall P acc ->
            map_Forall P
              (foldl (fun (speakerMap : SpeakerMap) participant =>
                        if JS.truthy (p_id participant)
                        then <[JS.get (p_id participant) :=
                                 participantSpeaker (JS.get (p_id participant))
                                                    participant]> speakerMap
                        else speakerMap) acc participants)).
  { induction participants as [| p participants IH]; intros acc Hacc;
      [exact Hacc |].
    cbn [foldl]. apply IH. destruct (JS.truthy (p_id p)); [| exact Hacc].
    by apply map_Forall_insert_2. }
  apply Hgen, map_Forall_empty.
Qed.

Lemma buildUserMap_Forall (allUsers : list GongUser) :
  (forall u, P (u_id u) (userSpeaker u)) ->
  map_Forall P (buildUserMap allUsers).
Proof.
  intros HP. unfold buildUserMap.
  assert (Hgen : forall acc : SpeakerMap, map_Forall P acc ->
            map_Forall P
              (foldl (fun (userMap : SpeakerMap) user =>
                        <[u_id user := userSpeaker user]> userMap) acc allUsers)).
  { induction allUsers as [| u allUsers IH]; intros acc Hacc; [exact Hacc |].
    cbn [foldl]. apply IH. by apply map_Forall_insert_2. }
  apply Hgen, map_Forall_empty.
Qed.

Lemma fillFromDirectory_Forall (cache : list (string * GongUser))
    (userMap : SpeakerMap) (missingIds : list string) (speakerMap : SpeakerMap) :
  (forall id u, JSMap.get id cache = Some u -> P id (userSpeaker u)) ->
  map_Forall P userMap -> map_Forall P speakerMap ->
  map_Forall P (fillFromDirectory cache userMap missingIds speakerMap).
Proof.
  intros Hcache Huser. unfold fillFromDirectory. revert speakerMap.
  induction missingIds as [| id missingIds IH]; intros speakerMap Hacc;
    [exact Hacc |].
  cbn [foldl]. apply IH. destruct (JSMap.get id cache) as [u |] eqn:Hget.
  - apply map_Forall_insert_2; [by apply Hcache | exact Hacc].
  - destruct (userMap !! id) as [speaker |] eqn:Hid; [| exact Hacc].
    apply map_Forall_insert_2; [by apply (Huser id) | exact Hacc].
Qed.

Lemma addPlaceholders_Forall (speakerIds : list string) (speakerMap : SpeakerMap) :
  (forall id, P id (placeholder id)) ->
  map_Forall P speakerMap -> map_Forall P (addPlaceholders speakerIds speakerMap).
Proof.
  intros HP. unfold addPlaceholders. revert speakerMap.
  induction speakerIds as [| id speakerIds IH]; intros speakerMap Hacc;
    [exact Hacc |].
  cbn [foldl]. apply IH. destruct (speakerMap !! id); [exact Hacc |].
  by apply map_Forall_insert_2.
Qed.

(** A property that every speaker has when it is built holds of every
    entry of the map that [getSpeakerMap] returns. *)
Lemma getSpeakerMap_Forall (w : World) (callId : string)
    (callDetails : option RawCall) (st : State) :
  (forall id p, P id (participantSpeaker id p)) ->
  (forall u, P (u_id u) (userSpeaker u)) ->
  (forall id, P id (placeholder id)) ->
  (forall id u,
     JSMap.get id (userCache (snd (getSpeakerMap w callId callDetails st)))
       = Some u -> P id (userSpeaker u)) ->
  forall speakerMap,
    fst (getSpeakerMap w callId callDetails st) = Ok speakerMap ->
    map_Forall P speakerMap.
Proof.
  intros Hpart Huser Hplace.
  assert (Hresolve : forall details st0,
            (forall id u,
               JSMap.get id (userCache (snd (resolveSpeakers w callId details st0)))
                 = Some u -> P id (userSpeaker u)) ->
            forall speakerMap,
              fst (resolveSpeakers w callId details st0) = Ok speakerMap ->
              map_Forall P speakerMap).
  { intros details st0. rewrite resolveSpeakers_unfold.
    destruct (w_getTranscripts w _ _) as [resp | e]; [| discriminate].
    destruct (getAllUsers w false _) as [[allUsers | e] st']; [| discriminate].
    cbn [fst snd]. intros Hcache speakerMap [= <-].
    unfold mergeSpeakers. cbv zeta.
    apply addPlaceholders_Forall; [exact Hplace |].
    apply fillFromDirectory_Forall; [exact Hcache | |].
    - by apply buildUserMap_Forall.
    - by apply seedParticipants_Forall. }
  rewrite getSpeakerMap_unfold, getSpeakerMap_body_unfold.
  destruct callDetails as [c |].
  - specialize (Hresolve (Some c) st).
    destruct (resolveSpeakers w callId (Some c) st) as [[m | e] st'];
      cbn [fst snd] in *.
    + intros Hcache speakerMap [= <-]. by apply Hresolve.
    + intros _ speakerMap [= <-]. apply map_Forall_empty.
  - destruct (w_getCall w (history st) callId) as [callResponse | e].
    + specialize (Hresolve (cr_call callResponse) (record (EvGetCall callId) st)).
      destruct (resolveSpeakers w callId _ _) as [[m | e] st'];
        cbn [fst snd] in *.
      * intros Hcache speakerMap [= <-]. by apply Hresolve.
      * intros _ speakerMap [= <-]. apply map_Forall_empty.
    + intros _ speakerMap [= <-]. apply map_Forall_empty.
Qed.

End SpeakerShape.

Section ResolverCache.

Import UserService.

(** [getSpeakerMap] leaves a cache that maps ids to their own records as
    one. *)
Lemma getSpeakerMap_keyed (w : World) (callId : string)
    (callDetails : option RawCall) (st : State) :
  Props.cacheKeyed st ->
  Props.cacheKeyed (snd (getSpeakerMap w callId callDetails st)).
Proof.
  intros Hkeyed.
  assert (Hresolve : forall details st0, Props.cacheKeyed st0 ->
            Props.cacheKeyed (snd (resolveSpeakers w callId details st0))).
  { intros details st0 H0. rewrite resolveSpeakers_unfold.
    destruct (w_getTranscripts w _ _) as [resp | e]; [| exact H0].
    pose proof (proj1 (getAllUsers_keyed w false
                         (record (EvGetTranscripts [callId]) st0) H0)) as H1.
    by destruct (getAllUsers w false _) as [[allUsers | e] st']. }
  rewrite getSpeakerMap_unfold, getSpeakerMap_body_unfold.
  destruct callDetails as [c |].
  - specialize (Hresolve (Some c) st Hkeyed).
    by destruct (resolveSpeakers w callId (Some c) st) as [[m | e] st'].
  - destruct (w_getCall w (history st) callId) as [callResponse | e];
      [| exact Hkeyed].
    specialize (Hresolve (cr_call callResponse) (record (EvGetCall callId) st)
                  Hkeyed).
    by destruct (resolveSpeakers w callId _ _) as [[m | e] st'].
Qed.

Lemma or_str_nonempty (s b : string) : b <> "" -> JS.or_str s b <> "".
Proof. unfold JS.or_str. by destruct (String.eqb_spec s ""). Qed.

(** Step 5 resolves a missing id that the cache knows from the cache. *)
Lemma fillFromDirectory_hit (cache : list (string * GongUser))
    (userMap : SpeakerMap) (missingIds : list string) (speakerMap : SpeakerMap)
    (k : string) (u : GongUser) :
  In k missingIds -> JSMap.get k cache = Some u ->
  fillFromDirectory cache userMap missingIds speakerMap !! k
    = Some (userSpeaker u).
Proof.
  intros Hin Hget. unfold fillFromDirectory.
  induction missingIds as [| id missingIds IH] using rev_ind; [destruct Hin |].
  rewrite foldl_app. cbn [foldl].
  destruct (String.eqb_spec id k) as [-> | Hne].
  - rewrite Hget. apply lookup_insert_eq.
  - apply in_app_or in Hin as [Hin | [Heq | []]]; [| done].
    destruct (JSMap.get id cache); [by rewrite lookup_insert_ne; auto |].
    destruct (userMap !! id); [by rewrite lookup_insert_ne; auto | auto].
Qed.

End ResolverCache.

(** X21: No speaker of the map that [getSpeakerMap] returns has an empty
    name: a participant, a directory user and an unknown speaker each get
    a name, the fallback being a label made from the id. *)
Theorem speakers_are_named (w : World) (callId : string)
    (callDetails : option RawCall) (st : State) (speakerMap : SpeakerMap)
    (id : string) (speaker : GongSpeaker) :
  fst (UserService.getSpeakerMap w callId callDetails st) = Ok speakerMap ->
  speakerMap !! id = Some speaker ->
  s_name speaker <> "".
Proof.
  intros Hrun Hid.
  refine (getSpeakerMap_Forall (fun _ sp => s_name sp <> "") w callId callDetails
            st _ _ _ _ speakerMap Hrun id speaker Hid).
  - intros i p. by apply or_str_nonempty.
  - intros u. by apply or_str_nonempty.
  - intros i. discriminate.
  - intros i u _. by apply or_str_nonempty.
Qed.

Lemma speakers_are_named_witness :
  let blank := {| p_id := Some "zz9"; p_name := None; p_firstName := Some " ";
                  p_lastName := None; p_email := None; p_role := None;
                  p_company := None |} in
  exists speakerMap speaker,
    fst (UserService.getSpeakerMap Sample.scenarioFlat "C1"
           (Some (Sample.rawCall "C1" [blank])) Sample.fresh) = Ok speakerMap /\
    speakerMap !! "zz9" = Some speaker /\
    s_name speaker <> "".
Proof.
  intros blank. eexists. eexists.
  split; [reflexivity |]. split; [reflexivity |].
  exact (speakers_are_named Sample.scenarioFlat "C1"
           (Some (Sample.rawCall "C1" [blank])) Sample.fresh _ "zz9" _
           eq_refl eq_refl).
Defined.

(** X22: From a cache that maps ids to their own records, every entry of
    the map that [getSpeakerMap] returns is filed under the id its speaker
    carries. *)
Theorem speakers_filed_under_their_id (w : World) (callId : string)
    (callDetails : option RawCall) (st : State) (speakerMap : SpeakerMap)
    (id : string) (speaker : GongSpeaker) :
  Props.cacheKeyed st ->
  fst (UserService.getSpeakerMap w callId callDetails st) = Ok speakerMap ->
  speakerMap !! id = Some speaker ->
  s_id speaker = id.
Proof.
  intros Hkeyed Hrun Hid.
  refine (getSpeakerMap_Forall (fun i sp => s_id sp = i) w callId callDetails
            st _ _ _ _ speakerMap Hrun id speaker Hid); try reflexivity.
  intros i u Hget.
  destruct (getSpeakerMap_keyed w callId callDetails st Hkeyed) as [_ Hall].
  apply get_Some_In in Hget.
  rewrite List.Forall_forall in Hall. exact (Hall (i, u) Hget).
Qed.

Lemma speakers_filed_under_their_id_witness :
  exists speakerMap speaker,
    fst (UserService.getSpeakerMap Sample.scenarioFlat "C1" None Sample.fresh)
      = Ok speakerMap /\
    speakerMap !! "p2" = Some speaker /\
    s_id speaker = "p2".
Proof.
  eexists. eexists. split; [reflexivity |]. split; [reflexivity |].
  exact (speakers_filed_under_their_id Sample.scenarioFlat "C1" None Sample.fresh
           _ "p2" _ (conj (NoDup_nil_2 : NoDup (map fst (userCache Sample.fresh)))
                          (Forall_nil_2 _))
           eq_refl eq_refl).
Defined.

(** X23: Where the transcript answer carries its segments in a
    [transcripts] field, a speaker of a segment who is not among the
    participants and whose id the directory listing holds is resolved from
    the directory: from a cache that maps ids to their own records, the
    entry is built from the last record of the listing carrying the id. *)
Theorem directory_resolves_speaker (w : World) (callId : string)
    (callDetails details : option RawCall) (st st1 st2 : State)
    (transcriptResponse : TranscriptResponse)
    (segments : list GongTranscriptSegment) (allUsers : list GongUser)
    (segment : GongTranscriptSegment) (user : GongUser) :
  Props.cacheKeyed st ->
  UserService.fetchCallDetails w callId callDetails st = (Ok details, st1) ->
  w_getTranscripts w (history st1) [callId] = Ok transcriptResponse ->
  tr_transcripts transcriptResponse = Some segments ->
  UserService.getAllUsers w false (record (EvGetTranscripts [callId]) st1) =
    (Ok allUsers, st2) ->
  In segment segments -> speakerId segment <> "" ->
  UserService.seedParticipants (UserService.participantsOf details)
    !! speakerId segment = None ->
  Props.lastWithId (speakerId segment) allUsers = Some user ->
  exists speakerMap,
    UserService.getSpeakerMap w callId callDetails st = (Ok speakerMap, st2) /\
    speakerMap !! speakerId segment = Some (UserService.userSpeaker user).
Proof.
  intros Hkeyed Hdetails Htranscripts Hfield Husers Hin Hid Hseed Hlast.
  assert (Hkeyed1 : Props.cacheKeyed (record (EvGetTranscripts [callId]) st1)).
  { revert Hdetails. unfold UserService.fetchCallDetails.
    destruct callDetails as [c |]; [by intros [= _ <-] |].
    unfold mbind, M_bind. rewrite ask_run.
    destruct (w_getCall w _ _); by intros [= _ <-]. }
  destruct (getAllUsers_keyed w false _ Hkeyed1) as [_ Hget].
  rewrite Husers in Hget. cbn [fst snd] in Hget.
  specialize (Hget allUsers eq_refl (speakerId segment)). rewrite Hlast in Hget.
  rewrite getSpeakerMap_unfold. unfold UserService.getSpeakerMap_body.
  unfold mbind at 1, M_bind at 1. rewrite Hdetails.
  rewrite resolveSpeakers_unfold, Htranscripts, Husers, Hfield.
  eexists. split; [reflexivity |]. cbn [default from_option Datatypes.id].
  unfold UserService.mergeSpeakers. cbv zeta.
  apply addPlaceholders_keeps. apply fillFromDirectory_hit; [| exact Hget].
  apply filter_In. split; [by apply collectSpeakerIds_complete |].
  rewrite Hseed. rewrite bool_decide_eq_false_2; [reflexivity |].
  by intros [? ?].
Qed.

Lemma directory_resolves_speaker_witness :
  exists speakerMap,
    fst (UserService.getSpeakerMap Sample.scenarioFlat "C1" None Sample.fresh)
      = Ok speakerMap /\
    speakerMap !! "p2" =
      Some (UserService.userSpeaker (UserService.processUser Sample.bob)).
Proof.
  destruct (directory_resolves_speaker Sample.scenarioFlat "C1" None
              (Some Sample.scenarioCall) Sample.fresh
              (record (EvGetCall "C1") Sample.fresh) _
              (Sample.flat Sample.scenarioSegments) Sample.scenarioSegments
              [UserService.processUser Sample.bob]
              (Sample.segment "p2" (Some "Intro") [(4000%Z, "Hi Alice.")])
              (UserService.processUser Sample.bob)
              (conj (NoDup_nil_2 : NoDup (map fst (userCache Sample.fresh)))
                    (Forall_nil_2 _))
              eq_refl eq_refl eq_refl eq_refl
              ltac:(right; left; reflexivity) ltac:(discriminate)
              eq_refl eq_refl)
    as (speakerMap & Hrun & Hentry).
  exists speakerMap. split; [by rewrite Hrun | exact Hentry].
Defined.

(** X24: A refresh that fails throws what the accessor threw, after one
    fetch, and leaves the cached snapshot and its timestamp as they were:
    an unforced call that follows inside the expiry window is served the
    old snapshot. *)
Theorem failed_refresh_keeps_cache (w : World) (forceRefresh : bool)
    (st st' : State) (e : Error) :
  UserService.getAllUsers w forceRefresh st = (Throw e, st') ->
  w_getAllUsers w (history st ++ [EvNow]) = Throw e /\
  fetches st' = S (fetches st) /\
  userCache st' = userCache st /\
  lastCacheUpdate st' = lastCacheUpdate st /\
  (userCache st <> [] ->
   (w_now w (history st') - lastCacheUpdate st < UserService.cacheExpiryMs)%Z ->
   UserService.getAllUsers w false st' =
     (Ok (JSMap.values (userCache st)), record EvNow st')).
Proof.
  rewrite getAllUsers_unfold. cbv zeta.
  destruct (negb forceRefresh && _ && _); [discriminate |].
  destruct (w_getAllUsers w _) as [rawUsers | e']; [discriminate |].
  intros [= -> <-]. split; [reflexivity |].
  split; [by rewrite fetches_record_fetch, fetches_record_now |].
  split; [reflexivity |]. split; [reflexivity |].
  intros Hcache Hwindow. rewrite getAllUsers_unfold. cbv zeta.
  cbn [userCache lastCacheUpdate record] in *.
  replace (0 <? JSMap.size (userCache st))%Z with true.
  - apply Z.ltb_lt in Hwindow. cbn [history] in Hwindow. by rewrite Hwindow.
  - symmetry. apply Z.ltb_lt. unfold JSMap.size.
    destruct (userCache st); [done | cbn; lia].
Qed.

Lemma failed_refresh_keeps_cache_witness :
  let w := Sample.world 1000 (Throw Sample.unavailable)
             (Throw Sample.unavailable) (Throw Sample.unavailable) in
  let st := {| userCache := [("u1", UserService.processUser Sample.alice)];
               lastCacheUpdate := 500; history := [] |} in
  fst (UserService.getAllUsers w true st) = Throw Sample.unavailable /\
  fst (UserService.getAllUsers w false (snd (UserService.getAllUsers w true st)))
    = Ok [UserService.processUser Sample.alice].
Proof.
  intros w st.
  destruct (failed_refresh_keeps_cache w true st _ Sample.unavailable eq_refl)
    as (_ & _ & _ & _ & Hserved).
  split; [reflexivity |].
  exact (f_equal fst (Hserved ltac:(discriminate) eq_refl)).
Defined.

(** ** The limits of the grouped output *)

Section Limits.

Lemma limit_length {A} (n : Z) (l : list A) :
  Z.of_nat (length (JSArray.limit n l)) =
    if (0 <? n)%Z then Z.min n (Z.of_nat (length l)) else Z.of_nat (length l).
Proof.
  unfold JSArray.limit.
  destruct (0 <? n)%Z eqn:Hpos; cbn [andb]; [| reflexivity].
  apply Z.ltb_lt in Hpos.
  destruct (n <? Z.of_nat (length l))%Z eqn:Hlong.
  - apply Z.ltb_lt in Hlong. rewrite length_firstn. lia.
  - apply Z.ltb_ge in Hlong. lia.
Qed.

Lemma exchanges_length (speakerMap : SpeakerMap) (maxSentences : Z)
    (groups : list (string * list GongTranscriptSegment)) :
  length (flat_map sec_exchanges
            (map (TranscriptService.makeSection speakerMap maxSentences) groups)) =
  length (flat_map snd groups).
Proof.
  induction groups as [| [t group] groups IH]; cbn; [reflexivity |].
  by rewrite !length_app, IH, length_map.
Qed.

End Limits.

(** X25: [maxSegments] caps the grouped output: over all sections there is
    one exchange per retained segment, that is [maxSegments] of them when
    the limit is positive and the transcript is longer, and one per
    segment of the transcript otherwise (a limit of zero or below keeps
    everything). *)
Theorem maxSegments_caps_exchanges (w : World) (callId : string)
    (format : Format) (maxSegments maxSentences : Z) (st st' : State)
    (t : FormattedTranscript) (response : TranscriptResponse) :
  TranscriptService.getFormattedTranscript w callId format maxSegments
    maxSentences st = (Ok (Formatted t), st') ->
  w_getTranscripts w (history st ++ [EvGetCall callId]) [callId] = Ok response ->
  Z.of_nat (length (flat_map sec_exchanges (ft_sections t))) =
    let available :=
      Z.of_nat (length (TranscriptService.transcriptOf response)) in
    if (0 <? maxSegments)%Z then Z.min maxSegments available else available.
Proof.
  intros Hrun Hresponse.
  apply getFormattedTranscript_ok in Hrun
    as (callResponse & call & response' & speakerMap & date &
        _ & _ & Hresponse' & _ & Hresult).
  rewrite Hresponse in Hresponse'. injection Hresponse' as <-.
  assert (Ht : ft_sections t =
               TranscriptService.buildSections w speakerMap maxSegments
                 maxSentences (TranscriptService.transcriptOf response)).
  { destruct format; try discriminate Hresult; by injection Hresult as ->. }
  rewrite Ht. cbv zeta. rewrite <- limit_length.
  f_equal.
  rewrite (Permutation_length
             (Permutation_flat_map sec_exchanges
                (buildSections_perm w speakerMap maxSegments maxSentences _))).
  rewrite exchanges_length. apply Permutation_length, groupByTopic_perm.
Qed.

Lemma maxSegments_caps_exchanges_witness :
  exists t st',
    TranscriptService.getFormattedTranscript Sample.scenario "C1" concise 2 0
      Sample.fresh = (Ok (Formatted t), st') /\
    Z.of_nat (length (flat_map sec_exchanges (ft_sections t))) = 2%Z.
Proof.
  destruct (TranscriptService.getFormattedTranscript Sample.scenario "C1" concise
              2 0 Sample.fresh) as [[[t | t] | e] st'] eqn:Hrun;
    try discriminate Hrun.
  exists t, st'. split; [reflexivity |].
  exact (maxSegments_caps_exchanges Sample.scenario "C1" concise 2 0 Sample.fresh
           st' t (Sample.documented Sample.scenarioSegments) Hrun eq_refl).
Defined.
